(** * CAN bus driver of the Zubax Babel firmware: a shallow embedding

    The definitions below follow [firmware/src/can_bus.cpp]:
    the bit-timing calculator [computeTimings], the arbitration rule
    [Frame::priorityHigherThan], the receive ring buffer [RxQueue], the
    driver [State] with its interrupt handlers for transmission,
    reception and status changes, the transmit-mailbox admission and
    loading functions, the blocking [send]/[receive] loops, and
    [start]/[stop] with the polling of the init acknowledge.

    Fixed-width unsigned integers are values of [Z] with the wrap-around
    written out ([u8], [u16], [u32], [u64]); arrays are lists accessed
    with stdpp's lookup and insert.  An assertion is modelled by the
    branch it stands in, which is what the code does when compiled with
    [NDEBUG]; the bit-timing calculator, where an assertion can fail on
    a run that otherwise returns timings, is modelled a second time with
    its assertions enabled ([computeTimings_checked]). *)

From Stdlib Require Import ZArith Lia Bool List.
From stdpp Require Import base list.
Import ListNotations.

Local Open Scope Z_scope.

(** ** Machine integers *)

Definition u8  (x : Z) : Z := x mod 2 ^ 8.
Definition u16 (x : Z) : Z := x mod 2 ^ 16.
Definition u32 (x : Z) : Z := x mod 2 ^ 32.
Definition u64 (x : Z) : Z := x mod 2 ^ 64.

(** Conversion of an integer to [bool] as C++ does it. *)
Definition to_bool (x : Z) : bool := negb (x =? 0).

(** ** Error codes

    The functions return [int]: zero or a positive count on success, a
    negated [Err...] constant on failure.  The numeric values of the
    constants live in [can_bus.hpp]; a negated constant is kept symbolic
    as [Neg e]. *)

Inductive Error : Type :=
| ErrInvalidBitRate
| ErrLogic
| ErrUnsupportedFrame
| ErrMsrInakNotSet
| ErrMsrInakNotCleared.

Inductive retcode : Type :=
| Ret (n : Z)
| Neg (e : Error).

(** ** Bit timings: [computeTimings] *)

Record Timings : Type := mkTimings {
  prescaler : Z;   (* std::uint16_t *)
  sjw : Z;         (* std::uint8_t *)
  bs1 : Z;         (* std::uint8_t *)
  bs2 : Z          (* std::uint8_t *)
}.

Definition MaxBS1 : Z := 16.
Definition MaxBS2 : Z := 8.
Definition MaxSamplePointLocation : Z := 900.

Definition max_quanta_per_bit (target_bitrate : Z) : Z :=
  if 1000000 <=? target_bitrate then 10 else 17.

(** The local struct [BsPair]. *)
Record BsPair : Type := mkBsPair {
  bp_bs1 : Z;                  (* std::uint8_t *)
  bp_bs2 : Z;                  (* std::uint8_t *)
  sample_point_permill : Z     (* std::uint16_t *)
}.

(** The two-argument constructor [BsPair(bs1_bs2_sum, arg_bs1)] has
    three member initialisers and a body that is one assertion.
    [BsPair_init] is the object the initialisers build, [BsPair_assert]
    the condition of [assert(bs1_bs2_sum > arg_bs1)], and [BsPair_make]
    the constructor as a whole: [None] when the assertion fails and the
    program stops there.  In a build with [NDEBUG] the assertion is
    compiled out and the constructor is [BsPair_init] alone. *)
Definition BsPair_init (bs1_bs2_sum arg_bs1 : Z) : BsPair :=
  let b1 := u8 arg_bs1 in
  let b2 := u8 (bs1_bs2_sum - b1) in
  {| bp_bs1 := b1;
     bp_bs2 := b2;
     sample_point_permill := u16 (Z.quot (1000 * (1 + b1)) (1 + b1 + b2)) |}.

Definition BsPair_assert (bs1_bs2_sum arg_bs1 : Z) : bool :=
  u8 arg_bs1 <? bs1_bs2_sum.

Definition BsPair_make (bs1_bs2_sum arg_bs1 : Z) : option BsPair :=
  if BsPair_assert bs1_bs2_sum arg_bs1
  then Some (BsPair_init bs1_bs2_sum arg_bs1)
  else None.

Definition isValid (s : BsPair) : bool :=
  (1 <=? bp_bs1 s) && (bp_bs1 s <=? MaxBS1) &&
  (1 <=? bp_bs2 s) && (bp_bs2 s <=? MaxBS2).

(** The search loop
    [while ((prescaler_bs % (1 + bs1_bs2_sum)) != 0)
       { if (bs1_bs2_sum <= 2) return -ErrInvalidBitRate; bs1_bs2_sum--; }].
    The counter is a [std::uint8_t] that only ever decreases while it is
    above 2, so it is a [nat] here and the recursion is structural on it.
    [None] is the early return "No solution". *)
Fixpoint search_sum (prescaler_bs : Z) (bs1_bs2_sum : nat) : option Z :=
  if prescaler_bs mod (1 + Z.of_nat bs1_bs2_sum) =? 0
  then Some (Z.of_nat bs1_bs2_sum)
  else if Z.of_nat bs1_bs2_sum <=? 2 then None
  else match bs1_bs2_sum with
       | O => None
       | S n => search_sum prescaler_bs n
       end.

(** The two candidate splits and the choice between them, with the
    assertions compiled out. *)
Definition choose_split (bs1_bs2_sum : Z) : BsPair :=
  let solution := BsPair_init bs1_bs2_sum (Z.quot ((7 * bs1_bs2_sum - 1) + 4) 8) in
  if MaxSamplePointLocation <? sample_point_permill solution
  then BsPair_init bs1_bs2_sum (Z.quot (7 * bs1_bs2_sum - 1) 8)
  else solution.

(** The same two statements in a build with assertions: each of the two
    constructor calls can stop the program. *)
Definition choose_split_checked (bs1_bs2_sum : Z) : option BsPair :=
  match BsPair_make bs1_bs2_sum (Z.quot ((7 * bs1_bs2_sum - 1) + 4) 8) with
  | None => None
  | Some solution =>
      if MaxSamplePointLocation <? sample_point_permill solution
      then BsPair_make bs1_bs2_sum (Z.quot (7 * bs1_bs2_sum - 1) 8)
      else Some solution
  end.

(** The condition of the final validation: [true] when the function
    takes the branch [assert(0); return -ErrLogic;]. *)
Definition final_validation_fails
    (target_bitrate pclk prescaler_v : Z) (solution : BsPair) : bool :=
  negb (target_bitrate =?
        pclk / u32 (prescaler_v * (1 + bp_bs1 solution + bp_bs2 solution)))
  || negb (isValid solution).

(** [computeTimings] with the assertions compiled out ([NDEBUG]).
    [pclk] stands for the macro [STM32_PCLK1], which the board
    configuration defines; the out-parameter [out_timings] is the
    payload of [inr]. *)
Definition computeTimings (target_bitrate pclk : Z) : Error + Timings :=
  if target_bitrate <? 1 then inl ErrInvalidBitRate
  else
    let prescaler_bs := pclk / target_bitrate in
    match search_sum prescaler_bs
            (Z.to_nat (u8 (max_quanta_per_bit target_bitrate - 1))) with
    | None => inl ErrInvalidBitRate
    | Some bs1_bs2_sum =>
        let prescaler_v := prescaler_bs / (1 + bs1_bs2_sum) in
        if (prescaler_v <? 1) || (1024 <? prescaler_v)
        then inl ErrInvalidBitRate
        else
          let solution := choose_split bs1_bs2_sum in
          if final_validation_fails target_bitrate pclk prescaler_v solution
          then inl ErrLogic
          else inr {| prescaler := u16 (prescaler_v - 1);
                      sjw := 0;
                      bs1 := u8 (bp_bs1 solution - 1);
                      bs2 := u8 (bp_bs2 solution - 1) |}
    end.

(** [computeTimings] in a build with assertions.  [None] is a failed
    assertion, after which the function does not return: the one on the
    quanta budget, the one in the constructor of [BsPair], or the
    [assert(0)] of the final validation. *)
Definition computeTimings_checked (target_bitrate pclk : Z)
    : option (Error + Timings) :=
  if target_bitrate <? 1 then Some (inl ErrInvalidBitRate)
  else if negb (max_quanta_per_bit target_bitrate <=? MaxBS1 + MaxBS2) then None
  else
    let prescaler_bs := pclk / target_bitrate in
    match search_sum prescaler_bs
            (Z.to_nat (u8 (max_quanta_per_bit target_bitrate - 1))) with
    | None => Some (inl ErrInvalidBitRate)
    | Some bs1_bs2_sum =>
        let prescaler_v := prescaler_bs / (1 + bs1_bs2_sum) in
        if (prescaler_v <? 1) || (1024 <? prescaler_v)
        then Some (inl ErrInvalidBitRate)
        else
          match choose_split_checked bs1_bs2_sum with
          | None => None
          | Some solution =>
              if final_validation_fails target_bitrate pclk prescaler_v solution
              then None
              else Some (inr {| prescaler := u16 (prescaler_v - 1);
                                sjw := 0;
                                bs1 := u8 (bp_bs1 solution - 1);
                                bs2 := u8 (bp_bs2 solution - 1) |})
          end
    end.

(** The value of [STM32_PCLK1] with the clock tree of [mcuconf.h]:
    HSE 16 MHz, PREDIV 2, PLLMUL 9, PPRE1 DIV2. *)
Definition STM32_PCLK1 : Z := 16 * 1000 * 1000 / 2 * 9 / 2.

(** A pair (bitrate, clock) has an exact solution within the quanta
    budget of the calculator when the clock is the bitrate times a
    prescaler in 1..1024 times a number of quanta per bit between 3 and
    [max_quanta_per_bit]. *)
Definition admits_exact_solution (target_bitrate pclk : Z) : Prop :=
  1 <= target_bitrate /\
  exists p q : Z,
    1 <= p <= 1024 /\
    3 <= q <= max_quanta_per_bit target_bitrate /\
    pclk = target_bitrate * p * q.

(** The specification's reading of "admits an exact-division solution":
    some prescaler in 1..1024 and some segments bs1 in 1..16 and bs2 in
    1..8 with the sample point at or below 90% reproduce the bitrate
    exactly, whatever the number of quanta per bit. *)
Definition admits_register_solution (target_bitrate pclk : Z) : Prop :=
  1 <= target_bitrate /\
  exists p b1 b2 : Z,
    1 <= p <= 1024 /\
    1 <= b1 <= MaxBS1 /\
    1 <= b2 <= MaxBS2 /\
    10 * (1 + b1) <= 9 * (1 + b1 + b2) /\
    pclk = target_bitrate * (p * (1 + b1 + b2)).

(** ** Frames *)

(** [Frame] and [RxFrame] are declared in [can_bus.hpp]; the fields are
    the ones [can_bus.cpp] reads and writes. *)
Record Frame : Type := mkFrame {
  Frame_id : Z;            (* std::uint32_t, identifier with flags *)
  Frame_data : list Z;     (* std::uint8_t data[8] *)
  Frame_dlc : Z            (* std::uint8_t *)
}.

Record RxFrame : Type := mkRxFrame {
  RxFrame_frame : Frame;
  RxFrame_timestamp_systick : Z;
  RxFrame_loopback : bool;
  RxFrame_failed : bool
}.

Definition Frame_default : Frame := mkFrame 0 (replicate 8 0) 0.
Definition RxFrame_default : RxFrame := mkRxFrame Frame_default 0 false false.

#[global] Instance Frame_inhabited : Inhabited Frame := populate Frame_default.
#[global] Instance RxFrame_inhabited : Inhabited RxFrame := populate RxFrame_default.

(** Modelled from the spec: the constants of [Frame] in [can_bus.hpp].
    The identifier is 11 bits wide in the standard format and 29 bits
    wide in the extended format; the extended-format, remote-request and
    error-frame flags are single bits of the same 32-bit word above the
    identifier ([handleRxInterrupt] ors them into [id]). *)
Definition MaskStdID : Z := 0x7FF.
Definition MaskExtID : Z := 0x1FFFFFFF.
Definition FlagEFF : Z := 2 ^ 31.
Definition FlagRTR : Z := 2 ^ 30.
Definition FlagERR : Z := 2 ^ 29.

(** Modelled from the spec: the flag tests of [Frame] in [can_bus.hpp]. *)
Definition isExtended (f : Frame) : bool := to_bool (Z.land (Frame_id f) FlagEFF).
Definition isRemoteTransmissionRequest (f : Frame) : bool :=
  to_bool (Z.land (Frame_id f) FlagRTR).
Definition isErrorFrame (f : Frame) : bool := to_bool (Z.land (Frame_id f) FlagERR).

(** [Frame::priorityHigherThan]. *)
Definition priorityHigherThan (self rhs : Frame) : bool :=
  let clean_id := Z.land (Frame_id self) MaskExtID in
  let rhs_clean_id := Z.land (Frame_id rhs) MaskExtID in
  let ext := to_bool (Z.land (Frame_id self) FlagEFF) in
  let rhs_ext := to_bool (Z.land (Frame_id rhs) FlagEFF) in
  if negb (eqb ext rhs_ext) then
    let arb11 := if ext then Z.shiftr clean_id 18 else clean_id in
    let rhs_arb11 := if rhs_ext then Z.shiftr rhs_clean_id 18 else rhs_clean_id in
    if negb (arb11 =? rhs_arb11) then arb11 <? rhs_arb11 else rhs_ext
  else
    let rtr := to_bool (Z.land (Frame_id self) FlagRTR) in
    let rhs_rtr := to_bool (Z.land (Frame_id rhs) FlagRTR) in
    if (clean_id =? rhs_clean_id) && negb (eqb rtr rhs_rtr) then rhs_rtr
    else clean_id <? rhs_clean_id.

(** The identifier as [priorityHigherThan] cleans it: masked to 29 bits
    whatever the format. *)
Definition clean_id (f : Frame) : Z := Z.land (Frame_id f) MaskExtID.

(** The identifier masked to the width of the frame's own format, as
    [loadTxMailbox] puts it on the bus. *)
Definition format_masked_id (f : Frame) : Z :=
  if isExtended f then Z.land (Frame_id f) MaskExtID
  else Z.land (Frame_id f) MaskStdID.

(** A frame whose identifier has no bit set beyond the width of its
    format: nothing in bits 11 to 28 of a standard frame. *)
Definition no_stray_bits (f : Frame) : Prop :=
  clean_id f = format_masked_id f.

(** The three components that identify a frame for arbitration. *)
Definition arbitration_fields (f : Frame) : bool * Z * bool :=
  (isExtended f, format_masked_id f, isRemoteTransmissionRequest f).

(** The arbitration value of a frame whose format differs from the
    other's: the 11 identifier bits that are sent first. *)
Definition top11 (f : Frame) : Z :=
  if isExtended f then Z.shiftr (Z.land (Frame_id f) MaskExtID) 18
  else Z.land (Frame_id f) MaskStdID.

(** ** The receive ring buffer: [class RxQueue] *)

Module RxQueue.

Definition Capacity : Z := 16.

Record t : Type := mk {
  buf_ : list RxFrame;     (* RxFrame buf_[Capacity] *)
  in_ : Z;                 (* std::uint8_t *)
  out_ : Z;                (* std::uint8_t *)
  len_ : Z;                (* std::uint8_t *)
  overflow_cnt_ : Z        (* std::uint32_t *)
}.

(** A freshly constructed queue. *)
Definition init : t := mk (replicate 16 RxFrame_default) 0 0 0 0.

Definition registerOverflow (q : t) : t :=
  if overflow_cnt_ q <? 0xFFFFFFFF
  then mk (buf_ q) (in_ q) (out_ q) (len_ q) (u32 (overflow_cnt_ q + 1))
  else q.

(** The increment of an index followed by its wrap to zero. *)
Definition next_index (i : Z) : Z :=
  let i1 := u8 (i + 1) in
  if Capacity <=? i1 then 0 else i1.

(** [push].  The store [buf_[in_] = frame] is a list insert; an index
    outside the array, which the C++ leaves undefined, stores nothing. *)
Definition push (frame : RxFrame) (q : t) : t :=
  let buf1 := <[Z.to_nat (in_ q) := frame]> (buf_ q) in
  let in1 := next_index (in_ q) in
  let len1 := u8 (len_ q + 1) in
  if Capacity <? len1 then
    let q1 := registerOverflow (mk buf1 in1 (out_ q) Capacity (overflow_cnt_ q)) in
    mk (buf_ q1) (in_ q1) (next_index (out_ q1)) (len_ q1) (overflow_cnt_ q1)
  else mk buf1 in1 (out_ q) len1 (overflow_cnt_ q).

(** [pop].  [None] is the branch [assert(0)] taken on an empty queue,
    where [out_frame] and the queue are left as they were; the read
    [buf_[out_]] is a total lookup. *)
Definition pop (q : t) : option (RxFrame * t) :=
  if 0 <? len_ q then
    Some (buf_ q !!! Z.to_nat (out_ q),
          mk (buf_ q) (in_ q) (next_index (out_ q)) (u8 (len_ q - 1))
             (overflow_cnt_ q))
  else None.

Definition reset (q : t) : t := mk (buf_ q) 0 0 0 0.

Definition getLength (q : t) : Z := len_ q.

Definition getOverflowCount (q : t) : Z := overflow_cnt_ q.

(** Pushing a sequence of frames, first to last. *)
Definition push_all (fs : list RxFrame) (q : t) : t :=
  fold_left (fun acc f => push f acc) fs q.

(** Successive pops, at most [n] of them, until one finds the queue
    empty; the frames in the order they come out, and the queue left. *)
Fixpoint pop_many (n : nat) (q : t) : list RxFrame * t :=
  match n with
  | O => ([], q)
  | S n' =>
      match pop q with
      | None => ([], q)
      | Some (f, q') => let (fs, q'') := pop_many n' q' in (f :: fs, q'')
      end
  end.

(** The frames held, oldest first: [len_] slots read from [out_] on. *)
Definition contents (q : t) : list RxFrame :=
  map (fun k : nat => buf_ q !!! Z.to_nat ((out_ q + Z.of_nat k) mod Capacity))
      (seq 0 (Z.to_nat (len_ q))).

(** The invariant on the indices and the length alone. *)
Definition ring_inv (q : t) : Prop :=
  (0 <= len_ q <= Capacity) /\
  (0 <= in_ q < Capacity) /\
  (0 <= out_ q < Capacity) /\
  (in_ q = (out_ q + len_ q) mod Capacity).

(** A well-formed queue: the invariant, the sixteen slots of the array
    and the range of the overflow counter. *)
Definition wf (q : t) : Prop :=
  ring_inv q /\
  length (buf_ q) = 16%nat /\
  0 <= overflow_cnt_ q <= 0xFFFFFFFF.

End RxQueue.

(** ** The bxCAN registers the driver touches

    Register bit masks are those of the STM32 device header.  A register
    is a field that holds what the peripheral presents on a read; a write
    by the driver stores the written word.  How the peripheral reacts to
    a write is outside the model. *)

Definition CAN_MSR_ERRI : Z := 0x4.
Definition CAN_ESR_BOFF : Z := 0x4.
Definition CAN_ESR_LEC : Z := 0x70.
Definition CAN_TSR_ABRQ0 : Z := 0x80.
Definition CAN_TSR_ABRQ1 : Z := 0x8000.
Definition CAN_TSR_ABRQ2 : Z := 0x800000.
Definition CAN_TSR_TME0 : Z := 0x4000000.
Definition CAN_TSR_TME1 : Z := 0x8000000.
Definition CAN_TSR_TME2 : Z := 0x10000000.
Definition CAN_TI0R_TXRQ : Z := 0x1.
Definition CAN_TI0R_RTR : Z := 0x2.
Definition CAN_TI0R_IDE : Z := 0x4.

Record CAN_TxMailBox : Type := mkTxMailBox {
  TIR : Z;
  TDTR : Z;
  TDLR : Z;
  TDHR : Z
}.

#[global] Instance CAN_TxMailBox_inhabited : Inhabited CAN_TxMailBox :=
  populate (mkTxMailBox 0 0 0 0).

Record CAN_TypeDef : Type := mkCAN {
  MSR : Z;
  TSR : Z;
  ESR : Z;
  sTxMailBox : list CAN_TxMailBox     (* three transmit mailboxes *)
}.

(** ** Driver state: [struct State] *)

Definition NumTxMailboxes : nat := 3.

(** [class Event] wraps a counting semaphore; the model keeps the number
    of [signalI] calls made on it. *)
Record Event : Type := mkEvent { signals : Z }.

Definition signalI (e : Event) : Event := mkEvent (signals e + 1).

Record TxItem : Type := mkTxItem {
  TxItem_frame : Frame;
  TxItem_pending : bool
}.

#[global] Instance TxItem_inhabited : Inhabited TxItem :=
  populate (mkTxItem Frame_default false).

Record State : Type := mkState {
  error_cnt : Z;                 (* std::uint64_t *)
  rx_overflow_cnt : Z;           (* std::uint64_t *)
  tx_cnt : Z;                    (* std::uint64_t *)
  rx_cnt : Z;                    (* std::uint64_t *)
  rx_queue : RxQueue.t;
  rx_event : Event;
  tx_event : Event;
  pending_tx : list TxItem;      (* TxItem pending_tx[NumTxMailboxes] *)
  last_hw_error_code : Z;        (* std::uint8_t *)
  peak_tx_mailbox_index : Z;     (* std::uint8_t *)
  had_activity : bool;
  loopback : bool
}.

(** [State(option_loopback)]. *)
Definition State_init (option_loopback : bool) : State :=
  mkState 0 0 0 0 RxQueue.init (mkEvent 0) (mkEvent 0)
          (replicate NumTxMailboxes (mkTxItem Frame_default false))
          0 0 false option_loopback.

Definition set_rx_queue (q : RxQueue.t) (s : State) : State :=
  mkState (error_cnt s) (rx_overflow_cnt s) (tx_cnt s) (rx_cnt s) q
          (rx_event s) (tx_event s) (pending_tx s) (last_hw_error_code s)
          (peak_tx_mailbox_index s) (had_activity s) (loopback s).

Definition set_rx_event (e : Event) (s : State) : State :=
  mkState (error_cnt s) (rx_overflow_cnt s) (tx_cnt s) (rx_cnt s) (rx_queue s)
          e (tx_event s) (pending_tx s) (last_hw_error_code s)
          (peak_tx_mailbox_index s) (had_activity s) (loopback s).

Definition set_tx_event (e : Event) (s : State) : State :=
  mkState (error_cnt s) (rx_overflow_cnt s) (tx_cnt s) (rx_cnt s) (rx_queue s)
          (rx_event s) e (pending_tx s) (last_hw_error_code s)
          (peak_tx_mailbox_index s) (had_activity s) (loopback s).

Definition set_pending_tx (p : list TxItem) (s : State) : State :=
  mkState (error_cnt s) (rx_overflow_cnt s) (tx_cnt s) (rx_cnt s) (rx_queue s)
          (rx_event s) (tx_event s) p (last_hw_error_code s)
          (peak_tx_mailbox_index s) (had_activity s) (loopback s).

Definition set_peak_tx_mailbox_index (i : Z) (s : State) : State :=
  mkState (error_cnt s) (rx_overflow_cnt s) (tx_cnt s) (rx_cnt s) (rx_queue s)
          (rx_event s) (tx_event s) (pending_tx s) (last_hw_error_code s)
          i (had_activity s) (loopback s).

(** [had_activity = true; rx_cnt++;] *)
Definition count_rx (s : State) : State :=
  mkState (error_cnt s) (rx_overflow_cnt s) (tx_cnt s) (u64 (rx_cnt s + 1))
          (rx_queue s) (rx_event s) (tx_event s) (pending_tx s)
          (last_hw_error_code s) (peak_tx_mailbox_index s) true (loopback s).

(** [had_activity = true; tx_cnt++;] *)
Definition count_tx (s : State) : State :=
  mkState (error_cnt s) (rx_overflow_cnt s) (u64 (tx_cnt s + 1)) (rx_cnt s)
          (rx_queue s) (rx_event s) (tx_event s) (pending_tx s)
          (last_hw_error_code s) (peak_tx_mailbox_index s) true (loopback s).

(** [last_hw_error_code = lec; error_cnt++;] *)
Definition record_error (lec : Z) (s : State) : State :=
  mkState (u64 (error_cnt s + 1)) (rx_overflow_cnt s) (tx_cnt s) (rx_cnt s)
          (rx_queue s) (rx_event s) (tx_event s) (pending_tx s)
          lec (peak_tx_mailbox_index s) (had_activity s) (loopback s).

(** [State::pushRxFromISR]. *)
Definition pushRxFromISR (rxf : RxFrame) (s : State) : State :=
  let s1 := set_rx_queue (RxQueue.push rxf (rx_queue s)) s in
  let s2 := set_rx_event (signalI (rx_event s1)) s1 in
  if negb (RxFrame_loopback rxf) && negb (RxFrame_failed rxf)
  then count_rx s2
  else s2.

(** ** Interrupt handlers *)

(** [handleTxMailboxInterrupt]. *)
Definition handleTxMailboxInterrupt
    (mailbox_index : nat) (txok : bool) (timestamp : Z) (s : State) : State :=
  let s1 := if txok then count_tx s else s in
  let txi := pending_tx s1 !!! mailbox_index in
  let s2 :=
    if loopback s1 && TxItem_pending txi
    then pushRxFromISR
           (mkRxFrame (TxItem_frame txi) timestamp true (negb txok)) s1
    else s1 in
  let s3 :=
    set_pending_tx
      (<[mailbox_index := mkTxItem (TxItem_frame txi) false]> (pending_tx s2)) s2 in
  set_tx_event (signalI (tx_event s3)) s3.

(** The driver state together with the peripheral. *)
Record World : Type := mkWorld {
  state_ : State;
  CAN : CAN_TypeDef
}.

(** The body of the loop "Marking TX mailboxes empty" for mailbox [i]. *)
Definition abort_mailbox (timestamp : Z) (s : State) (i : nat) : State :=
  let tx := pending_tx s !!! i in
  if TxItem_pending tx then
    let s1 :=
      set_pending_tx (<[i := mkTxItem (TxItem_frame tx) false]> (pending_tx s)) s in
    if loopback s1
    then pushRxFromISR (mkRxFrame (TxItem_frame tx) timestamp true true) s1
    else s1
  else s.

(** The last error code as [handleStatusChangeInterrupt] extracts it. *)
Definition lec_of (esr : Z) : Z := u8 (Z.shiftr (Z.land esr CAN_ESR_LEC) 4).

(** [handleStatusChangeInterrupt]. *)
Definition handleStatusChangeInterrupt (timestamp : Z) (w : World) : World :=
  let can1 := mkCAN CAN_MSR_ERRI (TSR (CAN w)) (ESR (CAN w)) (sTxMailBox (CAN w)) in
  let w2 :=
    if to_bool (Z.land (ESR can1) CAN_ESR_BOFF) then
      let can2 :=
        mkCAN (MSR can1)
              (Z.lor (Z.lor CAN_TSR_ABRQ0 CAN_TSR_ABRQ1) CAN_TSR_ABRQ2)
              (ESR can1) (sTxMailBox can1) in
      let s1 := set_tx_event (signalI (tx_event (state_ w))) (state_ w) in
      mkWorld (fold_left (abort_mailbox timestamp) (seq 0 NumTxMailboxes) s1) can2
    else mkWorld (state_ w) can1 in
  let lec := lec_of (ESR (CAN w2)) in
  let s3 := if negb (lec =? 0) then record_error lec (state_ w2) else state_ w2 in
  mkWorld s3 (mkCAN (MSR (CAN w2)) (TSR (CAN w2)) 0 (sTxMailBox (CAN w2))).

(** ** Transmit mailboxes: admission and loading *)

Definition TME : Z := Z.lor (Z.lor CAN_TSR_TME0 CAN_TSR_TME1) CAN_TSR_TME2.

(** The loop of [canAcceptNewTxFrame] over the mailboxes [mbxs], with its
    early [return false]. *)
Fixpoint scan_mailboxes (frame : Frame) (s : State) (mbxs : list nat) : bool :=
  match mbxs with
  | [] => true
  | mbx :: rest =>
      if TxItem_pending (pending_tx s !!! mbx) &&
         negb (priorityHigherThan frame (TxItem_frame (pending_tx s !!! mbx)))
      then false
      else scan_mailboxes frame s rest
  end.

(** [canAcceptNewTxFrame]. *)
Definition canAcceptNewTxFrame (frame : Frame) (w : World) : bool :=
  let tme := Z.land (TSR (CAN w)) TME in
  if tme =? TME then true
  else if tme =? 0 then false
  else scan_mailboxes frame (state_ w) (seq 0 NumTxMailboxes).

(** "Seeking for an empty slot": [None] is the branch [return 0]. *)
Definition find_free_mailbox (tsr : Z) : option Z :=
  if Z.land tsr CAN_TSR_TME0 =? CAN_TSR_TME0 then Some 0
  else if Z.land tsr CAN_TSR_TME1 =? CAN_TSR_TME1 then Some 1
  else if Z.land tsr CAN_TSR_TME2 =? CAN_TSR_TME2 then Some 2
  else None.

(** "Setting up the mailbox": the registers written for [frame]. *)
Definition mailbox_of_frame (frame : Frame) : CAN_TxMailBox :=
  let tir0 :=
    if isExtended frame
    then Z.lor (u32 (Z.shiftl (Z.land (Frame_id frame) MaskExtID) 3)) CAN_TI0R_IDE
    else u32 (Z.shiftl (Z.land (Frame_id frame) MaskStdID) 21) in
  let tir1 :=
    if isRemoteTransmissionRequest frame then Z.lor tir0 CAN_TI0R_RTR else tir0 in
  let d (k : nat) : Z := Frame_data frame !!! k in
  let tdhr :=
    Z.lor (Z.lor (Z.lor (u32 (Z.shiftl (d 7%nat) 24)) (u32 (Z.shiftl (d 6%nat) 16)))
                 (u32 (Z.shiftl (d 5%nat) 8)))
          (u32 (Z.shiftl (d 4%nat) 0)) in
  let tdlr :=
    Z.lor (Z.lor (Z.lor (u32 (Z.shiftl (d 3%nat) 24)) (u32 (Z.shiftl (d 2%nat) 16)))
                 (u32 (Z.shiftl (d 1%nat) 8)))
          (u32 (Z.shiftl (d 0%nat) 0)) in
  mkTxMailBox (Z.lor tir1 CAN_TI0R_TXRQ) (Frame_dlc frame) tdlr tdhr.

(** [loadTxMailbox]. *)
Definition loadTxMailbox (frame : Frame) (w : World) : retcode * World :=
  if isErrorFrame frame || (8 <? Frame_dlc frame) then (Neg ErrUnsupportedFrame, w)
  else
    match find_free_mailbox (TSR (CAN w)) with
    | None => (Ret 0, w)
    | Some txmailbox =>
        let s1 :=
          set_peak_tx_mailbox_index
            (Z.max (peak_tx_mailbox_index (state_ w)) txmailbox) (state_ w) in
        let can1 :=
          mkCAN (MSR (CAN w)) (TSR (CAN w)) (ESR (CAN w))
                (<[Z.to_nat txmailbox := mailbox_of_frame frame]> (sTxMailBox (CAN w))) in
        let s2 :=
          set_pending_tx
            (<[Z.to_nat txmailbox := mkTxItem frame true]> (pending_tx s1)) s1 in
        (Ret 1, mkWorld s2 can1)
    end.

(** The "transmit mailbox empty" bit of mailbox [i] in [TSR]. *)
Definition CAN_TSR_TME_bit (i : Z) : Z :=
  if i =? 0 then CAN_TSR_TME0 else if i =? 1 then CAN_TSR_TME1 else CAN_TSR_TME2.

(** Mailbox [i] is free according to the status word [tsr]. *)
Definition mailbox_free (tsr i : Z) : bool :=
  Z.land tsr (CAN_TSR_TME_bit i) =? CAN_TSR_TME_bit i.

(** A pending mailbox blocks [frame] when [frame] does not outrank the
    frame it holds. *)
Definition blocks (frame : Frame) (s : State) (mbx : nat) : bool :=
  TxItem_pending (pending_tx s !!! mbx) &&
  negb (priorityHigherThan frame (TxItem_frame (pending_tx s !!! mbx))).

(** The frames [handleStatusChangeInterrupt] reports for the mailboxes
    that were pending when the bus went off: failed loopback frames, in
    the order of the mailboxes. *)
Definition aborted_frames (timestamp : Z) (s : State) : list RxFrame :=
  if loopback s
  then map (fun tx => mkRxFrame (TxItem_frame tx) timestamp true true)
           (List.filter TxItem_pending (pending_tx s))
  else [].

(** ** Blocking calls: [send] and [receive]

    The operating system is a parameter: the tick conversion [MS2ST], the
    clock ([chVTGetSystemTimeX], [chVTTimeElapsedSinceX]) and the wait on
    an event, during which interrupts run and the clock advances.  The
    driver-wide mutex serialises the callers and does not appear: the
    model follows one call.  Each loop takes a bound on the number of
    iterations and yields [None] when the bound is reached before the
    call returns; it logs every wait it makes, as the world the wait
    was entered from and the number of ticks asked for. *)

Inductive EventId : Type := RxEvent | TxEvent.

Section Blocking.

Variable MS2ST : Z -> Z.
Variable chVTGetSystemTimeX : World -> Z.
Variable chVTTimeElapsedSinceX : Z -> World -> Z.
Variable waitForSysTicks : EventId -> Z -> World -> World.

Definition wait_log : Type := list (World * Z).

Fixpoint send_loop (fuel : nat) (frame : Frame) (started_at timeout_ms : Z)
    (w : World) (log : wait_log) : option (retcode * World * wait_log) :=
  match fuel with
  | O => None
  | S fuel' =>
      if canAcceptNewTxFrame frame w then
        let (r, w') := loadTxMailbox frame w in Some (r, w', log)
      else
        let elapsed := chVTTimeElapsedSinceX started_at w in
        if MS2ST timeout_ms <=? elapsed then Some (Ret 0, w, log)
        else
          let ticks := MS2ST timeout_ms - elapsed in
          send_loop fuel' frame started_at timeout_ms
                    (waitForSysTicks TxEvent ticks w) (log ++ [(w, ticks)])
  end.

(** [send]. *)
Definition send (fuel : nat) (frame : Frame) (timeout_ms : Z) (w : World)
  : option (retcode * World * wait_log) :=
  send_loop fuel frame (chVTGetSystemTimeX w) timeout_ms w [].

Fixpoint receive_loop (fuel : nat) (started_at timeout_ms : Z)
    (w : World) (log : wait_log)
  : option (retcode * option RxFrame * World * wait_log) :=
  match fuel with
  | O => None
  | S fuel' =>
      let q := rx_queue (state_ w) in
      if 0 <? RxQueue.getLength q then
        match RxQueue.pop q with
        | Some (f, q') =>
            Some (Ret 1, Some f, mkWorld (set_rx_queue q' (state_ w)) (CAN w), log)
        | None => Some (Ret 1, None, w, log)
        end
      else
        let elapsed := chVTTimeElapsedSinceX started_at w in
        if MS2ST timeout_ms <=? elapsed then Some (Ret 0, None, w, log)
        else
          let ticks := MS2ST timeout_ms - elapsed in
          receive_loop fuel' started_at timeout_ms
                       (waitForSysTicks RxEvent ticks w) (log ++ [(w, ticks)])
  end.

(** [receive]; the second component is [out_frame] when it was written. *)
Definition receive (fuel : nat) (timeout_ms : Z) (w : World)
  : option (retcode * option RxFrame * World * wait_log) :=
  receive_loop fuel (chVTGetSystemTimeX w) timeout_ms w [].

End Blocking.

(** A concrete tick conversion to run the loops on: [MS2ST] of ChibiOS,
    rounding up, at a tick frequency of 1 kHz. *)
Definition MS2ST_1kHz (msec : Z) : Z := (u32 (u32 msec * 1000) + 999) / 1000.

(** Every wait in a log asked for the requested timeout less the time
    elapsed since [started_at], read in the world the wait began in, and
    that time was still short of the timeout. *)
Definition budget_respected (MS2ST : Z -> Z)
    (chVTTimeElapsedSinceX : Z -> World -> Z)
    (started_at timeout_ms : Z) (log : wait_log) : Prop :=
  Forall (fun e : World * Z =>
            snd e = MS2ST timeout_ms - chVTTimeElapsedSinceX started_at (fst e) /\
            chVTTimeElapsedSinceX started_at (fst e) < MS2ST timeout_ms)
         log.

(** Worlds to run the driver on: every mailbox busy with a pending
    frame, loopback on; [ESR] with bus-off, error passive and error
    warning set, the error code 5 in bits 4 to 6, and the two error
    counters at 0xFF and 0x12 in the upper half. *)
Definition frame_of_id (i : Z) : Frame := mkFrame i (replicate 8 0) 0.

Definition busy_state : State :=
  set_pending_tx
    [mkTxItem (frame_of_id 0x100) true;
     mkTxItem (frame_of_id 0x200) true;
     mkTxItem (frame_of_id 0x300) true]
    (State_init true).

Definition idle_CAN : CAN_TypeDef :=
  mkCAN 0 TME 0 (replicate NumTxMailboxes (mkTxMailBox 0 0 0 0)).

Definition busoff_world : World :=
  mkWorld busy_state
          (mkCAN CAN_MSR_ERRI 0 0x12FF0057
                 (replicate NumTxMailboxes (mkTxMailBox 0 0 0 0))).

Definition idle_world : World := mkWorld (State_init false) idle_CAN.

(** Queues to run the ring buffer on: [wrapped_queue] is a constructed
    queue after eighteen pushes of frames numbered 0 to 17, full and
    with both indices at 2; [scrambled_queue] has every field out of
    range, as memory that was never initialised may. *)
Definition wrapped_queue : RxQueue.t :=
  RxQueue.push_all
    (map (fun i => mkRxFrame (frame_of_id i) i false false)
         (map Z.of_nat (seq 0 18)))
    RxQueue.init.

Definition scrambled_queue : RxQueue.t :=
  RxQueue.mk [] 200 77 255 0xFFFFFFFF.

(** ** Reception: [handleRxInterrupt]

    The receive side of the peripheral: the two FIFO status registers
    and the two FIFO output mailboxes. *)

Definition CAN_RFR_FMP_MASK : Z := 3.
Definition CAN_RF0R_FULL0 : Z := 0x8.
Definition CAN_RF0R_FOVR0 : Z := 0x10.
Definition CAN_RF0R_RFOM0 : Z := 0x20.
Definition CAN_RI0R_RTR : Z := 0x2.
Definition CAN_RI0R_IDE : Z := 0x4.

Record CAN_FIFOMailBox : Type := mkFIFOMailBox {
  RIR : Z;
  RDTR : Z;
  RDLR : Z;
  RDHR : Z
}.

#[global] Instance CAN_FIFOMailBox_inhabited : Inhabited CAN_FIFOMailBox :=
  populate (mkFIFOMailBox 0 0 0 0).

Record CAN_RxRegs : Type := mkRxRegs {
  RF0R : Z;
  RF1R : Z;
  sFIFOMailBox : list CAN_FIFOMailBox     (* two receive FIFOs *)
}.

(** The identifier word [handleRxInterrupt] builds from [RIR]. *)
Definition decode_id (rir : Z) : Z :=
  let id0 :=
    if Z.land rir CAN_RI0R_IDE =? 0
    then Z.land MaskStdID (Z.shiftr rir 21)
    else Z.lor (Z.land MaskExtID (Z.shiftr rir 3)) FlagEFF in
  if negb (Z.land rir CAN_RI0R_RTR =? 0) then Z.lor id0 FlagRTR else id0.

(** "Read the frame contents". *)
Definition decode_frame (rf : CAN_FIFOMailBox) : Frame :=
  mkFrame
    (decode_id (RIR rf))
    [u8 (Z.land 0xFF (Z.shiftr (RDLR rf) 0));
     u8 (Z.land 0xFF (Z.shiftr (RDLR rf) 8));
     u8 (Z.land 0xFF (Z.shiftr (RDLR rf) 16));
     u8 (Z.land 0xFF (Z.shiftr (RDLR rf) 24));
     u8 (Z.land 0xFF (Z.shiftr (RDHR rf) 0));
     u8 (Z.land 0xFF (Z.shiftr (RDHR rf) 8));
     u8 (Z.land 0xFF (Z.shiftr (RDHR rf) 16));
     u8 (Z.land 0xFF (Z.shiftr (RDHR rf) 24))]
    (u8 (Z.land (RDTR rf) 15)).

(** [rx_overflow_cnt++;] *)
Definition count_rx_overflow (s : State) : State :=
  mkState (error_cnt s) (u64 (rx_overflow_cnt s + 1)) (tx_cnt s) (rx_cnt s)
          (rx_queue s) (rx_event s) (tx_event s) (pending_tx s)
          (last_hw_error_code s) (peak_tx_mailbox_index s) (had_activity s)
          (loopback s).

(** The write [rfr_reg = ...] to the status register of FIFO
    [fifo_index]. *)
Definition write_rfr (fifo_index v : Z) (rx : CAN_RxRegs) : CAN_RxRegs :=
  if fifo_index =? 0
  then mkRxRegs v (RF1R rx) (sFIFOMailBox rx)
  else mkRxRegs (RF0R rx) v (sFIFOMailBox rx).

(** [handleRxInterrupt].  The early return on an empty FIFO (after
    [assert(0)]) leaves everything as it was.  A default-constructed
    [RxFrame] has neither the loopback nor the failed flag. *)
Definition handleRxInterrupt (fifo_index timestamp : Z)
    (s : State) (rx : CAN_RxRegs) : State * CAN_RxRegs :=
  let rfr_reg := if fifo_index =? 0 then RF0R rx else RF1R rx in
  if Z.land rfr_reg CAN_RFR_FMP_MASK =? 0 then (s, rx)
  else
    let s1 :=
      if negb (Z.land rfr_reg CAN_RF0R_FOVR0 =? 0) then count_rx_overflow s else s in
    let rf := sFIFOMailBox rx !!! Z.to_nat fifo_index in
    let rxf := mkRxFrame (decode_frame rf) timestamp false false in
    let rx1 :=
      write_rfr fifo_index
        (Z.lor (Z.lor CAN_RF0R_RFOM0 CAN_RF0R_FOVR0) CAN_RF0R_FULL0) rx in
    (pushRxFromISR rxf s1, rx1).

(** The receive mailbox that shows the words [loadTxMailbox] wrote for a
    frame: the identifier and data registers of both directions share
    their layout. *)
Definition looped_mailbox (mb : CAN_TxMailBox) : CAN_FIFOMailBox :=
  mkFIFOMailBox (TIR mb) (TDTR mb) (TDLR mb) (TDHR mb).

(** A frame as the bus can carry it: a 32-bit identifier word without
    the error flag and without bits beyond the format's width, a DLC of
    at most 15 and eight data bytes. *)
Definition bus_frame (f : Frame) : Prop :=
  (0 <= Frame_id f < 2 ^ 32) /\
  isErrorFrame f = false /\
  no_stray_bits f /\
  (0 <= Frame_dlc f <= 15) /\
  length (Frame_data f) = 8%nat /\
  Forall (fun b => 0 <= b < 256) (Frame_data f).

(** ** Start and stop

    The control, timing and filter registers of the peripheral, and what
    [start] and [stop] touch outside it: the two RCC registers, the
    interrupt vector and the flag behind [EXECUTE_ONCE_NON_THREAD_SAFE]. *)

Definition CAN_MCR_INRQ : Z := 0x1.
Definition CAN_MCR_SLEEP : Z := 0x2.
Definition CAN_MCR_AWUM : Z := 0x20.
Definition CAN_MCR_ABOM : Z := 0x40.
Definition CAN_MCR_RESET : Z := 0x8000.
Definition CAN_MSR_INAK : Z := 0x1.
Definition CAN_IER_TMEIE : Z := 0x1.
Definition CAN_IER_FMPIE0 : Z := 0x2.
Definition CAN_IER_FMPIE1 : Z := 0x10.
Definition CAN_IER_BOFIE : Z := 0x400.
Definition CAN_IER_LECIE : Z := 0x800.
Definition CAN_IER_ERRIE : Z := 0x8000.
Definition CAN_BTR_SILM : Z := 0x80000000.
Definition CAN_FMR_FINIT : Z := 0x1.
Definition RCC_APB1ENR_CANEN : Z := 0x2000000.
Definition RCC_APB1RSTR_CANRST : Z := 0x2000000.

(** [~x] on a 32-bit word. *)
Definition not32 (x : Z) : Z := u32 (Z.lnot x).

Record CAN_CtrlRegs : Type := mkCtrlRegs {
  MCR : Z;
  IER : Z;
  BTR : Z;
  FMR : Z;
  FFA1R : Z;
  FM1R : Z;
  FS1R : Z;
  FA1R : Z;
  FR1 : Z;      (* sFilterRegister[0].FR1 *)
  FR2 : Z       (* sFilterRegister[0].FR2 *)
}.

Record Platform : Type := mkPlatform {
  RCC_APB1ENR : Z;
  RCC_APB1RSTR : Z;
  irq_enabled : bool;      (* nvicEnableVector(CEC_CAN_IRQn, ...) was called *)
  irq_pending : bool;      (* a pending CEC_CAN interrupt request *)
  executed_once : bool     (* the EXECUTE_ONCE block has run *)
}.

(** The [INAK] bit of a status word. *)
Definition inak (msr : Z) : bool := negb (Z.land msr CAN_MSR_INAK =? 0).

(** The loop of [waitMSRINAKBitStateChange] with [remaining] polls
    left.  [MSR] changes under the driver's feet, so the register is a
    sequence: [reads k] is what the [k]-th read of [MSR] returns.  The
    result is the return value and the number of the next read; each
    poll that misses is followed by [usleep(1000)]. *)
Fixpoint poll_inak (remaining : nat) (target_state : bool)
    (reads : nat -> Z) (k : nat) : bool * nat :=
  match remaining with
  | O => (false, k)
  | S remaining' =>
      let state := negb (Z.land (reads k) CAN_MSR_INAK =? 0) in
      if eqb state target_state then (true, S k)
      else poll_inak remaining' target_state reads (S k)
  end.

(** [waitMSRINAKBitStateChange]. *)
Definition waitMSRINAKBitStateChange (target_state : bool)
    (reads : nat -> Z) (k : nat) : bool * nat :=
  poll_inak 1000 target_state reads k.

Section StartStop.

(** [STM32_PCLK1] comes from the board configuration; the option bits
    are declared in [can_bus.hpp]. *)
Variable pclk : Z.
Variable OptionLoopback : Z.
Variable OptionSilentMode : Z.

(** The word [start] writes to [BTR]. *)
Definition BTR_word (timings : Timings) (options : Z) : Z :=
  Z.lor
    (Z.lor
       (Z.lor
          (Z.lor (u32 (Z.shiftl (Z.land (sjw timings) 3) 24))
                 (u32 (Z.shiftl (Z.land (bs1 timings) 15) 16)))
          (u32 (Z.shiftl (Z.land (bs2 timings) 7) 20)))
       (Z.land (prescaler timings) 1023))
    (if negb (Z.land options OptionSilentMode =? 0) then CAN_BTR_SILM else 0).

(** The interrupts [start] enables. *)
Definition IER_word : Z :=
  Z.lor (Z.lor (Z.lor (Z.lor (Z.lor CAN_IER_TMEIE CAN_IER_FMPIE0) CAN_IER_FMPIE1)
                      CAN_IER_ERRIE)
               CAN_IER_LECIE)
        CAN_IER_BOFIE.

(** The block executed once: clock on, peripheral reset, vector on. *)
Definition enable_once (p : Platform) : Platform :=
  if executed_once p then p
  else
    mkPlatform (Z.lor (RCC_APB1ENR p) RCC_APB1ENR_CANEN)
               (Z.land (Z.lor (RCC_APB1RSTR p) RCC_APB1RSTR_CANRST)
                       (not32 RCC_APB1RSTR_CANRST))
               true (irq_pending p) true.

(** "We need to silence the controller in the first order". *)
Definition silence (r : CAN_CtrlRegs) : CAN_CtrlRegs :=
  mkCtrlRegs (Z.lor (Z.land (MCR r) (not32 CAN_MCR_SLEEP)) CAN_MCR_INRQ) 0
             (BTR r) (FMR r) (FFA1R r) (FM1R r) (FS1R r) (FA1R r) (FR1 r) (FR2 r).

(** "Hardware initialization", up to leaving the init mode. *)
Definition program (timings : Timings) (options : Z) (r : CAN_CtrlRegs)
  : CAN_CtrlRegs :=
  mkCtrlRegs
    (Z.land (Z.lor (Z.lor CAN_MCR_ABOM CAN_MCR_AWUM) CAN_MCR_INRQ)
            (not32 CAN_MCR_INRQ))
    IER_word (BTR_word timings options)
    (FMR r) (FFA1R r) (FM1R r) (FS1R r) (FA1R r) (FR1 r) (FR2 r).

(** "Default filter configuration". *)
Definition default_filters (r : CAN_CtrlRegs) : CAN_CtrlRegs :=
  let fmr1 := Z.lor (FMR r) CAN_FMR_FINIT in
  let fmr2 := Z.land fmr1 0xFFFFC0F1 in
  let fmr3 := Z.lor fmr2 (u32 (Z.shiftl 27 8)) in
  mkCtrlRegs (MCR r) (IER r) (BTR r)
             (Z.land fmr3 (not32 CAN_FMR_FINIT))
             0 0 0x1fff 1 0 0.

(** [start].  The result is the return value, the driver state (the old
    one until [start] constructs a new one), the registers and the
    platform. *)
Definition start (bitrate options : Z) (reads : nat -> Z)
    (s : State) (r : CAN_CtrlRegs) (p : Platform)
  : retcode * State * CAN_CtrlRegs * Platform :=
  let p1 := enable_once p in
  let r1 := silence r in
  let (inak_set, k1) := waitMSRINAKBitStateChange true reads 0 in
  if negb inak_set then (Neg ErrMsrInakNotSet, s, r1, p1)
  else
    let s1 := State_init (negb (Z.land options OptionLoopback =? 0)) in
    match computeTimings bitrate pclk with
    | inl e => (Neg e, s1, r1, p1)
    | inr timings =>
        let r2 := program timings options r1 in
        let (inak_cleared, k2) := waitMSRINAKBitStateChange false reads k1 in
        if negb inak_cleared then (Neg ErrMsrInakNotCleared, s1, r2, p1)
        else (Ret 0, s1, default_filters r2, p1)
    end.

(** [stop]. *)
Definition stop (r : CAN_CtrlRegs) (p : Platform) : CAN_CtrlRegs * Platform :=
  (mkCtrlRegs (Z.lor CAN_MCR_SLEEP CAN_MCR_RESET) 0
              (BTR r) (FMR r) (FFA1R r) (FM1R r) (FS1R r) (FA1R r) (FR1 r) (FR2 r),
   mkPlatform (RCC_APB1ENR p) (RCC_APB1RSTR p) (irq_enabled p) false
              (executed_once p)).

End StartStop.

(** An operating system whose clock is the number of signals the RX
    event has seen, and whose every wait ends with one more signal. *)
Definition signal_clock (started_at : Z) (w : World) : Z :=
  signals (rx_event (state_ w)) - started_at.

Definition wait_one_signal (ev : EventId) (ticks : Z) (w : World) : World :=
  mkWorld (set_rx_event (signalI (rx_event (state_ w))) (state_ w)) (CAN w).

(** A world with mailbox 0 busy and pending and the other two empty. *)
Definition mixed_world : World :=
  mkWorld (set_pending_tx
             [mkTxItem (frame_of_id 0x100) true;
              mkTxItem Frame_default false;
              mkTxItem Frame_default false]
             (State_init true))
          (mkCAN 0 (Z.lor CAN_TSR_TME1 CAN_TSR_TME2) 0
                 (replicate NumTxMailboxes (mkTxMailBox 0 0 0 0))).

(** Control registers after a reset of the peripheral, and a platform
    that has not run [start] yet. *)
Definition reset_regs : CAN_CtrlRegs := mkCtrlRegs 0x10002 0 0x1230000 0x2A1C0E01 0 0 0 0 0 0.
Definition cold_platform : Platform := mkPlatform 0 0 false false false.

(** [MSR] as a peripheral that follows the init request at once: the
    first read shows [INAK] set, the later ones show it cleared. *)
Definition prompt_msr (k : nat) : Z := match k with O => 0x1 | S _ => 0 end.

(** * Properties *)

(** ** Bit timings *)

Example computeTimings_1M :
  computeTimings 1000000 STM32_PCLK1 = inr (mkTimings 3 0 6 0).
Proof. vm_compute. reflexivity. Qed.

Example computeTimings_999999 :
  computeTimings 999999 STM32_PCLK1 = inl ErrLogic.
Proof. vm_compute. reflexivity. Qed.

(** The quanta budget matters: 23 quanta per bit (prescaler 1, bs1 = 16,
    bs2 = 6) would fit the registers, but lie beyond the budget, and the
    calculator reports no solution. *)
Example computeTimings_23_quanta :
  computeTimings 1000000 23000000 = inl ErrInvalidBitRate.
Proof. vm_compute. reflexivity. Qed.

(** The bitrate 0 is rejected before anything is computed. *)
Example computeTimings_zero (pclk : Z) :
  computeTimings 0 pclk = inl ErrInvalidBitRate.
Proof. reflexivity. Qed.

Lemma search_sum_finds (P : Z) (n : nat) :
  (exists q, 3 <= q <= 1 + Z.of_nat n /\ P mod q = 0) ->
  exists s,
    search_sum P n = Some s /\
    2 <= s <= Z.of_nat n /\
    P mod (1 + s) = 0 /\
    (forall q, 3 <= q <= 1 + Z.of_nat n -> P mod q = 0 -> q <= 1 + s).
Proof.
  induction n as [|n IH]; intros (q & Hq & Hdiv).
  - lia.
  - cbn [search_sum].
    destruct (Z.eqb_spec (P mod (1 + Z.of_nat (S n))) 0) as [E|E].
    + exists (Z.of_nat (S n)). repeat split; lia.
    + assert (q <> 1 + Z.of_nat (S n)) by (intros ->; contradiction).
      destruct (Z.leb_spec (Z.of_nat (S n)) 2) as [L|L]; [lia|].
      destruct IH as (s & Hs & Hr & Hd & Hmax).
      { exists q. split; [lia | assumption]. }
      exists s. repeat split; try assumption; try lia.
      intros q' Hq' Hd'.
      destruct (Z.eq_dec q' (1 + Z.of_nat (S n))) as [->|Hne]; [contradiction|].
      apply Hmax; [lia | assumption].
Qed.

Lemma search_sum_sound (P : Z) (n : nat) (s : Z) :
  (2 <= n)%nat ->
  search_sum P n = Some s ->
  2 <= s <= Z.of_nat n /\ P mod (1 + s) = 0.
Proof.
  induction n as [|n IH]; intros Hn; [lia|].
  cbn [search_sum].
  destruct (Z.eqb_spec (P mod (1 + Z.of_nat (S n))) 0) as [E|E].
  - intros [= <-]. split; [lia | assumption].
  - destruct (Z.leb_spec (Z.of_nat (S n)) 2) as [L|L]; [discriminate|].
    intros H. destruct IH as [Hr Hd]; [lia | assumption |].
    split; [lia | assumption].
Qed.

(** Every segment sum the search can deliver is split into a valid pair
    whose sample point is at most 90%. *)
Lemma choose_split_valid (s : Z) :
  2 <= s <= 16 ->
  isValid (choose_split s) = true /\
  bp_bs1 (choose_split s) + bp_bs2 (choose_split s) = s /\
  10 * (1 + bp_bs1 (choose_split s)) <= 9 * (1 + s).
Proof.
  intros Hs.
  assert (s = 2 \/ s = 3 \/ s = 4 \/ s = 5 \/ s = 6 \/ s = 7 \/ s = 8 \/ s = 9 \/
          s = 10 \/ s = 11 \/ s = 12 \/ s = 13 \/ s = 14 \/ s = 15 \/ s = 16)
    as Hcases by lia.
  repeat (destruct Hcases as [-> | Hcases]); try subst s;
    vm_compute; repeat split; congruence.
Qed.

Lemma u8_small (x : Z) : 0 <= x < 256 -> u8 x = x.
Proof. intros H. unfold u8. apply Z.mod_small. lia. Qed.

Lemma u16_small (x : Z) : 0 <= x < 65536 -> u16 x = x.
Proof. intros H. unfold u16. apply Z.mod_small. lia. Qed.

Lemma u32_small (x : Z) : 0 <= x < 4294967296 -> u32 x = x.
Proof. intros H. unfold u32. apply Z.mod_small. lia. Qed.

Lemma isValid_bounds (b : BsPair) :
  isValid b = true -> 1 <= bp_bs1 b <= 16 /\ 1 <= bp_bs2 b <= 8.
Proof.
  unfold isValid, MaxBS1, MaxBS2. rewrite !andb_true_iff, !Z.leb_le. lia.
Qed.

Lemma start_sum_value (target_bitrate : Z) :
  Z.of_nat (Z.to_nat (u8 (max_quanta_per_bit target_bitrate - 1)))
  = max_quanta_per_bit target_bitrate - 1 /\
  3 <= max_quanta_per_bit target_bitrate <= 17.
Proof.
  unfold max_quanta_per_bit. destruct (1000000 <=? target_bitrate);
    vm_compute; repeat split; congruence.
Qed.

(** What [computeTimings] does once the search and the prescaler check
    have passed: the outcome hangs on the final validation alone. *)
Lemma computeTimings_after_search (target_bitrate pclk s : Z) :
  1 <= target_bitrate ->
  search_sum (pclk / target_bitrate)
             (Z.to_nat (u8 (max_quanta_per_bit target_bitrate - 1))) = Some s ->
  1 <= pclk / target_bitrate / (1 + s) <= 1024 ->
  computeTimings target_bitrate pclk =
    if final_validation_fails target_bitrate pclk
         (pclk / target_bitrate / (1 + s)) (choose_split s)
    then inl ErrLogic
    else inr {| prescaler := u16 (pclk / target_bitrate / (1 + s) - 1);
                sjw := 0;
                bs1 := u8 (bp_bs1 (choose_split s) - 1);
                bs2 := u8 (bp_bs2 (choose_split s) - 1) |}.
Proof.
  intros Hb Hs Hp. unfold computeTimings.
  destruct (Z.ltb_spec target_bitrate 1) as [?|_]; [lia|].
  cbv zeta. rewrite Hs.
  destruct (Z.ltb_spec (pclk / target_bitrate / (1 + s)) 1) as [?|_]; [lia|].
  destruct (Z.ltb_spec 1024 (pclk / target_bitrate / (1 + s))) as [?|_]; [lia|].
  reflexivity.
Qed.

(** With the assertions compiled out: whenever the peripheral clock is
    the target bitrate times a prescaler in 1..1024 times a number of
    quanta per bit within the budget, [computeTimings] succeeds and the
    stored fields, read as one-based values, reconstruct the bitrate
    with no remainder, within the segment ranges and with the sample
    point at most 9/10. *)
Lemma computeTimings_exact_division (target_bitrate pclk : Z) :
  admits_exact_solution target_bitrate pclk ->
  exists t : Timings,
    computeTimings target_bitrate pclk = inr t /\
    sjw t = 0 /\
    1 <= prescaler t + 1 <= 1024 /\
    pclk / ((prescaler t + 1) * (1 + (bs1 t + 1) + (bs2 t + 1))) = target_bitrate /\
    pclk = target_bitrate * ((prescaler t + 1) * (1 + (bs1 t + 1) + (bs2 t + 1))) /\
    1 <= bs1 t + 1 <= 16 /\
    1 <= bs2 t + 1 <= 8 /\
    10 * (1 + (bs1 t + 1)) <= 9 * (1 + (bs1 t + 1) + (bs2 t + 1)).
Proof.
  intros (Hb & p & q & Hp & Hq & Hclk).
  destruct (start_sum_value target_bitrate) as [Hstart Hmax].
  assert (HP : pclk / target_bitrate = p * q).
  { subst pclk. replace (target_bitrate * p * q) with (p * q * target_bitrate) by lia.
    apply Z.div_mul. lia. }
  destruct (search_sum_finds (pclk / target_bitrate)
              (Z.to_nat (u8 (max_quanta_per_bit target_bitrate - 1))))
    as (s & Hs & Hr & Hd & Hlargest).
  { exists q. rewrite Hstart, HP. split; [lia|]. apply Z.mod_mul. lia. }
  rewrite Hstart in Hr.
  assert (Hq' : q <= 1 + s).
  { apply Hlargest; [rewrite Hstart; lia|]. rewrite HP. apply Z.mod_mul. lia. }
  set (pv := pclk / target_bitrate / (1 + s)).
  assert (Hpv : pclk / target_bitrate = (1 + s) * pv).
  { unfold pv. apply Z.div_exact; [lia | exact Hd]. }
  assert (Hpv_range : 1 <= pv <= 1024) by nia.
  destruct (choose_split_valid s) as (Hvalid & Hsum & Hsample); [lia|].
  destruct (isValid_bounds _ Hvalid) as [Hb1 Hb2].
  rewrite (computeTimings_after_search _ _ s Hb Hs) by (fold pv; lia).
  fold pv.
  assert (Hmul : pv * (1 + bp_bs1 (choose_split s) + bp_bs2 (choose_split s))
                 = p * q) by (rewrite <- HP, Hpv; nia).
  assert (Hrec : pclk / (p * q) = target_bitrate).
  { subst pclk. replace (target_bitrate * p * q) with (target_bitrate * (p * q)) by lia.
    apply Z.div_mul. nia. }
  unfold final_validation_fails.
  rewrite Hmul, (u32_small (p * q)) by nia.
  rewrite Hrec, Z.eqb_refl, Hvalid. cbn [negb orb].
  eexists. split; [reflexivity|]. cbn [prescaler sjw bs1 bs2].
  rewrite (u16_small (pv - 1)), (u8_small (bp_bs1 _ - 1)), (u8_small (bp_bs2 _ - 1)) by lia.
  replace (pv - 1 + 1) with pv by lia.
  replace (bp_bs1 (choose_split s) - 1 + 1) with (bp_bs1 (choose_split s)) by lia.
  replace (bp_bs2 (choose_split s) - 1 + 1) with (bp_bs2 (choose_split s)) by lia.
  rewrite Hmul, Hrec.
  repeat split; try lia.
Qed.

(** The segment split is valid for every sum the search returns, on
    every input: of the two conditions of the final validation only the
    reconstruction of the bitrate can fail. *)
Lemma split_after_search_valid (target_bitrate pclk s : Z) :
  search_sum (pclk / target_bitrate)
             (Z.to_nat (u8 (max_quanta_per_bit target_bitrate - 1))) = Some s ->
  isValid (choose_split s) = true.
Proof.
  intros Hs. destruct (start_sum_value target_bitrate) as [Hstart Hmax].
  apply search_sum_sound in Hs; [|lia].
  apply choose_split_valid. lia.
Qed.

(** X1.  When the bitrate divides the clock, the final validation passes:
    [computeTimings] does not return [-ErrLogic]. *)
Lemma computeTimings_no_ErrLogic_when_divisible (target_bitrate pclk k : Z) :
  0 <= pclk ->
  pclk = target_bitrate * k ->
  computeTimings target_bitrate pclk <> inl ErrLogic.
Proof.
  intros Hclk Hk. unfold computeTimings.
  destruct (Z.ltb_spec target_bitrate 1) as [?|Hb]; [discriminate|].
  cbv zeta.
  destruct (search_sum _ _) as [s|] eqn:Hs; [|discriminate].
  pose proof (split_after_search_valid _ _ _ Hs) as Hvalid.
  destruct (start_sum_value target_bitrate) as [Hstart Hmax].
  apply search_sum_sound in Hs; [|lia]. destruct Hs as [Hr Hd].
  assert (HP : pclk / target_bitrate = k).
  { subst pclk. rewrite Z.mul_comm. apply Z.div_mul. lia. }
  rewrite HP in *.
  set (pv := k / (1 + s)).
  assert (Hpv : k = (1 + s) * pv) by (apply Z.div_exact; [lia | exact Hd]).
  destruct (Z.ltb_spec pv 1) as [?|H1]; [discriminate|].
  destruct (Z.ltb_spec 1024 pv) as [?|H2]; [discriminate|].
  cbn [orb].
  destruct (choose_split_valid s) as (_ & Hsum & _); [lia|].
  unfold final_validation_fails.
  replace (pv * (1 + bp_bs1 (choose_split s) + bp_bs2 (choose_split s)))
    with k by (rewrite Hpv at 1; nia).
  rewrite (u32_small k) by nia.
  replace (pclk / k) with target_bitrate.
  2:{ subst pclk. symmetry. apply Z.div_mul. nia. }
  rewrite Z.eqb_refl, Hvalid. discriminate.
Qed.

(** C2.  At a target bitrate of 999999 bit/s and a peripheral clock of
    36 MHz steps 1 to 6 complete: the quotient 36 has the divisor 12, the
    segment sum is 11, the prescaler 3 lies in 1..1024 and the split
    bs1 = 9, bs2 = 2 is valid; the bitrate reconstructed from them is
    1000000, not the target, so [computeTimings] takes the branch of the
    final validation and returns [-ErrLogic]. *)
Theorem computeTimings_final_validation_reached :
  search_sum (36000000 / 999999)
             (Z.to_nat (u8 (max_quanta_per_bit 999999 - 1))) = Some 11 /\
  36000000 / 999999 / (1 + 11) = 3 /\
  bp_bs1 (choose_split 11) = 9 /\
  bp_bs2 (choose_split 11) = 2 /\
  isValid (choose_split 11) = true /\
  36000000 / (3 * (1 + 9 + 2)) = 1000000 /\
  final_validation_fails 999999 36000000 3 (choose_split 11) = true /\
  computeTimings 999999 36000000 = inl ErrLogic.
Proof. vm_compute. repeat split; reflexivity. Qed.

(** ** Frame arbitration *)

Lemma shiftr18_mono (x y : Z) : x <= y -> Z.shiftr x 18 <= Z.shiftr y 18.
Proof.
  intros H. rewrite !Z.shiftr_div_pow2 by lia. apply Z.div_le_mono; lia.
Qed.

Lemma priorityHigherThan_unfold (a b : Frame) :
  priorityHigherThan a b =
    if negb (eqb (isExtended a) (isExtended b)) then
      if negb ((if isExtended a then Z.shiftr (clean_id a) 18 else clean_id a) =?
               (if isExtended b then Z.shiftr (clean_id b) 18 else clean_id b))
      then (if isExtended a then Z.shiftr (clean_id a) 18 else clean_id a) <?
           (if isExtended b then Z.shiftr (clean_id b) 18 else clean_id b)
      else isExtended b
    else
      if (clean_id a =? clean_id b) &&
         negb (eqb (isRemoteTransmissionRequest a) (isRemoteTransmissionRequest b))
      then isRemoteTransmissionRequest b
      else clean_id a <? clean_id b.
Proof. reflexivity. Qed.

Ltac order_cases :=
  repeat match goal with
         | |- context [Z.eqb ?x ?y] => destruct (Z.eqb_spec x y)
         | |- context [Z.ltb ?x ?y] => destruct (Z.ltb_spec x y)
         | H : context [Z.eqb ?x ?y] |- _ => destruct (Z.eqb_spec x y)
         | H : context [Z.ltb ?x ?y] |- _ => destruct (Z.ltb_spec x y)
         end;
  cbn in *; try congruence; try lia.

Lemma priorityHigherThan_irrefl (a : Frame) : priorityHigherThan a a = false.
Proof.
  rewrite priorityHigherThan_unfold.
  destruct (isExtended a), (isRemoteTransmissionRequest a); cbn; order_cases.
Qed.

Lemma priorityHigherThan_asym (a b : Frame) :
  priorityHigherThan a b = true -> priorityHigherThan b a = false.
Proof.
  rewrite !priorityHigherThan_unfold.
  destruct (isExtended a), (isExtended b),
    (isRemoteTransmissionRequest a), (isRemoteTransmissionRequest b);
    cbn; intros Hab; order_cases.
Qed.

Lemma priorityHigherThan_trans (a b c : Frame) :
  priorityHigherThan a b = true ->
  priorityHigherThan b c = true ->
  priorityHigherThan a c = true.
Proof.
  rewrite !priorityHigherThan_unfold.
  pose proof (shiftr18_mono (clean_id a) (clean_id b)).
  pose proof (shiftr18_mono (clean_id b) (clean_id a)).
  pose proof (shiftr18_mono (clean_id b) (clean_id c)).
  pose proof (shiftr18_mono (clean_id c) (clean_id b)).
  pose proof (shiftr18_mono (clean_id a) (clean_id c)).
  pose proof (shiftr18_mono (clean_id c) (clean_id a)).
  destruct (isExtended a), (isExtended b), (isExtended c),
    (isRemoteTransmissionRequest a), (isRemoteTransmissionRequest b),
    (isRemoteTransmissionRequest c);
    cbn; intros Hab Hbc; order_cases.
Qed.

Lemma format_masked_id_of_clean (a b : Frame) :
  isExtended a = isExtended b ->
  clean_id a = clean_id b ->
  format_masked_id a = format_masked_id b.
Proof.
  intros He Hc. unfold format_masked_id. rewrite <- He.
  destruct (isExtended a); [exact Hc|].
  assert (Hm : forall x, Z.land x MaskStdID = Z.land (Z.land x MaskExtID) MaskStdID).
  { intros x. rewrite <- Z.land_assoc. reflexivity. }
  rewrite (Hm (Frame_id a)), (Hm (Frame_id b)).
  unfold clean_id in Hc. rewrite Hc. reflexivity.
Qed.

(** Two frames neither of which outranks the other agree on everything
    the comparison reads. *)
Lemma priorityHigherThan_tie (a b : Frame) :
  priorityHigherThan a b = false ->
  priorityHigherThan b a = false ->
  isExtended a = isExtended b /\
  clean_id a = clean_id b /\
  isRemoteTransmissionRequest a = isRemoteTransmissionRequest b.
Proof.
  rewrite !priorityHigherThan_unfold.
  destruct (isExtended a), (isExtended b),
    (isRemoteTransmissionRequest a), (isRemoteTransmissionRequest b);
    cbn; intros Hab Hba; order_cases; repeat split; lia.
Qed.

(** X2.  Frames that differ in format, format-masked identifier or RTR flag
    are never tied: one of the two outranks the other. *)
Lemma priorityHigherThan_total (a b : Frame) :
  arbitration_fields a <> arbitration_fields b ->
  priorityHigherThan a b = true \/ priorityHigherThan b a = true.
Proof.
  intros Hne.
  destruct (priorityHigherThan a b) eqn:Hab; [left; reflexivity|].
  destruct (priorityHigherThan b a) eqn:Hba; [right; reflexivity|].
  exfalso. apply Hne.
  destruct (priorityHigherThan_tie a b Hab Hba) as (He & Hc & Hr).
  unfold arbitration_fields.
  rewrite (format_masked_id_of_clean a b He Hc), He, Hr. reflexivity.
Qed.

(** Between frames of the same format whose identifiers masked to 29
    bits are equal, the data frame outranks the remote request in both
    argument orders. *)
Lemma priorityHigherThan_data_over_rtr (a b : Frame) :
  isExtended a = isExtended b ->
  clean_id a = clean_id b ->
  isRemoteTransmissionRequest a = false ->
  isRemoteTransmissionRequest b = true ->
  priorityHigherThan a b = true /\ priorityHigherThan b a = false.
Proof.
  intros He Hc Ha Hb. rewrite !priorityHigherThan_unfold, He, Hc, Ha, Hb.
  destruct (isExtended b); cbn; rewrite !Z.eqb_refl; split; reflexivity.
Qed.

(** Between frames of different formats with no stray identifier bits,
    the lower top 11 bits win and the standard frame wins a tie. *)
Lemma priorityHigherThan_mixed_formats (a b : Frame) :
  isExtended a <> isExtended b ->
  no_stray_bits a -> no_stray_bits b ->
  priorityHigherThan a b =
    (top11 a <? top11 b) || ((top11 a =? top11 b) && isExtended b).
Proof.
  unfold no_stray_bits, top11, format_masked_id.
  rewrite priorityHigherThan_unfold. fold (clean_id a) (clean_id b).
  destruct (isExtended a), (isExtended b); intros Hne Ha Hb;
    try congruence; cbn; rewrite <- ?Ha, <- ?Hb; order_cases.
Qed.

(** C3.  A standard data frame whose identifier word is 0x805 (11-bit
    identifier 5, bit 11 set) against the standard remote request with
    identifier 5: same format, same format-masked identifier, and the
    remote request outranks the data frame.  The same data frame against
    the extended frame whose top 11 bits are 6: the extended frame wins
    although 5 is below 6.  [loadTxMailbox] sends the data frame with the
    identifier 5. *)
Theorem priorityHigherThan_stray_bits :
  let a := mkFrame 0x805 (replicate 8 0) 0 in
  let b := mkFrame (Z.lor FlagRTR 0x005) (replicate 8 0) 0 in
  let e := mkFrame (Z.lor FlagEFF (Z.shiftl 6 18)) (replicate 8 0) 0 in
  isExtended a = false /\ isExtended b = false /\
  format_masked_id a = 5 /\ format_masked_id b = 5 /\
  isRemoteTransmissionRequest a = false /\
  isRemoteTransmissionRequest b = true /\
  priorityHigherThan a b = false /\
  priorityHigherThan b a = true /\
  isExtended e = true /\ top11 a = 5 /\ top11 e = 6 /\
  priorityHigherThan a e = false /\
  priorityHigherThan e a = true /\
  TIR (mailbox_of_frame a) = Z.lor (Z.shiftl 5 21) CAN_TI0R_TXRQ.
Proof. vm_compute. repeat split; reflexivity. Qed.

(** ** The receive ring buffer *)

Ltac zlia := Z.div_mod_to_equations; lia.

Section RingBufferFacts.

Import RxQueue.

Lemma next_index_spec (i : Z) :
  0 <= i < Capacity -> next_index i = (i + 1) mod Capacity.
Proof.
  unfold next_index, Capacity. intros H.
  rewrite (u8_small (i + 1)) by lia.
  destruct (Z.leb_spec 16 (i + 1)); zlia.
Qed.

Lemma push_fields (f : RxFrame) (q : t) :
  ring_inv q ->
  buf_ (push f q) = <[Z.to_nat (in_ q) := f]> (buf_ q) /\
  in_ (push f q) = (in_ q + 1) mod Capacity /\
  (len_ q < Capacity ->
     len_ (push f q) = len_ q + 1 /\ out_ (push f q) = out_ q /\
     overflow_cnt_ (push f q) = overflow_cnt_ q) /\
  (len_ q = Capacity ->
     len_ (push f q) = Capacity /\ out_ (push f q) = (out_ q + 1) mod Capacity /\
     overflow_cnt_ (push f q) =
       if overflow_cnt_ q <? 0xFFFFFFFF then u32 (overflow_cnt_ q + 1)
       else overflow_cnt_ q).
Proof.
  intros (Hlen & Hin & Hout & Hrel).
  unfold push, registerOverflow.
  rewrite (u8_small (len_ q + 1)) by (unfold Capacity in *; lia).
  rewrite <- !next_index_spec by assumption.
  destruct (Z.ltb_spec Capacity (len_ q + 1)) as [Hfull|Hroom].
  - cbn. destruct (overflow_cnt_ q <? 4294967295); cbn;
      repeat split; intros; try reflexivity; try lia.
  - cbn. repeat split; intros; try reflexivity; try lia.
Qed.

Lemma push_ring_inv (f : RxFrame) (q : t) : ring_inv q -> ring_inv (push f q).
Proof.
  intros Hq. destruct (push_fields f q Hq) as (_ & Hin & Hroom & Hfull).
  destruct Hq as (Hlen & Hi & Ho & Hrel). unfold ring_inv. rewrite Hin.
  unfold Capacity in *.
  destruct (Z.eq_dec (len_ q) 16) as [E|E].
  - destruct (Hfull E) as (-> & -> & _). zlia.
  - destruct Hroom as (-> & -> & _); [lia|]. zlia.
Qed.

Lemma pop_fields (q : t) :
  ring_inv q -> 0 < len_ q ->
  pop q = Some (buf_ q !!! Z.to_nat (out_ q),
                mk (buf_ q) (in_ q) ((out_ q + 1) mod Capacity) (len_ q - 1)
                   (overflow_cnt_ q)).
Proof.
  intros (Hlen & Hi & Ho & Hrel) Hpos. unfold pop.
  destruct (Z.ltb_spec 0 (len_ q)); [|lia].
  rewrite next_index_spec by assumption.
  rewrite (u8_small (len_ q - 1)) by (unfold Capacity in *; lia).
  reflexivity.
Qed.

Lemma pop_empty (q : t) : len_ q <= 0 -> pop q = None.
Proof. intros H. unfold pop. destruct (Z.ltb_spec 0 (len_ q)); [lia | reflexivity]. Qed.

Lemma pop_ring_inv (q q' : t) (f : RxFrame) :
  ring_inv q -> pop q = Some (f, q') -> ring_inv q'.
Proof.
  intros Hq Hpop.
  destruct (Z.ltb_spec 0 (len_ q)) as [Hpos|Hz].
  - rewrite (pop_fields q Hq Hpos) in Hpop. injection Hpop as _ <-.
    destruct Hq as (Hlen & Hi & Ho & Hrel). unfold ring_inv, Capacity in *.
    cbn. zlia.
  - rewrite pop_empty in Hpop by assumption. discriminate.
Qed.

Lemma contents_length (q : t) : length (contents q) = Z.to_nat (len_ q).
Proof. unfold contents. rewrite length_map, length_seq. reflexivity. Qed.

Lemma contents_pop (q : t) :
  ring_inv q -> 0 < len_ q ->
  exists q', pop q = Some (buf_ q !!! Z.to_nat (out_ q), q') /\
             contents q = buf_ q !!! Z.to_nat (out_ q) :: contents q'.
Proof.
  intros Hq Hpos. eexists. split; [apply pop_fields; assumption|].
  destruct Hq as (Hlen & Hi & Ho & Hrel). unfold contents, Capacity in *. cbn.
  replace (Z.to_nat (len_ q)) with (S (Z.to_nat (len_ q - 1))) by lia.
  cbn [seq map]. f_equal.
  - f_equal. f_equal. zlia.
  - rewrite <- seq_shift, map_map. apply map_ext. intros k.
    f_equal. f_equal. zlia.
Qed.

Lemma contents_push_room (f : RxFrame) (q : t) :
  ring_inv q -> length (buf_ q) = 16%nat -> len_ q < Capacity ->
  contents (push f q) = contents q ++ [f].
Proof.
  intros Hq Hbuf Hroom.
  destruct (push_fields f q Hq) as (Hb & _ & Hf & _).
  destruct (Hf Hroom) as (Hl & Ho & _). clear Hf.
  destruct Hq as (Hlen & Hi & Hout & Hrel).
  unfold contents. rewrite Hb, Hl, Ho. unfold Capacity in *.
  replace (Z.to_nat (len_ q + 1)) with (S (Z.to_nat (len_ q))) by lia.
  rewrite seq_S, map_app. cbn [map]. f_equal.
  - apply map_ext_in. intros k Hk. apply in_seq in Hk.
    apply list_lookup_total_insert_ne. zlia.
  - f_equal.
    replace (Z.to_nat ((out_ q + Z.of_nat (0 + Z.to_nat (len_ q))) mod 16))
      with (Z.to_nat (in_ q)) by (rewrite Hrel; f_equal; f_equal; lia).
    apply list_lookup_total_insert_eq. lia.
Qed.

Lemma drop1_map_seq {A : Type} (g : nat -> A) (n : nat) :
  drop 1 (map g (seq 0 (S n))) = map (fun k => g (S k)) (seq 0 n).
Proof. cbn [seq map skipn]. rewrite <- seq_shift, map_map. reflexivity. Qed.

Lemma contents_push_full (f : RxFrame) (q : t) :
  ring_inv q -> length (buf_ q) = 16%nat -> len_ q = Capacity ->
  contents (push f q) = drop 1 (contents q) ++ [f].
Proof.
  intros Hq Hbuf Hfull.
  destruct (push_fields f q Hq) as (Hb & _ & _ & Hf).
  destruct (Hf Hfull) as (Hl & Ho & _). clear Hf.
  destruct Hq as (Hlen & Hi & Hout & Hrel).
  unfold contents. rewrite Hb, Hl, Ho, Hfull. unfold Capacity in *.
  change (Z.to_nat 16) with (S 15).
  rewrite drop1_map_seq, seq_S, map_app. cbn [map]. f_equal.
  - apply map_ext_in. intros k Hk.
    apply in_seq in Hk.
    replace (Z.to_nat (((out_ q + 1) mod 16 + Z.of_nat k) mod 16))
      with (Z.to_nat ((out_ q + Z.of_nat (S k)) mod 16)) by (f_equal; zlia).
    apply list_lookup_total_insert_ne. zlia.
  - f_equal.
    replace (Z.to_nat (((out_ q + 1) mod 16 + Z.of_nat (0 + 15)) mod 16))
      with (Z.to_nat (in_ q)) by (f_equal; zlia).
    apply list_lookup_total_insert_eq. lia.
Qed.

Lemma pop_many_contents (n : nat) (q : t) :
  ring_inv q -> (Z.to_nat (len_ q) <= n)%nat ->
  fst (pop_many n q) = contents q /\
  len_ (snd (pop_many n q)) = 0 /\
  ring_inv (snd (pop_many n q)).
Proof.
  revert q. induction n as [|n IH]; intros q Hq Hn.
  - cbn. unfold contents. destruct Hq as (Hlen & ?).
    replace (Z.to_nat (len_ q)) with 0%nat by lia.
    repeat split; try lia; tauto.
  - destruct (Z.ltb_spec 0 (len_ q)) as [Hpos|Hz].
    + destruct (contents_pop q Hq Hpos) as (q' & Hpop & Hc).
      pose proof (pop_ring_inv _ _ _ Hq Hpop) as Hq'.
      assert (Hl : len_ q' = len_ q - 1).
      { rewrite (pop_fields q Hq Hpos) in Hpop. injection Hpop as <-. reflexivity. }
      cbn [pop_many]. rewrite Hpop.
      destruct (IH q' Hq') as (Hf & Hz & Hr); [lia|].
      destruct (pop_many n q') as [fs q'']. cbn [fst snd] in *.
      rewrite Hc, Hf. auto.
    + cbn [pop_many]. rewrite pop_empty by assumption. cbn [fst snd].
      unfold contents. destruct Hq as (Hlen & ?).
      replace (Z.to_nat (len_ q)) with 0%nat by lia.
      repeat split; try lia; tauto.
Qed.

Lemma push_wf (f : RxFrame) (q : t) : wf q -> wf (push f q).
Proof.
  intros (Hq & Hbuf & Hcnt).
  destruct (push_fields f q Hq) as (Hb & _ & Hroom & Hfull).
  split; [apply push_ring_inv; assumption|]. split.
  - rewrite Hb, length_insert. assumption.
  - destruct Hq as (Hlen & _). unfold Capacity in *.
    destruct (Z.eq_dec (len_ q) 16) as [E|E].
    + destruct (Hfull E) as (_ & _ & ->).
      destruct (Z.ltb_spec (overflow_cnt_ q) 4294967295); [|lia].
      rewrite u32_small; lia.
    + destruct Hroom as (_ & _ & ->); lia.
Qed.

Lemma push_all_spec (fs : list RxFrame) (q : t) :
  wf q ->
  wf (push_all fs q) /\
  contents (push_all fs q) =
    drop (length (contents q ++ fs) - 16) (contents q ++ fs) /\
  len_ (push_all fs q) = Z.min 16 (len_ q + Z.of_nat (length fs)) /\
  overflow_cnt_ (push_all fs q) =
    Z.min 0xFFFFFFFF
          (overflow_cnt_ q + Z.max 0 (len_ q + Z.of_nat (length fs) - 16)).
Proof.
  revert q. induction fs as [|f fs IH]; intros q Hwf.
  - pose proof Hwf as ((Hlen & _) & _ & Hcnt). unfold Capacity in *.
    cbn [push_all fold_left]. split; [assumption|].
    rewrite app_nil_r, contents_length.
    replace (Z.to_nat (len_ q) - 16)%nat with 0%nat by lia.
    cbn [length]. repeat split; try reflexivity; lia.
  - pose proof (push_wf f q Hwf) as Hpushed.
    destruct (IH (push f q) Hpushed) as (Hw & Hc & Hl & Ho).
    change (push_all (f :: fs) q) with (push_all fs (push f q)).
    split; [assumption|].
    destruct Hwf as (Hq & Hbuf & Hcnt).
    destruct (push_fields f q Hq) as (_ & _ & Hroom & Hfull).
    pose proof Hq as (Hlen & _). unfold Capacity in *.
    rewrite Hc, Hl, Ho. cbn [length].
    destruct (Z.eq_dec (len_ q) 16) as [E|E].
    + destruct (Hfull E) as (-> & _ & ->).
      rewrite (contents_push_full f q Hq Hbuf E).
      pose proof (contents_length q) as Hcl. rewrite E in Hcl.
      destruct (contents q) as [|x c']; [discriminate|].
      change (drop 1 (x :: c')) with c'. rewrite <- !app_assoc. cbn [app].
      split; [|split].
      * cbn [length] in *. rewrite !length_app. cbn [length].
        replace (length c' + S (length fs) - 16)%nat with (length fs) by lia.
        replace (S (length c' + S (length fs)) - 16)%nat with (S (length fs)) by lia.
        reflexivity.
      * lia.
      * destruct (Z.ltb_spec (overflow_cnt_ q) 4294967295).
        -- rewrite u32_small by lia. lia.
        -- lia.
    + destruct Hroom as (-> & _ & ->); [lia|].
      rewrite (contents_push_room f q Hq Hbuf) by (unfold Capacity; lia).
      rewrite <- !app_assoc. cbn [app].
      repeat split; lia.
Qed.

Lemma reset_wf (q0 : t) : length (buf_ q0) = 16%nat -> wf (reset q0).
Proof.
  intros H. unfold wf, ring_inv, reset, Capacity. cbn.
  repeat split; try lia; assumption.
Qed.

Lemma contents_reset (q0 : t) : contents (reset q0) = [].
Proof. reflexivity. Qed.

Lemma push_newest (f : RxFrame) (q : t) : wf q -> last (contents (push f q)) = Some f.
Proof.
  intros (Hq & Hbuf & _). pose proof Hq as (Hlen & _). unfold Capacity in *.
  destruct (Z.eq_dec (len_ q) 16) as [E|E].
  - rewrite (contents_push_full f q Hq Hbuf E). apply last_snoc.
  - rewrite (contents_push_room f q Hq Hbuf) by (unfold Capacity; lia).
    apply last_snoc.
Qed.

(** C9.  The ring invariant (length at most 16, both indices below 16,
    write index = (read index + length) mod 16) holds for a freshly
    constructed queue and after [reset] of any queue whatever, both
    empty; [push] and [pop] preserve it; on a queue with the invariant
    [pop] finds the queue empty exactly when [getLength] is 0, and
    successive pops deliver exactly [getLength] frames before one finds
    the queue empty. *)
Theorem RxQueue_ring_invariant (q0 q : t) (f : RxFrame) :
  (ring_inv init /\ getLength init = 0 /\ pop init = None) /\
  (ring_inv (reset q0) /\ getLength (reset q0) = 0 /\ pop (reset q0) = None) /\
  (ring_inv q ->
   ring_inv (push f q) /\
   (forall f' q', pop q = Some (f', q') -> ring_inv q') /\
   (pop q = None <-> getLength q = 0) /\
   (forall n : nat,
       (Z.to_nat (getLength q) <= n)%nat ->
       Z.of_nat (length (fst (pop_many n q))) = getLength q /\
       pop (snd (pop_many n q)) = None)).
Proof.
  split; [|split].
  { unfold ring_inv, init, Capacity. cbn. repeat split; try lia. }
  { unfold ring_inv, reset, Capacity. cbn. repeat split; try lia. }
  intros Hq.
  split; [|split; [|split]].
  - apply push_ring_inv. assumption.
  - intros f' q' Hpop. apply (pop_ring_inv q q' f' Hq Hpop).
  - unfold getLength. pose proof Hq as (Hlen & _). split.
    + intros Hnone. destruct (Z.ltb_spec 0 (len_ q)) as [Hpos|]; [|lia].
      rewrite (pop_fields q Hq Hpos) in Hnone. discriminate.
    + intros Hz. apply pop_empty. lia.
  - intros n Hn. unfold getLength in *.
    destruct (pop_many_contents n q Hq Hn) as (Hf & Hz & _).
    rewrite Hf, contents_length. pose proof Hq as (Hlen & _).
    split; [lia | apply pop_empty; lia].
Qed.

(** C4.  From the reset state, after pushing 16 + k frames (k > 0):
    sixteen successive pops deliver the last sixteen frames pushed,
    oldest first, and the next pop finds the queue empty; the overflow
    counter is k as long as k does not exceed 0xFFFFFFFF and stays at
    0xFFFFFFFF from there on; every push of the sequence left its frame
    as the newest one in the queue; whatever is pushed afterwards, the
    counter goes up by one per push until it stops at 0xFFFFFFFF. *)
Theorem RxQueue_overflow (q0 : t) (fs : list RxFrame) (k : Z) :
  length (buf_ q0) = 16%nat ->
  0 < k ->
  Z.of_nat (length fs) = Capacity + k ->
  let q := push_all fs (reset q0) in
  fst (pop_many 16 q) = drop (Z.to_nat k) fs /\
  length (drop (Z.to_nat k) fs) = 16%nat /\
  pop (snd (pop_many 16 q)) = None /\
  getLength q = Capacity /\
  (k <= 0xFFFFFFFF -> getOverflowCount q = k) /\
  (0xFFFFFFFF <= k -> getOverflowCount q = 0xFFFFFFFF) /\
  (forall (fs1 fs2 : list RxFrame) (f : RxFrame),
      fs = fs1 ++ f :: fs2 ->
      last (contents (push_all (fs1 ++ [f]) (reset q0))) = Some f) /\
  (forall gs : list RxFrame,
      getOverflowCount (push_all gs q) =
        Z.min 0xFFFFFFFF (getOverflowCount q + Z.of_nat (length gs))).
Proof.
  intros Hbuf Hk Hlen q. unfold Capacity, getLength, getOverflowCount in *.
  pose proof (reset_wf q0 Hbuf) as Hw0.
  destruct (push_all_spec fs (reset q0) Hw0) as (Hw & Hc & Hl & Ho).
  fold q in Hw, Hc, Hl, Ho.
  rewrite contents_reset in Hc. cbn [app] in Hc. cbn [reset len_ overflow_cnt_] in Hl, Ho.
  replace (length fs - 16)%nat with (Z.to_nat k) in Hc by lia.
  pose proof Hw as (Hq & _).
  destruct (pop_many_contents 16 q Hq) as (Hf & Hz & _); [lia|].
  split; [rewrite Hf; exact Hc|].
  split; [rewrite length_drop; lia|].
  split; [apply pop_empty; lia|].
  split; [lia|]. split; [lia|]. split; [lia|]. split.
  - intros fs1 fs2 f _. unfold push_all. rewrite fold_left_app. cbn [fold_left].
    apply push_newest.
    apply (push_all_spec fs1 (reset q0) Hw0).
  - intros gs. destruct (push_all_spec gs q Hw) as (_ & _ & _ & Hog).
    rewrite Hog. destruct Hw as (_ & _ & Hcnt). lia.
Qed.

(** The invariant at work on [wrapped_queue], a full queue whose indices
    have wrapped around, and on the reset of [scrambled_queue], whose
    fields are out of every range: the reset has the invariant; a push
    on the full queue and the pop of its oldest frame, frame 2, keep it;
    sixteen pops deliver sixteen frames and leave the queue empty. *)
Lemma RxQueue_ring_invariant_witness :
  ring_inv (reset scrambled_queue) /\
  getLength (reset scrambled_queue) = 0 /\
  getLength wrapped_queue = 16 /\
  ring_inv (push RxFrame_default wrapped_queue) /\
  (exists q', pop wrapped_queue
                = Some (mkRxFrame (frame_of_id 2) 2 false false, q') /\
              ring_inv q' /\ getLength q' = 15) /\
  pop wrapped_queue <> None /\
  Z.of_nat (length (fst (pop_many 16 wrapped_queue))) = 16 /\
  pop (snd (pop_many 16 wrapped_queue)) = None.
Proof.
  assert (Hq : ring_inv wrapped_queue).
  { unfold ring_inv. vm_compute. repeat split; congruence. }
  destruct (RxQueue_ring_invariant scrambled_queue wrapped_queue RxFrame_default)
    as (_ & (Hreset & Hlen0 & _) & Hrest).
  destruct (Hrest Hq) as (Hpush & Hpop & Hempty & Hmany).
  assert (Hlen : getLength wrapped_queue = 16) by reflexivity.
  split; [exact Hreset|]. split; [exact Hlen0|]. split; [exact Hlen|].
  split; [exact Hpush|]. split.
  - destruct (pop wrapped_queue) as [[f' q']|] eqn:E.
    + exists q'. split.
      * apply (f_equal (option_map fst)) in E. vm_compute in E.
        injection E as <-. reflexivity.
      * split; [apply (Hpop f' q' eq_refl)|].
        apply (f_equal (option_map (fun x => getLength (snd x)))) in E.
        vm_compute in E. injection E as E. symmetry. exact E.
    + destruct Hempty as [Hz _]. specialize (Hz eq_refl).
      rewrite Hlen in Hz. discriminate Hz.
  - split; [intros E; apply Hempty in E; rewrite Hlen in E; discriminate E|].
    destruct (Hmany 16%nat) as [Hn Hnone]; [rewrite Hlen; lia|].
    rewrite Hlen in Hn. split; assumption.
Defined.

(** Eighteen frames numbered 0 to 17 pushed on a reset queue: frames 2 to
    17 come out, and two overflows are counted. *)
Lemma RxQueue_overflow_witness :
  fst (pop_many 16 (push_all (map (fun i => mkRxFrame (frame_of_id i) i false false)
                                  (map Z.of_nat (seq 0 18)))
                             (reset init)))
  = drop 2 (map (fun i => mkRxFrame (frame_of_id i) i false false)
                (map Z.of_nat (seq 0 18))) /\
  getOverflowCount
    (push_all (map (fun i => mkRxFrame (frame_of_id i) i false false)
                   (map Z.of_nat (seq 0 18)))
              (reset init)) = 2.
Proof.
  destruct (RxQueue_overflow init
              (map (fun i => mkRxFrame (frame_of_id i) i false false)
                   (map Z.of_nat (seq 0 18)))
              2)
    as (Hpop & _ & _ & _ & Hcnt & _).
  - reflexivity.
  - lia.
  - reflexivity.
  - split; [exact Hpop | apply Hcnt; lia].
Defined.

End RingBufferFacts.

(** ** Interrupt handlers *)

(** C10.  [pushRxFromISR] always pushes the frame on the receive queue,
    where it is then the newest frame, and signals the RX event once;
    [rx_cnt] goes up by one (as a 64-bit counter) and [had_activity] is
    set when the frame has neither the loopback nor the failed flag, and
    both are left as they were otherwise; nothing else changes. *)
Theorem pushRxFromISR_statistics (rxf : RxFrame) (s : State) :
  RxQueue.wf (rx_queue s) ->
  rx_queue (pushRxFromISR rxf s) = RxQueue.push rxf (rx_queue s) /\
  last (RxQueue.contents (rx_queue (pushRxFromISR rxf s))) = Some rxf /\
  signals (rx_event (pushRxFromISR rxf s)) = signals (rx_event s) + 1 /\
  rx_cnt (pushRxFromISR rxf s) =
    (if negb (RxFrame_loopback rxf) && negb (RxFrame_failed rxf)
     then u64 (rx_cnt s + 1) else rx_cnt s) /\
  had_activity (pushRxFromISR rxf s) =
    (if negb (RxFrame_loopback rxf) && negb (RxFrame_failed rxf)
     then true else had_activity s) /\
  tx_cnt (pushRxFromISR rxf s) = tx_cnt s /\
  error_cnt (pushRxFromISR rxf s) = error_cnt s /\
  rx_overflow_cnt (pushRxFromISR rxf s) = rx_overflow_cnt s /\
  tx_event (pushRxFromISR rxf s) = tx_event s /\
  pending_tx (pushRxFromISR rxf s) = pending_tx s /\
  last_hw_error_code (pushRxFromISR rxf s) = last_hw_error_code s /\
  peak_tx_mailbox_index (pushRxFromISR rxf s) = peak_tx_mailbox_index s /\
  loopback (pushRxFromISR rxf s) = loopback s.
Proof.
  intros Hwf. pose proof (push_newest rxf (rx_queue s) Hwf) as Hnew.
  unfold pushRxFromISR.
  destruct (negb (RxFrame_loopback rxf) && negb (RxFrame_failed rxf));
    cbn; repeat split; try reflexivity; exact Hnew.
Qed.

(** On a fresh state a bus frame is counted; an echo and a failed frame
    are not. *)
Lemma pushRxFromISR_statistics_witness :
  rx_cnt (pushRxFromISR (mkRxFrame (frame_of_id 0x123) 5 false false)
                        (State_init false)) = 1 /\
  rx_cnt (pushRxFromISR (mkRxFrame (frame_of_id 0x123) 5 true false)
                        (State_init false)) = 0 /\
  rx_cnt (pushRxFromISR (mkRxFrame (frame_of_id 0x123) 5 false true)
                        (State_init false)) = 0.
Proof.
  assert (Hwf : RxQueue.wf (rx_queue (State_init false))).
  { unfold RxQueue.wf, RxQueue.ring_inv, RxQueue.Capacity. cbn.
    repeat split; try lia. }
  pose proof (pushRxFromISR_statistics
                (mkRxFrame (frame_of_id 0x123) 5 false false) (State_init false) Hwf)
    as (_ & _ & _ & H1 & _).
  pose proof (pushRxFromISR_statistics
                (mkRxFrame (frame_of_id 0x123) 5 true false) (State_init false) Hwf)
    as (_ & _ & _ & H2 & _).
  pose proof (pushRxFromISR_statistics
                (mkRxFrame (frame_of_id 0x123) 5 false true) (State_init false) Hwf)
    as (_ & _ & _ & H3 & _).
  rewrite H1, H2, H3. repeat split; reflexivity.
Defined.

(** A loopback echo is queued and signalled, and that is all. *)
Lemma pushRxFromISR_echo (rxf : RxFrame) (s : State) :
  RxFrame_loopback rxf = true ->
  pushRxFromISR rxf s =
    set_rx_event (signalI (rx_event s))
                 (set_rx_queue (RxQueue.push rxf (rx_queue s)) s).
Proof. intros H. unfold pushRxFromISR. rewrite H. reflexivity. Qed.

(** The last error code is the number made of bits 4, 5 and 6 of [ESR]. *)
Lemma lec_of_bits (esr : Z) : lec_of esr = (esr / 2 ^ 4) mod 2 ^ 3.
Proof.
  unfold lec_of, CAN_ESR_LEC.
  rewrite Z.shiftr_land.
  change (Z.shiftr 0x70 4) with (Z.ones 3).
  rewrite Z.land_ones by lia.
  rewrite Z.shiftr_div_pow2 by lia.
  apply u8_small.
  pose proof (Z.mod_pos_bound (esr / 2 ^ 4) (2 ^ 3) ltac:(lia)). lia.
Qed.

(** C7.  [handleStatusChangeInterrupt] writes [ERRI] to [MSR] and 0 to
    [ESR]; whether or not the bus is off, a non-zero last error code,
    the number in bits 4 to 6 of [ESR], is stored in
    [last_hw_error_code] and [error_cnt] goes up by one (as a 64-bit
    counter), and a zero code changes neither.  With
    bus-off latched it writes the three abort requests to [TSR], signals
    the TX event once, clears the pending flag of every mailbox and, in
    loopback mode only, pushes for each mailbox that was pending a frame
    carrying that mailbox's frame with loopback and failed set, in the
    order of the mailboxes, signalling the RX event once per frame;
    [rx_cnt] and [had_activity] do not change.  Without bus-off the
    mailboxes, the events and the queue are left alone. *)
Theorem handleStatusChangeInterrupt_spec (timestamp : Z) (w : World) :
  length (pending_tx (state_ w)) = 3%nat ->
  let w' := handleStatusChangeInterrupt timestamp w in
  let s := state_ w in
  let s' := state_ w' in
  let lec := (ESR (CAN w) / 2 ^ 4) mod 2 ^ 3 in
  MSR (CAN w') = CAN_MSR_ERRI /\
  ESR (CAN w') = 0 /\
  last_hw_error_code s' = (if lec =? 0 then last_hw_error_code s else lec) /\
  error_cnt s' = (if lec =? 0 then error_cnt s else u64 (error_cnt s + 1)) /\
  rx_cnt s' = rx_cnt s /\
  had_activity s' = had_activity s /\
  loopback s' = loopback s /\
  if to_bool (Z.land (ESR (CAN w)) CAN_ESR_BOFF) then
    TSR (CAN w') = Z.lor (Z.lor CAN_TSR_ABRQ0 CAN_TSR_ABRQ1) CAN_TSR_ABRQ2 /\
    signals (tx_event s') = signals (tx_event s) + 1 /\
    pending_tx s' = map (fun tx => mkTxItem (TxItem_frame tx) false) (pending_tx s) /\
    rx_queue s' = RxQueue.push_all (aborted_frames timestamp s) (rx_queue s) /\
    signals (rx_event s') =
      signals (rx_event s) + Z.of_nat (length (aborted_frames timestamp s))
  else
    TSR (CAN w') = TSR (CAN w) /\
    tx_event s' = tx_event s /\
    pending_tx s' = pending_tx s /\
    rx_queue s' = rx_queue s /\
    rx_event s' = rx_event s.
Proof.
  intros Hlen. cbv zeta. rewrite <- (lec_of_bits (ESR (CAN w))).
  destruct w as [s can]. cbn [state_ CAN] in *.
  unfold handleStatusChangeInterrupt. cbn [state_ CAN ESR MSR TSR sTxMailBox].
  destruct (to_bool (Z.land (ESR can) CAN_ESR_BOFF)); cbn [state_ CAN ESR MSR TSR].
  - destruct s as [ec roc tc rc q re te ptx lhe peak act lb]. cbn [pending_tx] in Hlen.
    destruct ptx as [|[f0 p0] [|[f1 p1] [|[f2 p2] [|]]]]; try discriminate.
    unfold aborted_frames.
    destruct (lec_of (ESR can) =? 0), lb, p0, p1, p2; cbn;
      repeat split; try reflexivity; try lia.
  - destruct (lec_of (ESR can) =? 0); cbn; repeat split; reflexivity.
Qed.

(** Bus-off with three pending mailboxes in loopback mode and the error
    code 5 latched among other bits of [ESR]. *)
Lemma handleStatusChangeInterrupt_spec_witness :
  TSR (CAN (handleStatusChangeInterrupt 9 busoff_world)) = 0x808080 /\
  pending_tx (state_ (handleStatusChangeInterrupt 9 busoff_world)) =
    [mkTxItem (frame_of_id 0x100) false;
     mkTxItem (frame_of_id 0x200) false;
     mkTxItem (frame_of_id 0x300) false] /\
  RxQueue.getLength (rx_queue (state_ (handleStatusChangeInterrupt 9 busoff_world))) = 3 /\
  last_hw_error_code (state_ (handleStatusChangeInterrupt 9 busoff_world)) = 5 /\
  error_cnt (state_ (handleStatusChangeInterrupt 9 busoff_world)) = 1.
Proof.
  pose proof (handleStatusChangeInterrupt_spec 9 busoff_world eq_refl) as H.
  cbv zeta in H.
  destruct H as (_ & _ & Hcode & Hcnt & _ & _ & _ & Hoff).
  change (to_bool (Z.land (ESR (CAN busoff_world)) CAN_ESR_BOFF)) with true in Hoff.
  destruct Hoff as (Htsr & _ & Hpend & Hq & _).
  rewrite Htsr, Hpend, Hq, Hcode, Hcnt. repeat split; reflexivity.
Defined.

(** ** Transmit mailboxes *)

Lemma scan_mailboxes_false (frame : Frame) (s : State) (mbxs : list nat) :
  scan_mailboxes frame s mbxs = false <->
  exists mbx, In mbx mbxs /\ blocks frame s mbx = true.
Proof.
  unfold blocks. induction mbxs as [|m rest IH]; cbn [scan_mailboxes In].
  - split; [discriminate | intros (? & [] & _)].
  - destruct (TxItem_pending (pending_tx s !!! m) &&
              negb (priorityHigherThan frame (TxItem_frame (pending_tx s !!! m))))
      eqn:Hm.
    + split; [|reflexivity]. intros _. exists m. split; [left; reflexivity | exact Hm].
    + rewrite IH. split.
      * intros (x & Hin & Hx). exists x. split; [right; exact Hin | exact Hx].
      * intros (x & [->|Hin] & Hx); [congruence|]. exists x. split; assumption.
Qed.

(** C5.  [canAcceptNewTxFrame] returns true when [TSR] shows all three
    mailboxes empty and false when it shows none empty; otherwise it
    returns false exactly when some mailbox whose pending flag is set
    holds a frame that the candidate does not outrank by
    [priorityHigherThan]. *)
Theorem canAcceptNewTxFrame_spec (frame : Frame) (w : World) :
  let tme := Z.land (TSR (CAN w)) TME in
  (tme = TME -> canAcceptNewTxFrame frame w = true) /\
  (tme = 0 -> canAcceptNewTxFrame frame w = false) /\
  (tme <> TME -> tme <> 0 ->
   (canAcceptNewTxFrame frame w = false <->
    exists mbx : nat,
      (mbx < NumTxMailboxes)%nat /\
      TxItem_pending (pending_tx (state_ w) !!! mbx) = true /\
      priorityHigherThan frame (TxItem_frame (pending_tx (state_ w) !!! mbx)) = false)).
Proof.
  cbv zeta. unfold canAcceptNewTxFrame.
  destruct (Z.eqb_spec (Z.land (TSR (CAN w)) TME) TME) as [E|E].
  - split; [reflexivity|]. split; [|congruence].
    intros H0. rewrite H0 in E. vm_compute in E. discriminate.
  - split; [congruence|].
    destruct (Z.eqb_spec (Z.land (TSR (CAN w)) TME) 0) as [E0|E0].
    + split; [reflexivity | congruence].
    + split; [congruence|]. intros _ _.
      rewrite scan_mailboxes_false. unfold blocks. split.
      * intros (mbx & Hin & Hb). exists mbx. apply in_seq in Hin.
        apply andb_true_iff in Hb. destruct Hb as [Hp Hn].
        apply negb_true_iff in Hn. repeat split; [lia | assumption | assumption].
      * intros (mbx & Hlt & Hp & Hn). exists mbx. split; [apply in_seq; lia|].
        rewrite Hp, Hn. reflexivity.
Qed.

(** Mailboxes 0 and 1 pending with the identifiers 0x100 and 0x200,
    mailbox 2 free: a candidate between the two is refused, a candidate
    that outranks both is admitted. *)
Example canAcceptNewTxFrame_mixed :
  let w :=
    mkWorld (set_pending_tx
               [mkTxItem (frame_of_id 0x100) true;
                mkTxItem (frame_of_id 0x200) true;
                mkTxItem (frame_of_id 0x300) false]
               (State_init false))
            (mkCAN 0 CAN_TSR_TME2 0 (replicate NumTxMailboxes (mkTxMailBox 0 0 0 0))) in
  canAcceptNewTxFrame (frame_of_id 0x180) w = false /\
  canAcceptNewTxFrame (frame_of_id 0x080) w = true.
Proof. vm_compute. split; reflexivity. Qed.

Lemma find_free_mailbox_spec (tsr : Z) :
  match find_free_mailbox tsr with
  | Some i =>
      0 <= i <= 2 /\ mailbox_free tsr i = true /\
      forall j, 0 <= j < i -> mailbox_free tsr j = false
  | None => forall j, 0 <= j <= 2 -> mailbox_free tsr j = false
  end.
Proof.
  unfold find_free_mailbox.
  destruct (Z.land tsr CAN_TSR_TME0 =? CAN_TSR_TME0) eqn:H0.
  { repeat split; try lia. exact H0. }
  destruct (Z.land tsr CAN_TSR_TME1 =? CAN_TSR_TME1) eqn:H1.
  { repeat split; try lia; [exact H1|]. intros j Hj. assert (j = 0) as -> by lia. exact H0. }
  destruct (Z.land tsr CAN_TSR_TME2 =? CAN_TSR_TME2) eqn:H2.
  { repeat split; try lia; [exact H2|]. intros j Hj.
    assert (j = 0 \/ j = 1) as [-> | ->] by lia; assumption. }
  intros j Hj. assert (j = 0 \/ j = 1 \/ j = 2) as [-> | [-> | ->]] by lia; assumption.
Qed.

(** C6.  [loadTxMailbox] returns [-ErrUnsupportedFrame] exactly when the
    frame is an error frame or its DLC exceeds 8, and then leaves the
    driver state and the peripheral as they were.  Otherwise it takes
    the first mailbox that [TSR] shows empty in the order 0, 1, 2; with
    none empty it returns 0 and changes nothing, whatever the pending
    frames are; with mailbox [i] empty it returns 1, stores the frame
    with the pending flag set in slot [i] and leaves the other slots,
    raises [peak_tx_mailbox_index] to [i] when [i] is larger, and writes
    the frame to the registers of mailbox [i]. *)
Theorem loadTxMailbox_spec (frame : Frame) (w : World) :
  length (pending_tx (state_ w)) = 3%nat ->
  (fst (loadTxMailbox frame w) = Neg ErrUnsupportedFrame <->
   isErrorFrame frame = true \/ 8 < Frame_dlc frame) /\
  (isErrorFrame frame = true \/ 8 < Frame_dlc frame ->
   loadTxMailbox frame w = (Neg ErrUnsupportedFrame, w)) /\
  (isErrorFrame frame = false -> Frame_dlc frame <= 8 ->
   match find_free_mailbox (TSR (CAN w)) with
   | None =>
       (forall j, 0 <= j <= 2 -> mailbox_free (TSR (CAN w)) j = false) /\
       loadTxMailbox frame w = (Ret 0, w)
   | Some i =>
       let w' := snd (loadTxMailbox frame w) in
       0 <= i <= 2 /\
       mailbox_free (TSR (CAN w)) i = true /\
       (forall j, 0 <= j < i -> mailbox_free (TSR (CAN w)) j = false) /\
       fst (loadTxMailbox frame w) = Ret 1 /\
       pending_tx (state_ w') !!! Z.to_nat i = mkTxItem frame true /\
       (forall j : nat, j <> Z.to_nat i ->
          pending_tx (state_ w') !!! j = pending_tx (state_ w) !!! j) /\
       peak_tx_mailbox_index (state_ w') =
         Z.max (peak_tx_mailbox_index (state_ w)) i /\
       sTxMailBox (CAN w') =
         <[Z.to_nat i := mailbox_of_frame frame]> (sTxMailBox (CAN w)) /\
       TSR (CAN w') = TSR (CAN w) /\
       rx_queue (state_ w') = rx_queue (state_ w) /\
       tx_cnt (state_ w') = tx_cnt (state_ w) /\
       rx_cnt (state_ w') = rx_cnt (state_ w) /\
       error_cnt (state_ w') = error_cnt (state_ w)
   end).
Proof.
  intros Hlen. unfold loadTxMailbox.
  pose proof (find_free_mailbox_spec (TSR (CAN w))) as Hfree.
  destruct (isErrorFrame frame) eqn:Herr; cbn [orb].
  { split; [|split]; cbn [fst].
    - split; [left; reflexivity | reflexivity].
    - reflexivity.
    - discriminate. }
  destruct (Z.ltb_spec 8 (Frame_dlc frame)) as [Hd|Hd].
  { split; [|split]; cbn [fst].
    - split; [right; assumption | reflexivity].
    - reflexivity.
    - lia. }
  split; [|split].
  - destruct (find_free_mailbox (TSR (CAN w))); cbn [fst];
      split; try discriminate; intros [?|?]; [discriminate | lia | discriminate | lia].
  - intros [?|?]; [discriminate | lia].
  - intros _ _. destruct (find_free_mailbox (TSR (CAN w))) as [i|].
    + destruct Hfree as (Hi & Hf & Hlow). cbv zeta. cbn [fst snd state_ CAN].
      repeat split; try assumption; try lia.
      * cbn. apply list_lookup_total_insert_eq. lia.
      * intros j Hj. cbn. apply list_lookup_total_insert_ne. congruence.
    + split; [exact Hfree | reflexivity].
Qed.

(** With every mailbox empty a frame goes to mailbox 0; an error frame
    is rejected and nothing changes. *)
Lemma loadTxMailbox_spec_witness :
  loadTxMailbox (frame_of_id 0x123) idle_world =
    (Ret 1,
     mkWorld (set_pending_tx
                [mkTxItem (frame_of_id 0x123) true;
                 mkTxItem Frame_default false;
                 mkTxItem Frame_default false]
                (State_init false))
             (mkCAN 0 TME 0
                    [mailbox_of_frame (frame_of_id 0x123);
                     mkTxMailBox 0 0 0 0; mkTxMailBox 0 0 0 0])) /\
  loadTxMailbox (frame_of_id (Z.lor FlagERR 0x123)) idle_world =
    (Neg ErrUnsupportedFrame, idle_world).
Proof.
  pose proof (loadTxMailbox_spec (frame_of_id (Z.lor FlagERR 0x123)) idle_world eq_refl)
    as (_ & Hrej & _).
  split; [reflexivity | apply Hrej; left; reflexivity].
Defined.

(** ** Blocking calls *)

Section BlockingFacts.

Variable MS2ST : Z -> Z.
Variable chVTGetSystemTimeX : World -> Z.
Variable chVTTimeElapsedSinceX : Z -> World -> Z.
Variable waitForSysTicks : EventId -> Z -> World -> World.

Local Abbreviation receive_loop_os := (receive_loop MS2ST chVTTimeElapsedSinceX waitForSysTicks).
Local Abbreviation send_loop_os := (send_loop MS2ST chVTTimeElapsedSinceX waitForSysTicks).
Local Abbreviation receive_os :=
  (receive MS2ST chVTGetSystemTimeX chVTTimeElapsedSinceX waitForSysTicks).
Local Abbreviation send_os :=
  (send MS2ST chVTGetSystemTimeX chVTTimeElapsedSinceX waitForSysTicks).
Local Abbreviation budget_ok := (budget_respected MS2ST chVTTimeElapsedSinceX).

Lemma receive_loop_timeout (fuel : nat) (started_at timeout_ms : Z)
    (w : World) (log : wait_log) :
  RxQueue.getLength (rx_queue (state_ w)) <= 0 ->
  MS2ST timeout_ms <= chVTTimeElapsedSinceX started_at w ->
  receive_loop_os (S fuel) started_at timeout_ms w log = Some (Ret 0, None, w, log).
Proof.
  intros Hempty Hlate. cbn [receive_loop].
  destruct (Z.ltb_spec 0 (RxQueue.getLength (rx_queue (state_ w)))); [lia|].
  destruct (Z.leb_spec (MS2ST timeout_ms) (chVTTimeElapsedSinceX started_at w));
    [reflexivity | lia].
Qed.

Lemma receive_loop_wait (fuel : nat) (started_at timeout_ms : Z)
    (w : World) (log : wait_log) :
  RxQueue.getLength (rx_queue (state_ w)) <= 0 ->
  chVTTimeElapsedSinceX started_at w < MS2ST timeout_ms ->
  receive_loop_os (S fuel) started_at timeout_ms w log =
    receive_loop_os fuel started_at timeout_ms
      (waitForSysTicks RxEvent
         (MS2ST timeout_ms - chVTTimeElapsedSinceX started_at w) w)
      (log ++ [(w, MS2ST timeout_ms - chVTTimeElapsedSinceX started_at w)]).
Proof.
  intros Hempty Hearly. cbn [receive_loop].
  destruct (Z.ltb_spec 0 (RxQueue.getLength (rx_queue (state_ w)))); [lia|].
  destruct (Z.leb_spec (MS2ST timeout_ms) (chVTTimeElapsedSinceX started_at w));
    [lia | reflexivity].
Qed.

Lemma send_loop_timeout (fuel : nat) (frame : Frame) (started_at timeout_ms : Z)
    (w : World) (log : wait_log) :
  canAcceptNewTxFrame frame w = false ->
  MS2ST timeout_ms <= chVTTimeElapsedSinceX started_at w ->
  send_loop_os (S fuel) frame started_at timeout_ms w log = Some (Ret 0, w, log).
Proof.
  intros Hfull Hlate. cbn [send_loop]. rewrite Hfull.
  destruct (Z.leb_spec (MS2ST timeout_ms) (chVTTimeElapsedSinceX started_at w));
    [reflexivity | lia].
Qed.

Lemma send_loop_wait (fuel : nat) (frame : Frame) (started_at timeout_ms : Z)
    (w : World) (log : wait_log) :
  canAcceptNewTxFrame frame w = false ->
  chVTTimeElapsedSinceX started_at w < MS2ST timeout_ms ->
  send_loop_os (S fuel) frame started_at timeout_ms w log =
    send_loop_os fuel frame started_at timeout_ms
      (waitForSysTicks TxEvent
         (MS2ST timeout_ms - chVTTimeElapsedSinceX started_at w) w)
      (log ++ [(w, MS2ST timeout_ms - chVTTimeElapsedSinceX started_at w)]).
Proof.
  intros Hfull Hearly. cbn [send_loop]. rewrite Hfull.
  destruct (Z.leb_spec (MS2ST timeout_ms) (chVTTimeElapsedSinceX started_at w));
    [lia | reflexivity].
Qed.

(** Whatever a [receive] loop returns. *)
Lemma receive_loop_result (fuel : nat) (started_at timeout_ms : Z)
    (w w' : World) (log log' : wait_log) (r : retcode) (out : option RxFrame) :
  budget_ok started_at timeout_ms log ->
  receive_loop_os fuel started_at timeout_ms w log = Some (r, out, w', log') ->
  budget_ok started_at timeout_ms log' /\
  (r = Ret 1 \/
   (r = Ret 0 /\ out = None /\
    RxQueue.getLength (rx_queue (state_ w')) <= 0 /\
    MS2ST timeout_ms <= chVTTimeElapsedSinceX started_at w')).
Proof.
  revert w log. induction fuel as [|fuel IH]; intros w log Hlog; [discriminate|].
  cbn [receive_loop].
  destruct (Z.ltb_spec 0 (RxQueue.getLength (rx_queue (state_ w)))) as [Hdata|Hempty].
  - destruct (RxQueue.pop (rx_queue (state_ w))) as [[f q']|];
      intros [= <- <- <- <-]; split; auto.
  - destruct (Z.leb_spec (MS2ST timeout_ms) (chVTTimeElapsedSinceX started_at w))
      as [Hlate|Hearly].
    + intros [= <- <- <- <-]. split; [assumption|]. right. auto.
    + apply IH. apply Forall_app. split; [assumption|].
      constructor; [|constructor]. cbn [fst snd]. split; [reflexivity | assumption].
Qed.

(** Whatever a [send] loop returns. *)
Lemma send_loop_result (fuel : nat) (frame : Frame) (started_at timeout_ms : Z)
    (w w' : World) (log log' : wait_log) (r : retcode) :
  budget_ok started_at timeout_ms log ->
  send_loop_os fuel frame started_at timeout_ms w log = Some (r, w', log') ->
  budget_ok started_at timeout_ms log' /\
  ((exists w0, canAcceptNewTxFrame frame w0 = true /\
               loadTxMailbox frame w0 = (r, w')) \/
   (r = Ret 0 /\
    canAcceptNewTxFrame frame w' = false /\
    MS2ST timeout_ms <= chVTTimeElapsedSinceX started_at w')).
Proof.
  revert w log. induction fuel as [|fuel IH]; intros w log Hlog; [discriminate|].
  cbn [send_loop].
  destruct (canAcceptNewTxFrame frame w) eqn:Hacc.
  - destruct (loadTxMailbox frame w) as [r0 w0] eqn:Hload.
    intros [= <- <- <-]. split; [assumption|]. left. exists w. auto.
  - destruct (Z.leb_spec (MS2ST timeout_ms) (chVTTimeElapsedSinceX started_at w))
      as [Hlate|Hearly].
    + intros [= <- <- <-]. split; [assumption|]. right. auto.
    + apply IH. apply Forall_app. split; [assumption|].
      constructor; [|constructor]. cbn [fst snd]. split; [reflexivity | assumption].
Qed.


End BlockingFacts.


(** ** Bit arithmetic *)

(** Bitwise or of words with no bit in common is their sum. *)
Lemma lor_disjoint_add (x y k : Z) :
  0 <= k -> x mod 2 ^ k = 0 -> 0 <= y < 2 ^ k -> Z.lor x y = x + y.
Proof.
  intros Hk Hx Hy.
  assert (Hland : Z.land x y = 0).
  { apply Z.bits_inj'. intros n Hn. rewrite Z.land_spec, Z.bits_0.
    destruct (Z.lt_ge_cases n k) as [Hlt|Hge].
    - rewrite (Z.div_mod x (2 ^ k)) by lia. rewrite Hx, Z.add_0_r, Z.mul_comm.
      rewrite Z.mul_pow2_bits_low by lia. reflexivity.
    - rewrite <- (Z.mod_small y (2 ^ k)) by lia.
      rewrite Z.mod_pow2_bits_high by lia. apply andb_false_r. }
  rewrite Z.add_nocarry_lxor by exact Hland.
  symmetry. apply Z.lxor_lor. exact Hland.
Qed.

(** The test of a single bit, as arithmetic. *)
Lemma land_pow2_eqb (x k : Z) :
  0 <= k -> (Z.land x (2 ^ k) =? 0) = ((x / 2 ^ k) mod 2 =? 0).
Proof.
  intros Hk.
  assert (Hbit : Z.land x (2 ^ k) = if Z.testbit x k then 2 ^ k else 0).
  { apply Z.bits_inj'. intros n Hn. rewrite Z.land_spec, Z.pow2_bits_eqb by lia.
    destruct (Z.eqb_spec k n) as [<-|Hne].
    - rewrite andb_true_r. destruct (Z.testbit x k).
      + rewrite Z.pow2_bits_true by lia. reflexivity.
      + rewrite Z.bits_0. reflexivity.
    - rewrite andb_false_r. destruct (Z.testbit x k).
      + rewrite Z.pow2_bits_false by lia. reflexivity.
      + rewrite Z.bits_0. reflexivity. }
  rewrite Hbit. rewrite <- Z.testbit_spec' by lia.
  assert (0 < 2 ^ k) by (apply Z.pow_pos_nonneg; lia).
  destruct (Z.testbit x k); cbn [Z.b2z].
  - destruct (Z.eqb_spec (2 ^ k) 0); [lia | reflexivity].
  - reflexivity.
Qed.

(** A mask of [k] low bits is the remainder modulo [2 ^ k]. *)
Lemma land_mask_mod (x k : Z) : 0 <= k -> Z.land x (2 ^ k - 1) = x mod 2 ^ k.
Proof.
  intros Hk. rewrite <- Z.land_ones by lia. rewrite Z.ones_equiv.
  reflexivity.
Qed.

(** ** Frames in the mailbox registers *)

(** The flag tests and masks as arithmetic on the identifier word. *)
Lemma isExtended_arith (f : Frame) :
  isExtended f = negb ((Frame_id f / 2 ^ 31) mod 2 =? 0).
Proof.
  unfold isExtended, to_bool. change FlagEFF with (2 ^ 31).
  rewrite land_pow2_eqb by lia. reflexivity.
Qed.

Lemma isRemoteTransmissionRequest_arith (f : Frame) :
  isRemoteTransmissionRequest f = negb ((Frame_id f / 2 ^ 30) mod 2 =? 0).
Proof.
  unfold isRemoteTransmissionRequest, to_bool. change FlagRTR with (2 ^ 30).
  rewrite land_pow2_eqb by lia. reflexivity.
Qed.

Lemma isErrorFrame_arith (f : Frame) :
  isErrorFrame f = negb ((Frame_id f / 2 ^ 29) mod 2 =? 0).
Proof.
  unfold isErrorFrame, to_bool. change FlagERR with (2 ^ 29).
  rewrite land_pow2_eqb by lia. reflexivity.
Qed.

Lemma clean_id_arith (f : Frame) : clean_id f = Frame_id f mod 2 ^ 29.
Proof. unfold clean_id. change MaskExtID with (2 ^ 29 - 1). apply land_mask_mod. lia. Qed.

Lemma format_masked_id_arith (f : Frame) :
  format_masked_id f =
    if isExtended f then Frame_id f mod 2 ^ 29 else Frame_id f mod 2 ^ 11.
Proof.
  unfold format_masked_id. destruct (isExtended f).
  - apply clean_id_arith.
  - change MaskStdID with (2 ^ 11 - 1). apply land_mask_mod. lia.
Qed.

(** The identifier register [loadTxMailbox] writes, as a sum. *)
Lemma TIR_arith (f : Frame) :
  TIR (mailbox_of_frame f) =
    (if isExtended f then (Frame_id f mod 2 ^ 29) * 8 + 4
     else (Frame_id f mod 2 ^ 11) * 2 ^ 21)
    + (if isRemoteTransmissionRequest f then 2 else 0) + 1.
Proof.
  unfold mailbox_of_frame. cbn [TIR].
  change CAN_TI0R_IDE with 4. change CAN_TI0R_RTR with 2. change CAN_TI0R_TXRQ with 1.
  change MaskExtID with (2 ^ 29 - 1). change MaskStdID with (2 ^ 11 - 1).
  rewrite !land_mask_mod by lia. rewrite !Z.shiftl_mul_pow2 by lia.
  assert (H29 : 0 <= Frame_id f mod 2 ^ 29 < 2 ^ 29) by (apply Z.mod_pos_bound; lia).
  assert (H11 : 0 <= Frame_id f mod 2 ^ 11 < 2 ^ 11) by (apply Z.mod_pos_bound; lia).
  rewrite (u32_small (Frame_id f mod 2 ^ 29 * 2 ^ 3)) by lia.
  rewrite (u32_small (Frame_id f mod 2 ^ 11 * 2 ^ 21)) by lia.
  destruct (isExtended f), (isRemoteTransmissionRequest f).
  - rewrite (lor_disjoint_add _ 4 3) by zlia.
    rewrite (lor_disjoint_add _ 2 2) by zlia.
    rewrite (lor_disjoint_add _ 1 1) by zlia. lia.
  - rewrite (lor_disjoint_add _ 4 3) by zlia.
    rewrite (lor_disjoint_add _ 1 1) by zlia. lia.
  - rewrite (lor_disjoint_add _ 2 21) by zlia.
    rewrite (lor_disjoint_add _ 1 1) by zlia. lia.
  - rewrite (lor_disjoint_add _ 1 21) by zlia. lia.
Qed.

(** The identifier word decoded from [RIR], as a sum. *)
Lemma decode_id_arith (rir : Z) :
  decode_id rir =
    (if (rir / 2 ^ 2) mod 2 =? 0 then (rir / 2 ^ 21) mod 2 ^ 11
     else (rir / 2 ^ 3) mod 2 ^ 29 + 2 ^ 31)
    + (if (rir / 2 ^ 1) mod 2 =? 0 then 0 else 2 ^ 30).
Proof.
  unfold decode_id.
  change CAN_RI0R_IDE with (2 ^ 2). change CAN_RI0R_RTR with (2 ^ 1).
  rewrite !land_pow2_eqb by lia.
  rewrite (Z.land_comm MaskStdID), (Z.land_comm MaskExtID).
  change MaskExtID with (2 ^ 29 - 1). change MaskStdID with (2 ^ 11 - 1).
  rewrite !land_mask_mod by lia. rewrite !Z.shiftr_div_pow2 by lia.
  change FlagEFF with (2 ^ 31). change FlagRTR with (2 ^ 30).
  assert (H29 : 0 <= (rir / 2 ^ 3) mod 2 ^ 29 < 2 ^ 29) by (apply Z.mod_pos_bound; lia).
  assert (H11 : 0 <= (rir / 2 ^ 21) mod 2 ^ 11 < 2 ^ 11) by (apply Z.mod_pos_bound; lia).
  destruct ((rir / 2 ^ 2) mod 2 =? 0), ((rir / 2 ^ 1) mod 2 =? 0); cbn [negb].
  - lia.
  - rewrite Z.lor_comm. rewrite (lor_disjoint_add _ _ 30) by zlia. lia.
  - rewrite Z.lor_comm. rewrite (lor_disjoint_add _ _ 29) by zlia. lia.
  - rewrite <- Z.lor_assoc. change (Z.lor (2 ^ 31) (2 ^ 30)) with (2 ^ 31 + 2 ^ 30).
    rewrite Z.lor_comm. rewrite (lor_disjoint_add _ _ 29) by zlia. lia.
Qed.
Lemma decode_id_TIR (f : Frame) :
  decode_id (TIR (mailbox_of_frame f)) =
    format_masked_id f
    + (if isExtended f then 2 ^ 31 else 0)
    + (if isRemoteTransmissionRequest f then 2 ^ 30 else 0).
Proof.
  rewrite decode_id_arith, TIR_arith, format_masked_id_arith.
  assert (H29 : 0 <= Frame_id f mod 2 ^ 29 < 2 ^ 29) by (apply Z.mod_pos_bound; lia).
  assert (H11 : 0 <= Frame_id f mod 2 ^ 11 < 2 ^ 11) by (apply Z.mod_pos_bound; lia).
  set (c29 := Frame_id f mod 2 ^ 29) in *. set (c11 := Frame_id f mod 2 ^ 11) in *.
  destruct (isExtended f), (isRemoteTransmissionRequest f);
    repeat match goal with
           | |- context [Z.eqb ?x 0] => destruct (Z.eqb_spec x 0)
           end; zlia.
Qed.

(** Four bytes packed into a data register and taken out again. *)
Lemma unpack_bytes (b0 b1 b2 b3 : Z) :
  0 <= b0 < 256 -> 0 <= b1 < 256 -> 0 <= b2 < 256 -> 0 <= b3 < 256 ->
  let r := Z.lor (Z.lor (Z.lor (u32 (Z.shiftl b3 24)) (u32 (Z.shiftl b2 16)))
                        (u32 (Z.shiftl b1 8)))
                 (u32 (Z.shiftl b0 0)) in
  u8 (Z.land 0xFF (Z.shiftr r 0)) = b0 /\
  u8 (Z.land 0xFF (Z.shiftr r 8)) = b1 /\
  u8 (Z.land 0xFF (Z.shiftr r 16)) = b2 /\
  u8 (Z.land 0xFF (Z.shiftr r 24)) = b3.
Proof.
  intros H0 H1 H2 H3 r.
  assert (Hr : r = b3 * 2 ^ 24 + b2 * 2 ^ 16 + b1 * 2 ^ 8 + b0).
  { unfold r. rewrite !Z.shiftl_mul_pow2 by lia.
    rewrite !u32_small by lia.
    rewrite (lor_disjoint_add (b3 * 2 ^ 24) (b2 * 2 ^ 16) 24) by zlia.
    rewrite (lor_disjoint_add _ (b1 * 2 ^ 8) 16) by zlia.
    rewrite (lor_disjoint_add _ (b0 * 2 ^ 0) 8) by zlia. lia. }
  clearbody r. subst r.
  rewrite !(Z.land_comm 255). change 255 with (2 ^ 8 - 1).
  rewrite !land_mask_mod by lia. rewrite !Z.shiftr_div_pow2 by lia.
  unfold u8. repeat split; zlia.
Qed.

(** Identifier, data bytes and DLC all survive the way through the
    registers. *)
Lemma decode_looped_mailbox (f : Frame) :
  bus_frame f ->
  decode_frame (looped_mailbox (mailbox_of_frame f)) = f.
Proof.
  intros (Hid & Herr & Hstray & Hdlc & Hlen & Hbytes).
  destruct f as [fid fdata fdlc]. cbn [Frame_id Frame_data Frame_dlc] in *.
  destruct fdata as [|b0 [|b1 [|b2 [|b3 [|b4 [|b5 [|b6 [|b7 [|]]]]]]]]];
    try discriminate.
  repeat match goal with
         | H : Forall _ (_ :: _) |- _ => inversion H; subst; clear H
         end.
  unfold decode_frame, looped_mailbox. cbn [RIR RDTR RDLR RDHR].
  rewrite decode_id_TIR.
  unfold mailbox_of_frame. cbn [TDTR TDLR TDHR Frame_data Frame_dlc].
  change ([b0; b1; b2; b3; b4; b5; b6; b7] !!! 0%nat) with b0.
  change ([b0; b1; b2; b3; b4; b5; b6; b7] !!! 1%nat) with b1.
  change ([b0; b1; b2; b3; b4; b5; b6; b7] !!! 2%nat) with b2.
  change ([b0; b1; b2; b3; b4; b5; b6; b7] !!! 3%nat) with b3.
  change ([b0; b1; b2; b3; b4; b5; b6; b7] !!! 4%nat) with b4.
  change ([b0; b1; b2; b3; b4; b5; b6; b7] !!! 5%nat) with b5.
  change ([b0; b1; b2; b3; b4; b5; b6; b7] !!! 6%nat) with b6.
  change ([b0; b1; b2; b3; b4; b5; b6; b7] !!! 7%nat) with b7.
  destruct (unpack_bytes b0 b1 b2 b3) as (E0 & E1 & E2 & E3); try assumption.
  destruct (unpack_bytes b4 b5 b6 b7) as (E4 & E5 & E6 & E7); try assumption.
  rewrite E0, E1, E2, E3, E4, E5, E6, E7.
  f_equal.
  - unfold no_stray_bits in Hstray. rewrite clean_id_arith in Hstray.
    rewrite isErrorFrame_arith in Herr.
    rewrite isRemoteTransmissionRequest_arith.
    rewrite format_masked_id_arith in *. rewrite isExtended_arith in *.
    cbn [Frame_id] in *.
    repeat match goal with
           | H : context [Z.eqb ?x 0] |- _ => destruct (Z.eqb_spec x 0)
           | |- context [Z.eqb ?x 0] => destruct (Z.eqb_spec x 0)
           end; cbn [negb] in *; try discriminate; zlia.
  - change 15 with (2 ^ 4 - 1). rewrite land_mask_mod by lia. unfold u8. zlia.
Qed.

(** ** Reception and transmission interrupts *)

(** X3.  What [handleRxInterrupt] decodes from the words [loadTxMailbox]
    wrote is the frame that was loaded. *)
Theorem decode_frame_mailbox_of_frame (f : Frame) :
  bus_frame f ->
  decode_frame (looped_mailbox (mailbox_of_frame f)) = f.
Proof. intros Hf. apply decode_looped_mailbox. exact Hf. Qed.

(** X4.  Whatever the receive registers hold, the frame decoded from them
    is a frame as the bus carries it: no error flag, no identifier bits
    beyond the format's width, DLC at most 15, eight bytes. *)
Theorem decode_frame_bus_frame (rf : CAN_FIFOMailBox) :
  bus_frame (decode_frame rf).
Proof.
  unfold bus_frame, no_stray_bits.
  rewrite isErrorFrame_arith, clean_id_arith, format_masked_id_arith, isExtended_arith.
  unfold decode_frame. cbn [Frame_id Frame_data Frame_dlc].
  rewrite decode_id_arith.
  assert (H29 : 0 <= (RIR rf / 2 ^ 3) mod 2 ^ 29 < 2 ^ 29) by (apply Z.mod_pos_bound; lia).
  assert (H11 : 0 <= (RIR rf / 2 ^ 21) mod 2 ^ 11 < 2 ^ 11) by (apply Z.mod_pos_bound; lia).
  set (c29 := (RIR rf / 2 ^ 3) mod 2 ^ 29) in *.
  set (c11 := (RIR rf / 2 ^ 21) mod 2 ^ 11) in *.
  assert (Hu8 : forall x, 0 <= u8 x < 256) by (intros x; unfold u8; apply Z.mod_pos_bound; lia).
  split; [|split; [|split; [|split; [|split]]]].
  - destruct ((RIR rf / 2 ^ 2) mod 2 =? 0), ((RIR rf / 2 ^ 1) mod 2 =? 0); lia.
  - destruct ((RIR rf / 2 ^ 2) mod 2 =? 0), ((RIR rf / 2 ^ 1) mod 2 =? 0);
      match goal with
      | |- negb (?x =? 0) = false => destruct (Z.eqb_spec x 0); [reflexivity | zlia]
      end.
  - destruct ((RIR rf / 2 ^ 2) mod 2 =? 0), ((RIR rf / 2 ^ 1) mod 2 =? 0);
      match goal with
      | |- context [negb (?x =? 0)] => destruct (Z.eqb_spec x 0); cbn [negb]; zlia
      end.
  - change 15 with (2 ^ 4 - 1). rewrite land_mask_mod by lia. unfold u8. zlia.
  - reflexivity.
  - repeat constructor; apply Hu8.
Qed.

(** [handleRxInterrupt] on an empty FIFO changes nothing; otherwise it
    pushes the decoded frame, which counts as a bus frame, counts a FIFO
    overrun when the overrun flag is up, and releases the FIFO entry by
    a write to the status register of that FIFO alone. *)
Lemma handleRxInterrupt_spec (fifo_index timestamp : Z) (s : State) (rx : CAN_RxRegs) :
  let rfr := if fifo_index =? 0 then RF0R rx else RF1R rx in
  let s' := fst (handleRxInterrupt fifo_index timestamp s rx) in
  let rx' := snd (handleRxInterrupt fifo_index timestamp s rx) in
  if Z.land rfr CAN_RFR_FMP_MASK =? 0 then s' = s /\ rx' = rx
  else
    rx_queue s' =
      RxQueue.push
        (mkRxFrame (decode_frame (sFIFOMailBox rx !!! Z.to_nat fifo_index))
                   timestamp false false)
        (rx_queue s) /\
    signals (rx_event s') = signals (rx_event s) + 1 /\
    rx_cnt s' = u64 (rx_cnt s + 1) /\
    had_activity s' = true /\
    rx_overflow_cnt s' =
      (if Z.land rfr CAN_RF0R_FOVR0 =? 0 then rx_overflow_cnt s
       else u64 (rx_overflow_cnt s + 1)) /\
    tx_cnt s' = tx_cnt s /\ error_cnt s' = error_cnt s /\
    pending_tx s' = pending_tx s /\ tx_event s' = tx_event s /\
    sFIFOMailBox rx' = sFIFOMailBox rx /\
    (if fifo_index =? 0 then RF0R rx' = 0x38 /\ RF1R rx' = RF1R rx
     else RF1R rx' = 0x38 /\ RF0R rx' = RF0R rx).
Proof.
  cbv zeta. unfold handleRxInterrupt, write_rfr.
  destruct (Z.land (if fifo_index =? 0 then RF0R rx else RF1R rx) CAN_RFR_FMP_MASK =? 0).
  - cbn. split; reflexivity.
  - destruct (Z.land (if fifo_index =? 0 then RF0R rx else RF1R rx) CAN_RF0R_FOVR0 =? 0),
      (fifo_index =? 0); cbn; repeat split; reflexivity.
Qed.

(** [handleTxMailboxInterrupt] clears the pending flag of its mailbox
    and no other, signals the TX event, counts the transmission only
    when it succeeded, and in loopback mode echoes the frame of a pending
    mailbox to the receive queue, failed or not, without counting it as
    received. *)
Lemma handleTxMailboxInterrupt_spec
    (mailbox_index : nat) (txok : bool) (timestamp : Z) (s : State) :
  (mailbox_index < length (pending_tx s))%nat ->
  let s' := handleTxMailboxInterrupt mailbox_index txok timestamp s in
  let txi := pending_tx s !!! mailbox_index in
  pending_tx s' !!! mailbox_index = mkTxItem (TxItem_frame txi) false /\
  (forall j : nat, j <> mailbox_index -> pending_tx s' !!! j = pending_tx s !!! j) /\
  signals (tx_event s') = signals (tx_event s) + 1 /\
  tx_cnt s' = (if txok then u64 (tx_cnt s + 1) else tx_cnt s) /\
  had_activity s' = (txok || had_activity s) /\
  rx_cnt s' = rx_cnt s /\
  error_cnt s' = error_cnt s /\
  rx_queue s' =
    (if loopback s && TxItem_pending txi
     then RxQueue.push (mkRxFrame (TxItem_frame txi) timestamp true (negb txok))
                       (rx_queue s)
     else rx_queue s) /\
  signals (rx_event s') =
    (if loopback s && TxItem_pending txi
     then signals (rx_event s) + 1 else signals (rx_event s)).
Proof.
  intros Hlt. cbv zeta. unfold handleTxMailboxInterrupt.
  destruct s as [ec roc tc rc q re te ptx lhe peak act lb].
  cbn [pending_tx] in Hlt.
  destruct txok, lb, (TxItem_pending (ptx !!! mailbox_index)) eqn:Hp;
    cbn; rewrite ?Hp; cbn;
    (split; [apply list_lookup_total_insert_eq; lia|]);
    (split; [intros j Hj; apply list_lookup_total_insert_ne; congruence|]);
    repeat split; reflexivity.
Qed.

(** ** Bit timings: what a success delivers *)

(** What a successful run of [computeTimings] went through. *)
Lemma computeTimings_success_inv (target_bitrate pclk : Z) (t : Timings) :
  computeTimings target_bitrate pclk = inr t ->
  exists s pv : Z,
    1 <= target_bitrate /\
    search_sum (pclk / target_bitrate)
               (Z.to_nat (u8 (max_quanta_per_bit target_bitrate - 1))) = Some s /\
    2 <= s <= max_quanta_per_bit target_bitrate - 1 /\
    (pclk / target_bitrate) mod (1 + s) = 0 /\
    pv = pclk / target_bitrate / (1 + s) /\
    1 <= pv <= 1024 /\
    isValid (choose_split s) = true /\
    bp_bs1 (choose_split s) + bp_bs2 (choose_split s) = s /\
    10 * (1 + bp_bs1 (choose_split s)) <= 9 * (1 + s) /\
    target_bitrate = pclk / (pv * (1 + s)) /\
    t = mkTimings (pv - 1) 0 (bp_bs1 (choose_split s) - 1) (bp_bs2 (choose_split s) - 1).
Proof.
  unfold computeTimings.
  destruct (Z.ltb_spec target_bitrate 1) as [?|Hb]; [discriminate|].
  cbv zeta.
  destruct (search_sum _ _) as [s|] eqn:Hs; [|discriminate].
  destruct (start_sum_value target_bitrate) as [Hstart Hmax].
  assert (Hn : (2 <= Z.to_nat (u8 (max_quanta_per_bit target_bitrate - 1)))%nat) by lia.
  pose proof (search_sum_sound _ _ _ Hn Hs) as [Hr Hd].
  rewrite Hstart in Hr.
  destruct (Z.ltb_spec (pclk / target_bitrate / (1 + s)) 1) as [?|H1]; [discriminate|].
  destruct (Z.ltb_spec 1024 (pclk / target_bitrate / (1 + s))) as [?|H2]; [discriminate|].
  cbn [orb].
  destruct (choose_split_valid s) as (Hvalid & Hsum & Hsample); [lia|].
  destruct (isValid_bounds _ Hvalid) as [Hb1 Hb2].
  unfold final_validation_fails. rewrite Hvalid. cbn [negb]. rewrite orb_false_r.
  replace (1 + bp_bs1 (choose_split s) + bp_bs2 (choose_split s)) with (1 + s) by lia.
  rewrite (u32_small (pclk / target_bitrate / (1 + s) * (1 + s))) by nia.
  destruct (Z.eqb_spec target_bitrate
              (pclk / (pclk / target_bitrate / (1 + s) * (1 + s)))) as [Hrec|?];
    [|discriminate].
  cbn [negb]. intros [= <-].
  exists s, (pclk / target_bitrate / (1 + s)).
  rewrite (u16_small (_ - 1)), (u8_small (bp_bs1 _ - 1)), (u8_small (bp_bs2 _ - 1)) by lia.
  repeat split; try assumption; try lia.
Qed.

(** X5.  Whenever [computeTimings] succeeds, on any input, the stored
    fields fit the register fields (prescaler below 1024, bs1 below 16,
    bs2 below 8, sjw 0), the clock divided by
    prescaler * (1 + bs1 + bs2), as one-based values, is the requested
    bitrate, the number of quanta per bit lies between 3 and the budget,
    and the sample point is at most 90%. *)
Theorem computeTimings_success_sound (target_bitrate pclk : Z) (t : Timings) :
  computeTimings target_bitrate pclk = inr t ->
  1 <= target_bitrate /\
  sjw t = 0 /\
  0 <= prescaler t <= 1023 /\
  0 <= bs1 t <= 15 /\
  0 <= bs2 t <= 7 /\
  3 <= 1 + (bs1 t + 1) + (bs2 t + 1) <= max_quanta_per_bit target_bitrate /\
  pclk / ((prescaler t + 1) * (1 + (bs1 t + 1) + (bs2 t + 1))) = target_bitrate /\
  10 * (1 + (bs1 t + 1)) <= 9 * (1 + (bs1 t + 1) + (bs2 t + 1)).
Proof.
  intros H. apply computeTimings_success_inv in H.
  destruct H as (s & pv & Hb & _ & Hr & _ & _ & Hpv & Hvalid & Hsum & Hsample & Hrec & ->).
  destruct (isValid_bounds _ Hvalid) as [Hb1 Hb2].
  cbn [prescaler sjw bs1 bs2].
  replace (pv - 1 + 1) with pv by lia.
  replace (1 + (bp_bs1 (choose_split s) - 1 + 1) + (bp_bs2 (choose_split s) - 1 + 1))
    with (1 + s) by lia.
  repeat split; lia.
Qed.

(** The number of quanta per bit of a successful run lies within the
    budget, divides clock / bitrate, and no larger number within the
    budget does. *)
Lemma computeTimings_quanta_inv (target_bitrate pclk : Z) (t : Timings) :
  computeTimings target_bitrate pclk = inr t ->
  3 <= 1 + (bs1 t + 1) + (bs2 t + 1) <= max_quanta_per_bit target_bitrate /\
  (pclk / target_bitrate) mod (1 + (bs1 t + 1) + (bs2 t + 1)) = 0 /\
  forall q : Z,
    3 <= q <= max_quanta_per_bit target_bitrate ->
    (pclk / target_bitrate) mod q = 0 ->
    q <= 1 + (bs1 t + 1) + (bs2 t + 1).
Proof.
  intros H. apply computeTimings_success_inv in H.
  destruct H as (s & pv & Hb & Hs & Hr & Hd & _ & Hpv & Hvalid & Hsum & _ & _ & ->).
  destruct (isValid_bounds _ Hvalid) as [Hb1 Hb2].
  cbn [bs1 bs2].
  replace (1 + (bp_bs1 (choose_split s) - 1 + 1) + (bp_bs2 (choose_split s) - 1 + 1))
    with (1 + s) by lia.
  split; [lia|]. split; [exact Hd|].
  intros q Hq Hdiv.
  destruct (start_sum_value target_bitrate) as [Hstart Hmax].
  destruct (search_sum_finds (pclk / target_bitrate)
              (Z.to_nat (u8 (max_quanta_per_bit target_bitrate - 1))))
    as (s' & Hs' & _ & _ & Hlargest).
  { exists q. split; [lia | assumption]. }
  rewrite Hs in Hs'. injection Hs' as <-.
  apply Hlargest; [lia | assumption].
Qed.

(** X6.  The number of quanta per bit [computeTimings] settles on is the
    largest one within the budget that divides clock / bitrate: it lies
    between 3 and the budget, it divides clock / bitrate, and every
    number within the budget that divides clock / bitrate is at most
    it. *)
Theorem computeTimings_most_quanta (target_bitrate pclk : Z) (t : Timings) :
  computeTimings target_bitrate pclk = inr t ->
  3 <= 1 + (bs1 t + 1) + (bs2 t + 1) <= max_quanta_per_bit target_bitrate /\
  (pclk / target_bitrate) mod (1 + (bs1 t + 1) + (bs2 t + 1)) = 0 /\
  forall q : Z,
    3 <= q <= max_quanta_per_bit target_bitrate ->
    (pclk / target_bitrate) mod q = 0 ->
    q <= 1 + (bs1 t + 1) + (bs2 t + 1).
Proof. exact (computeTimings_quanta_inv target_bitrate pclk t). Qed.

(** X7.  A bitrate above the clock is turned down as an invalid bitrate. *)
Theorem computeTimings_bitrate_above_clock (target_bitrate pclk : Z) :
  0 <= pclk < target_bitrate ->
  computeTimings target_bitrate pclk = inl ErrInvalidBitRate.
Proof.
  intros H. unfold computeTimings.
  destruct (Z.ltb_spec target_bitrate 1) as [?|Hb]; [reflexivity|].
  cbv zeta. rewrite (Z.div_small pclk target_bitrate) by lia.
  destruct (search_sum 0 _) as [s|] eqn:Hs; [|reflexivity].
  destruct (start_sum_value target_bitrate) as [Hstart Hmax].
  assert (Hn : (2 <= Z.to_nat (u8 (max_quanta_per_bit target_bitrate - 1)))%nat) by lia.
  pose proof (search_sum_sound _ _ _ Hn Hs) as [Hr _].
  rewrite Z.div_0_l by lia. reflexivity.
Qed.

(** ** Bit timings: the build with assertions *)

Lemma choose_split_checked_cases (s : Z) :
  2 <= s <= 16 ->
  choose_split_checked s = if 4 <=? s then Some (choose_split s) else None.
Proof.
  intros Hs.
  assert (s = 2 \/ s = 3 \/ s = 4 \/ s = 5 \/ s = 6 \/ s = 7 \/ s = 8 \/ s = 9 \/
          s = 10 \/ s = 11 \/ s = 12 \/ s = 13 \/ s = 14 \/ s = 15 \/ s = 16)
    as Hcases by lia.
  repeat (destruct Hcases as [-> | Hcases]); try subst s;
    vm_compute; reflexivity.
Qed.

(** The build with assertions against the build without. *)
Lemma computeTimings_checked_cases (target_bitrate pclk : Z) :
  computeTimings_checked target_bitrate pclk =
    match computeTimings target_bitrate pclk with
    | inr t =>
        if 5 <=? 1 + (bs1 t + 1) + (bs2 t + 1) then Some (inr t) else None
    | inl ErrLogic => None
    | inl e => Some (inl e)
    end.
Proof.
  unfold computeTimings_checked, computeTimings.
  destruct (Z.ltb_spec target_bitrate 1) as [?|Hb]; [reflexivity|].
  destruct (start_sum_value target_bitrate) as [Hstart Hmax].
  destruct (Z.leb_spec (max_quanta_per_bit target_bitrate) (MaxBS1 + MaxBS2)) as [_|Hbad];
    [|unfold MaxBS1, MaxBS2 in Hbad; lia].
  cbn [negb]. cbv zeta.
  destruct (search_sum _ _) as [s|] eqn:Hs; [|reflexivity].
  assert (Hn : (2 <= Z.to_nat (u8 (max_quanta_per_bit target_bitrate - 1)))%nat) by lia.
  pose proof (search_sum_sound _ _ _ Hn Hs) as [Hr _].
  rewrite Hstart in Hr.
  destruct ((pclk / target_bitrate / (1 + s) <? 1) || (1024 <? pclk / target_bitrate / (1 + s)));
    [reflexivity|].
  rewrite choose_split_checked_cases by lia.
  destruct (choose_split_valid s) as (Hvalid & Hsum & _); [lia|].
  destruct (isValid_bounds _ Hvalid) as [Hb1 Hb2].
  destruct (Z.leb_spec 4 s) as [H4|H4];
    destruct (final_validation_fails _ _ _ _); try reflexivity;
    cbn [bs1 bs2];
    rewrite (u8_small (bp_bs1 _ - 1)), (u8_small (bp_bs2 _ - 1)) by lia;
    replace (1 + (bp_bs1 (choose_split s) - 1 + 1) + (bp_bs2 (choose_split s) - 1 + 1))
      with (1 + s) by lia;
    destruct (Z.leb_spec 5 (1 + s)); try lia; reflexivity.
Qed.

(** C1.  Whenever the peripheral clock is the target bitrate times a
    prescaler in 1..1024 times a number of quanta per bit within the
    budget of the calculator (3 up to 10 at 1 Mbit/s and above, 3 up to
    17 below), [computeTimings] compiled without assertions succeeds;
    with the stored fields read as one-based values, the clock divided
    by prescaler * (1 + bs1 + bs2) is the target bitrate exactly (the
    division leaves no remainder), bs1 lies in 1..16, bs2 in 1..8, the
    sample point (1 + bs1) / (1 + bs1 + bs2) is at most 9/10, and sjw is
    stored as 0.  When the clock is such a product with at least 5
    quanta per bit, no assertion fails on the way, and the build with
    assertions returns the same timings. *)
Theorem computeTimings_exact_solution (target_bitrate pclk : Z) :
  admits_exact_solution target_bitrate pclk ->
  exists t : Timings,
    computeTimings target_bitrate pclk = inr t /\
    sjw t = 0 /\
    1 <= prescaler t + 1 <= 1024 /\
    pclk / ((prescaler t + 1) * (1 + (bs1 t + 1) + (bs2 t + 1))) = target_bitrate /\
    pclk = target_bitrate * ((prescaler t + 1) * (1 + (bs1 t + 1) + (bs2 t + 1))) /\
    1 <= bs1 t + 1 <= 16 /\
    1 <= bs2 t + 1 <= 8 /\
    10 * (1 + (bs1 t + 1)) <= 9 * (1 + (bs1 t + 1) + (bs2 t + 1)) /\
    ((exists p q : Z,
        1 <= p <= 1024 /\
        5 <= q <= max_quanta_per_bit target_bitrate /\
        pclk = target_bitrate * p * q) ->
     computeTimings_checked target_bitrate pclk = Some (inr t)).
Proof.
  intros H.
  destruct (computeTimings_exact_division _ _ H)
    as (t & Ht & Hsjw & Hp & Hrec & Hclk & Hb1 & Hb2 & Hsample).
  exists t. repeat (split; [assumption|]).
  intros (p & q & Hpr & Hq & Hpq).
  destruct H as [Hb _].
  rewrite computeTimings_checked_cases, Ht.
  destruct (computeTimings_quanta_inv _ _ _ Ht) as (_ & _ & Hlargest).
  assert (Hdiv : (pclk / target_bitrate) mod q = 0).
  { assert (HP : pclk / target_bitrate = p * q).
    { rewrite Hpq.
      replace (target_bitrate * p * q) with (p * q * target_bitrate) by lia.
      apply Z.div_mul. lia. }
    rewrite HP. apply Z.mod_mul. lia. }
  specialize (Hlargest q ltac:(lia) Hdiv).
  destruct (Z.leb_spec 5 (1 + (bs1 t + 1) + (bs2 t + 1))); [reflexivity | lia].
Qed.

(** 1 Mbit/s at 36 MHz: prescaler 4, nine quanta per bit, with and
    without assertions. *)
Lemma computeTimings_exact_solution_witness :
  exists t : Timings,
    computeTimings 1000000 36000000 = inr t /\
    sjw t = 0 /\
    1 <= prescaler t + 1 <= 1024 /\
    36000000 / ((prescaler t + 1) * (1 + (bs1 t + 1) + (bs2 t + 1))) = 1000000 /\
    36000000 = 1000000 * ((prescaler t + 1) * (1 + (bs1 t + 1) + (bs2 t + 1))) /\
    1 <= bs1 t + 1 <= 16 /\
    1 <= bs2 t + 1 <= 8 /\
    10 * (1 + (bs1 t + 1)) <= 9 * (1 + (bs1 t + 1) + (bs2 t + 1)) /\
    computeTimings_checked 1000000 36000000 = Some (inr t).
Proof.
  destruct (computeTimings_exact_solution 1000000 36000000)
    as (t & Ht & Hsjw & Hp & Hrec & Hclk & Hb1 & Hb2 & Hsample & Hchecked).
  { split; [lia|]. exists 4, 9. vm_compute. repeat split; congruence. }
  exists t. repeat (split; [assumption|]).
  apply Hchecked. exists 4, 9. vm_compute. repeat split; congruence.
Defined.

(** Two ways in which an exact solution that fits the registers is not
    delivered.  2000 bit/s at 36 MHz: prescaler 1000 with 18 quanta per
    bit (bs1 = 15, bs2 = 2, sample point 16/18) reproduces the bitrate
    exactly, but 18 quanta lie beyond the budget of 17; the search
    settles on 16 quanta, the prescaler 1125 is out of range, and the
    calculator reports an invalid bitrate, with assertions or without.
    12 and 9 Mbit/s at 36 MHz: prescaler 1 with 3 and 4 quanta per bit
    lies within the budget, but the first candidate split is built with
    bs1 equal to the segment sum, and with assertions the constructor
    stops the program. *)
Lemma computeTimings_exact_solution_counterexample :
  (admits_register_solution 2000 36000000 /\
   computeTimings 2000 36000000 = inl ErrInvalidBitRate /\
   computeTimings_checked 2000 36000000 = Some (inl ErrInvalidBitRate)) /\
  (admits_register_solution 12000000 36000000 /\
   admits_exact_solution 12000000 36000000 /\
   computeTimings_checked 12000000 36000000 = None) /\
  (admits_register_solution 9000000 36000000 /\
   admits_exact_solution 9000000 36000000 /\
   computeTimings_checked 9000000 36000000 = None).
Proof.
  split; [|split].
  - split; [|split; vm_compute; reflexivity].
    split; [lia|]. exists 1000, 15, 2. vm_compute. repeat split; congruence.
  - split; [|split; [|vm_compute; reflexivity]].
    + split; [lia|]. exists 1, 1, 1. vm_compute. repeat split; congruence.
    + split; [lia|]. exists 1, 3. vm_compute. repeat split; congruence.
  - split; [|split; [|vm_compute; reflexivity]].
    + split; [lia|]. exists 1, 2, 1. vm_compute. repeat split; congruence.
    + split; [lia|]. exists 1, 4. vm_compute. repeat split; congruence.
Qed.

(** X23.  What enabling the assertions changes in [computeTimings]: the
    early returns of an invalid bitrate are the same; where the build
    without assertions returns a logic error, the build with them stops
    at an assertion; where it returns timings with at least 5 quanta per
    bit, the build with assertions returns the same timings; and where
    it returns timings with 3 or 4 quanta per bit, the build with
    assertions stops, in the constructor of the first candidate split,
    whose bs1 is the whole segment sum. *)
Theorem computeTimings_checked_spec (target_bitrate pclk : Z) :
  computeTimings_checked target_bitrate pclk =
    match computeTimings target_bitrate pclk with
    | inr t =>
        if 5 <=? 1 + (bs1 t + 1) + (bs2 t + 1) then Some (inr t) else None
    | inl ErrLogic => None
    | inl e => Some (inl e)
    end.
Proof. exact (computeTimings_checked_cases target_bitrate pclk). Qed.

(** 12 and 9 Mbit/s at 36 MHz, three and four quanta per bit: timings
    without assertions, a failed assertion with them. *)
Example computeTimings_checked_3_and_4_quanta :
  computeTimings 12000000 36000000 = inr (mkTimings 0 0 0 0) /\
  computeTimings_checked 12000000 36000000 = None /\
  BsPair_assert 2 (Z.quot ((7 * 2 - 1) + 4) 8) = false /\
  computeTimings 9000000 36000000 = inr (mkTimings 0 0 1 0) /\
  computeTimings_checked 9000000 36000000 = None /\
  BsPair_assert 3 (Z.quot ((7 * 3 - 1) + 4) 8) = false.
Proof. vm_compute. repeat split; reflexivity. Qed.

(** ** The ring buffer as a queue; the arbitration order *)

(** X8.  The ring buffer is a FIFO of at most sixteen frames.  A push
    appends the frame and, on a full queue, drops the oldest one and
    counts an overflow (up to 0xFFFFFFFF); a pop takes the oldest frame
    and leaves the counter alone, and fails exactly on the empty queue. *)
Theorem RxQueue_fifo (q : RxQueue.t) (f : RxFrame) :
  RxQueue.wf q ->
  RxQueue.wf (RxQueue.push f q) /\
  RxQueue.contents (RxQueue.push f q) =
    drop (length (RxQueue.contents q ++ [f]) - 16) (RxQueue.contents q ++ [f]) /\
  RxQueue.getOverflowCount (RxQueue.push f q) =
    (if RxQueue.getLength q <? 16 then RxQueue.getOverflowCount q
     else Z.min 0xFFFFFFFF (RxQueue.getOverflowCount q + 1)) /\
  length (RxQueue.contents q) = Z.to_nat (RxQueue.getLength q) /\
  match RxQueue.pop q with
  | None => RxQueue.contents q = []
  | Some (g, q') =>
      RxQueue.contents q = g :: RxQueue.contents q' /\
      RxQueue.wf q' /\
      RxQueue.getOverflowCount q' = RxQueue.getOverflowCount q
  end.
Proof.
  intros Hwf. pose proof Hwf as (Hq & Hbuf & Hcnt).
  pose proof Hq as (Hlen & _). unfold RxQueue.Capacity in Hlen.
  destruct (push_all_spec [f] q Hwf) as (Hw & Hc & _ & Ho).
  change (RxQueue.push_all [f] q) with (RxQueue.push f q) in *.
  unfold RxQueue.getOverflowCount, RxQueue.getLength.
  split; [assumption|]. split; [assumption|]. split; [|split].
  - rewrite Ho. cbn [length].
    destruct (Z.ltb_spec (RxQueue.len_ q) 16); lia.
  - apply contents_length.
  - destruct (Z.ltb_spec 0 (RxQueue.len_ q)) as [Hpos|Hz].
    + destruct (contents_pop q Hq Hpos) as (q' & Hpop & Hcq).
      rewrite Hpop. split; [assumption|].
      pose proof (pop_ring_inv _ _ _ Hq Hpop) as Hq'.
      rewrite (pop_fields q Hq Hpos) in Hpop. injection Hpop as <-.
      split; [|reflexivity]. split; [assumption|]. cbn. split; assumption.
    + rewrite pop_empty by assumption. unfold RxQueue.contents.
      replace (Z.to_nat (RxQueue.len_ q)) with 0%nat by lia. reflexivity.
Qed.

(** X9.  Up to sixteen frames pushed on a reset queue all come out again,
    in the order they went in, and no overflow is counted. *)
Theorem RxQueue_no_loss_below_capacity (q0 : RxQueue.t) (fs : list RxFrame) :
  length (RxQueue.buf_ q0) = 16%nat ->
  (length fs <= 16)%nat ->
  fst (RxQueue.pop_many 16 (RxQueue.push_all fs (RxQueue.reset q0))) = fs /\
  RxQueue.getLength (RxQueue.push_all fs (RxQueue.reset q0)) = Z.of_nat (length fs) /\
  RxQueue.getOverflowCount (RxQueue.push_all fs (RxQueue.reset q0)) = 0.
Proof.
  intros Hbuf Hn. unfold RxQueue.getLength, RxQueue.getOverflowCount.
  pose proof (reset_wf q0 Hbuf) as Hw0.
  destruct (push_all_spec fs (RxQueue.reset q0) Hw0) as (Hw & Hc & Hl & Ho).
  rewrite contents_reset in Hc. cbn [app] in Hc.
  cbn [RxQueue.reset RxQueue.len_ RxQueue.overflow_cnt_] in Hl, Ho.
  replace (length fs - 16)%nat with 0%nat in Hc by lia. cbn [drop] in Hc.
  pose proof Hw as (Hq & _).
  destruct (pop_many_contents 16 (RxQueue.push_all fs (RxQueue.reset q0)) Hq)
    as (Hf & _); [lia|].
  rewrite Hf, Hc. repeat split; lia.
Qed.

(** X10.  [priorityHigherThan] is a strict order on all frames:
    irreflexive, asymmetric and transitive. *)
Theorem priorityHigherThan_strict_order (a b c : Frame) :
  priorityHigherThan a a = false /\
  (priorityHigherThan a b = true -> priorityHigherThan b a = false) /\
  (priorityHigherThan a b = true -> priorityHigherThan b c = true ->
   priorityHigherThan a c = true).
Proof.
  split; [apply priorityHigherThan_irrefl|].
  split; [apply priorityHigherThan_asym | apply priorityHigherThan_trans].
Qed.

(** X11.  Between frames without stray identifier bits the three rules of
    arbitration hold: across formats the lower top 11 bits win and the
    standard frame wins their tie; within a format the lower identifier
    wins, and at equal identifiers the data frame beats the remote
    request. *)
Theorem priorityHigherThan_rules (a b : Frame) :
  no_stray_bits a -> no_stray_bits b ->
  priorityHigherThan a b =
    if negb (eqb (isExtended a) (isExtended b))
    then (top11 a <? top11 b) || ((top11 a =? top11 b) && isExtended b)
    else (format_masked_id a <? format_masked_id b) ||
         ((format_masked_id a =? format_masked_id b) &&
          negb (isRemoteTransmissionRequest a) && isRemoteTransmissionRequest b).
Proof.
  intros Ha Hb.
  destruct (eqb (isExtended a) (isExtended b)) eqn:He; cbn [negb].
  - unfold no_stray_bits in *. rewrite <- Ha, <- Hb.
    rewrite priorityHigherThan_unfold, He. cbn [negb].
    destruct (isRemoteTransmissionRequest a), (isRemoteTransmissionRequest b);
      cbn; order_cases.
  - apply priorityHigherThan_mixed_formats; try assumption.
    intros E. rewrite E, eqb_reflx in He. discriminate.
Qed.

(** ** Admission and loading together *)

Lemma land_TME_bit (tsr i : Z) :
  0 <= i <= 2 ->
  Z.land tsr (CAN_TSR_TME_bit i) = Z.land (Z.land tsr TME) (CAN_TSR_TME_bit i).
Proof.
  intros Hi. rewrite <- Z.land_assoc. f_equal.
  assert (i = 0 \/ i = 1 \/ i = 2) as [-> | [-> | ->]] by lia; reflexivity.
Qed.

Lemma land_TME_split (tsr : Z) :
  Z.land tsr TME =
    Z.lor (Z.lor (Z.land tsr CAN_TSR_TME0) (Z.land tsr CAN_TSR_TME1))
          (Z.land tsr CAN_TSR_TME2).
Proof. unfold TME. rewrite !Z.land_lor_distr_r. reflexivity. Qed.

Lemma land_single_bit (x k : Z) :
  0 <= k -> Z.land x (2 ^ k) = 2 ^ k \/ Z.land x (2 ^ k) = 0.
Proof.
  intros Hk.
  pose proof (land_pow2_eqb x k Hk) as H.
  destruct (Z.eqb_spec (Z.land x (2 ^ k)) 0) as [E|E]; [right; exact E|left].
  assert (Hle : Z.land x (2 ^ k) = 2 ^ k * Z.b2z (Z.testbit x k)).
  { apply Z.bits_inj'. intros n Hn. rewrite Z.land_spec, Z.pow2_bits_eqb by lia.
    destruct (Z.testbit x k) eqn:Hb; cbn [Z.b2z].
    - rewrite Z.mul_1_r, Z.pow2_bits_eqb by lia.
      destruct (Z.eqb_spec k n) as [<-|]; [rewrite Hb; reflexivity | apply andb_false_r].
    - rewrite Z.mul_0_r, Z.bits_0. destruct (Z.eqb_spec k n) as [<-|];
        [rewrite Hb; reflexivity | apply andb_false_r]. }
  rewrite Hle in *. destruct (Z.testbit x k); cbn [Z.b2z] in *; lia.
Qed.

(** With any "mailbox empty" bit up in [TSR], the search for an empty
    mailbox finds one; with all three up it finds mailbox 0. *)
Lemma find_free_mailbox_some (tsr : Z) :
  Z.land tsr TME <> 0 -> exists i, find_free_mailbox tsr = Some i.
Proof.
  intros Hne. unfold find_free_mailbox.
  destruct (Z.eqb_spec (Z.land tsr CAN_TSR_TME0) CAN_TSR_TME0); [eauto|].
  destruct (Z.eqb_spec (Z.land tsr CAN_TSR_TME1) CAN_TSR_TME1); [eauto|].
  destruct (Z.eqb_spec (Z.land tsr CAN_TSR_TME2) CAN_TSR_TME2); [eauto|].
  exfalso. apply Hne. rewrite land_TME_split.
  destruct (land_single_bit tsr 26) as [E0|E0]; [lia | contradiction |].
  destruct (land_single_bit tsr 27) as [E1|E1]; [lia | contradiction |].
  destruct (land_single_bit tsr 28) as [E2|E2]; [lia | contradiction |].
  change CAN_TSR_TME0 with (2 ^ 26). change CAN_TSR_TME1 with (2 ^ 27).
  change CAN_TSR_TME2 with (2 ^ 28). rewrite E0, E1, E2. reflexivity.
Qed.

Lemma find_free_mailbox_all_free (tsr : Z) :
  Z.land tsr TME = TME -> find_free_mailbox tsr = Some 0.
Proof.
  intros H. unfold find_free_mailbox.
  pose proof (land_TME_bit tsr 0 ltac:(lia)) as H0. rewrite H in H0.
  change (CAN_TSR_TME_bit 0) with CAN_TSR_TME0 in H0.
  change (Z.land TME CAN_TSR_TME0) with CAN_TSR_TME0 in H0.
  rewrite H0, Z.eqb_refl. reflexivity.
Qed.

(** A frame that [canAcceptNewTxFrame] admits is never turned away
    by [loadTxMailbox] for lack of a mailbox: on the same status word a
    loadable frame is loaded (return value 1). *)
Lemma loadTxMailbox_after_admission (frame : Frame) (w : World) :
  canAcceptNewTxFrame frame w = true ->
  fst (loadTxMailbox frame w) =
    if isErrorFrame frame || (8 <? Frame_dlc frame)
    then Neg ErrUnsupportedFrame else Ret 1.
Proof.
  intros Hacc. unfold loadTxMailbox.
  destruct (isErrorFrame frame || (8 <? Frame_dlc frame)); [reflexivity|].
  assert (Hne : Z.land (TSR (CAN w)) TME <> 0).
  { unfold canAcceptNewTxFrame in Hacc.
    destruct (Z.eqb_spec (Z.land (TSR (CAN w)) TME) TME) as [E|E].
    - rewrite E. discriminate.
    - destruct (Z.eqb_spec (Z.land (TSR (CAN w)) TME) 0); [discriminate | assumption]. }
  destruct (find_free_mailbox_some _ Hne) as (i & ->). reflexivity.
Qed.

(** X12.  While some mailbox is busy, a frame that is already pending in a
    mailbox is not admitted a second time. *)
Theorem canAcceptNewTxFrame_refuses_pending_frame
    (frame : Frame) (w : World) (mbx : nat) :
  Z.land (TSR (CAN w)) TME <> TME ->
  (mbx < NumTxMailboxes)%nat ->
  pending_tx (state_ w) !!! mbx = mkTxItem frame true ->
  canAcceptNewTxFrame frame w = false.
Proof.
  intros Hbusy Hlt Hslot. unfold canAcceptNewTxFrame.
  destruct (Z.eqb_spec (Z.land (TSR (CAN w)) TME) TME) as [E|_]; [contradiction|].
  destruct (Z.land (TSR (CAN w)) TME =? 0); [reflexivity|].
  apply scan_mailboxes_false. exists mbx. split; [apply in_seq; lia|].
  unfold blocks. rewrite Hslot. cbn [TxItem_pending TxItem_frame].
  rewrite priorityHigherThan_irrefl. reflexivity.
Qed.

(** ** More on the blocking calls *)

(** A frame pushed on an empty queue is the one the next pop returns. *)
Lemma pop_push_empty (f : RxFrame) (q : RxQueue.t) :
  RxQueue.wf q -> RxQueue.len_ q = 0 ->
  exists q', RxQueue.pop (RxQueue.push f q) = Some (f, q') /\
             RxQueue.len_ q' = 0 /\ RxQueue.wf q'.
Proof.
  intros Hwf Hempty. pose proof Hwf as (Hq & Hbuf & Hcnt).
  pose proof (push_wf f q Hwf) as (Hq1 & Hbuf1 & Hcnt1).
  destruct (push_fields f q Hq) as (_ & _ & Hroom & _).
  destruct Hroom as (Hl & _ & _); [unfold RxQueue.Capacity; lia|].
  assert (Hpos : 0 < RxQueue.len_ (RxQueue.push f q)) by lia.
  destruct (contents_pop _ Hq1 Hpos) as (q' & Hpop & Hc).
  rewrite contents_push_room in Hc by (try assumption; unfold RxQueue.Capacity; lia).
  assert (Hnil : RxQueue.contents q = []).
  { unfold RxQueue.contents. rewrite Hempty. reflexivity. }
  rewrite Hnil in Hc. cbn [app] in Hc. injection Hc as Hhd Htl.
  exists q'. rewrite Hpop, <- Hhd. split; [reflexivity|].
  pose proof (pop_ring_inv _ _ _ Hq1 Hpop) as Hq'.
  rewrite (pop_fields _ Hq1 Hpos) in Hpop. injection Hpop as <-.
  cbn [RxQueue.len_]. split; [lia|]. split; [assumption|]. split; assumption.
Qed.

(** The echo of a pending mailbox in loopback mode. *)
Lemma handleTxMailboxInterrupt_echo
    (mailbox_index : nat) (txok : bool) (timestamp : Z) (s : State) (frame : Frame) :
  loopback s = true ->
  pending_tx s !!! mailbox_index = mkTxItem frame true ->
  rx_queue (handleTxMailboxInterrupt mailbox_index txok timestamp s) =
    RxQueue.push (mkRxFrame frame timestamp true (negb txok)) (rx_queue s) /\
  rx_cnt (handleTxMailboxInterrupt mailbox_index txok timestamp s) = rx_cnt s /\
  pending_tx (handleTxMailboxInterrupt mailbox_index txok timestamp s) =
    <[mailbox_index := mkTxItem frame false]> (pending_tx s) /\
  tx_cnt (handleTxMailboxInterrupt mailbox_index txok timestamp s) =
    (if txok then u64 (tx_cnt s + 1) else tx_cnt s).
Proof.
  intros Hlb Hslot. unfold handleTxMailboxInterrupt.
  destruct s as [ec roc tc rc q re te ptx lhe peak act lb].
  cbn [loopback pending_tx] in *. subst lb.
  destruct txok; cbn; rewrite Hslot; cbn; repeat split; reflexivity.
Qed.

Section BlockingMore.

Variable MS2ST : Z -> Z.
Variable chVTGetSystemTimeX : World -> Z.
Variable chVTTimeElapsedSinceX : Z -> World -> Z.
Variable waitForSysTicks : EventId -> Z -> World -> World.

Local Abbreviation receive_loop_os :=
  (receive_loop MS2ST chVTTimeElapsedSinceX waitForSysTicks).
Local Abbreviation send_loop_os :=
  (send_loop MS2ST chVTTimeElapsedSinceX waitForSysTicks).
Local Abbreviation receive_os :=
  (receive MS2ST chVTGetSystemTimeX chVTTimeElapsedSinceX waitForSysTicks).
Local Abbreviation send_os :=
  (send MS2ST chVTGetSystemTimeX chVTTimeElapsedSinceX waitForSysTicks).

(** X13.  With a frame in the queue [receive] returns 1 at once, whatever
    the timeout and the clock: it hands out the oldest frame, takes it
    off the queue and makes no wait. *)
Theorem receive_returns_oldest (fuel : nat) (timeout_ms : Z) (w : World) :
  RxQueue.wf (rx_queue (state_ w)) ->
  0 < RxQueue.getLength (rx_queue (state_ w)) ->
  exists (f : RxFrame) (q' : RxQueue.t),
    RxQueue.contents (rx_queue (state_ w)) = f :: RxQueue.contents q' /\
    receive_os (S fuel) timeout_ms w =
      Some (Ret 1, Some f, mkWorld (set_rx_queue q' (state_ w)) (CAN w), []).
Proof.
  intros (Hq & _) Hpos. unfold RxQueue.getLength in Hpos.
  destruct (contents_pop _ Hq Hpos) as (q' & Hpop & Hc).
  eexists _, q'. split; [exact Hc|].
  unfold receive. cbn [receive_loop]. unfold RxQueue.getLength.
  destruct (Z.ltb_spec 0 (RxQueue.len_ (rx_queue (state_ w)))); [|lia].
  rewrite Hpop. reflexivity.
Qed.

(** X14.  With all three mailboxes empty [send] loads a loadable frame into
    mailbox 0 at once and returns 1, whatever the timeout. *)
Theorem send_on_idle_driver (fuel : nat) (frame : Frame) (timeout_ms : Z) (w : World) :
  Z.land (TSR (CAN w)) TME = TME ->
  isErrorFrame frame = false ->
  Frame_dlc frame <= 8 ->
  (0 < length (pending_tx (state_ w)))%nat ->
  exists w',
    send_os (S fuel) frame timeout_ms w = Some (Ret 1, w', []) /\
    pending_tx (state_ w') !!! 0%nat = mkTxItem frame true /\
    sTxMailBox (CAN w') = <[0%nat := mailbox_of_frame frame]> (sTxMailBox (CAN w)).
Proof.
  intros Hfree Herr Hdlc Hlen. unfold send. cbn [send_loop].
  unfold canAcceptNewTxFrame. rewrite Hfree, Z.eqb_refl.
  unfold loadTxMailbox. rewrite Herr. cbn [orb].
  destruct (Z.ltb_spec 8 (Frame_dlc frame)); [lia|].
  rewrite (find_free_mailbox_all_free _ Hfree).
  eexists. split; [reflexivity|]. cbn [state_ CAN sTxMailBox].
  split; [|reflexivity].
  cbn. apply list_lookup_total_insert_eq. exact Hlen.
Qed.

(** X15.  A 0 from [send] always is a timeout: the frame was not admitted
    and the time elapsed had reached the timeout.  An admitted frame
    gives 1, or the rejection when it cannot be loaded. *)
Theorem send_zero_is_timeout (fuel : nat) (frame : Frame) (timeout_ms : Z)
    (w w' : World) (log' : wait_log) (r : retcode) :
  send_os fuel frame timeout_ms w = Some (r, w', log') ->
  (r = Ret 0 /\
   canAcceptNewTxFrame frame w' = false /\
   MS2ST timeout_ms <= chVTTimeElapsedSinceX (chVTGetSystemTimeX w) w') \/
  (r = Ret 1 /\ isErrorFrame frame = false /\ Frame_dlc frame <= 8) \/
  (r = Neg ErrUnsupportedFrame /\ (isErrorFrame frame = true \/ 8 < Frame_dlc frame)).
Proof.
  unfold send. intros Hres.
  apply send_loop_result in Hres; [|constructor].
  destruct Hres as (_ & [(w0 & Hacc & Hload) | Htimeout]); [|left; exact Htimeout].
  right. pose proof (loadTxMailbox_after_admission frame w0 Hacc) as Hfst.
  rewrite Hload in Hfst. cbn [fst] in Hfst. subst r.
  destruct (isErrorFrame frame) eqn:Herr; cbn [orb].
  - right. auto.
  - destruct (Z.ltb_spec 8 (Frame_dlc frame)).
    + right. auto.
    + left. auto.
Qed.


(** X17.  The loopback path end to end.  In loopback mode, with an empty
    receive queue, a loadable frame loaded into the empty mailbox [i] and
    then completed by the TX interrupt of that mailbox is what the next
    [receive] returns: the same frame, marked loopback, failed exactly
    when the transmission failed, with the timestamp of the interrupt;
    the mailbox is no longer pending, the frame is not counted as
    received, and it is counted as transmitted only when the
    transmission succeeded. *)
Theorem loopback_echo (fuel : nat) (frame : Frame) (txok : bool)
    (timestamp timeout_ms i : Z) (w : World) :
  loopback (state_ w) = true ->
  length (pending_tx (state_ w)) = 3%nat ->
  RxQueue.wf (rx_queue (state_ w)) ->
  RxQueue.getLength (rx_queue (state_ w)) = 0 ->
  isErrorFrame frame = false ->
  Frame_dlc frame <= 8 ->
  find_free_mailbox (TSR (CAN w)) = Some i ->
  let w1 := snd (loadTxMailbox frame w) in
  let s2 := handleTxMailboxInterrupt (Z.to_nat i) txok timestamp (state_ w1) in
  fst (loadTxMailbox frame w) = Ret 1 /\
  TxItem_pending (pending_tx s2 !!! Z.to_nat i) = false /\
  rx_cnt s2 = rx_cnt (state_ w) /\
  tx_cnt s2 = (if txok then u64 (tx_cnt (state_ w) + 1) else tx_cnt (state_ w)) /\
  exists w3,
    receive_os (S fuel) timeout_ms (mkWorld s2 (CAN w1)) =
      Some (Ret 1, Some (mkRxFrame frame timestamp true (negb txok)), w3, []) /\
    RxQueue.getLength (rx_queue (state_ w3)) = 0.
Proof.
  intros Hlb Hlen Hwf Hempty Herr Hdlc Hfree. cbv zeta.
  pose proof (find_free_mailbox_spec (TSR (CAN w))) as Hspec. rewrite Hfree in Hspec.
  destruct Hspec as (Hi & _).
  assert (Hload : loadTxMailbox frame w =
                  (Ret 1,
                   mkWorld
                     (set_pending_tx
                        (<[Z.to_nat i := mkTxItem frame true]> (pending_tx (state_ w)))
                        (set_peak_tx_mailbox_index
                           (Z.max (peak_tx_mailbox_index (state_ w)) i) (state_ w)))
                     (mkCAN (MSR (CAN w)) (TSR (CAN w)) (ESR (CAN w))
                            (<[Z.to_nat i := mailbox_of_frame frame]>
                               (sTxMailBox (CAN w)))))).
  { unfold loadTxMailbox. rewrite Herr. cbn [orb].
    destruct (Z.ltb_spec 8 (Frame_dlc frame)); [lia|]. rewrite Hfree. reflexivity. }
  rewrite Hload. cbn [fst snd state_ CAN].
  set (s1 := set_pending_tx _ _).
  assert (Hslot : pending_tx s1 !!! Z.to_nat i = mkTxItem frame true)
    by (apply list_lookup_total_insert_eq; lia).
  assert (Hlb1 : loopback s1 = true) by exact Hlb.
  destruct (handleTxMailboxInterrupt_echo (Z.to_nat i) txok timestamp s1 frame
              Hlb1 Hslot) as (Hq2 & Hrc2 & Hp2 & Htc2).
  split; [reflexivity|]. split.
  { rewrite Hp2. rewrite list_lookup_total_insert_eq; [reflexivity|].
    unfold s1. cbn. rewrite length_insert. lia. }
  split; [exact Hrc2|]. split; [exact Htc2|].
  change (rx_queue s1) with (rx_queue (state_ w)) in Hq2.
  destruct (pop_push_empty (mkRxFrame frame timestamp true (negb txok))
              (rx_queue (state_ w)) Hwf Hempty) as (q' & Hpop & Hl' & _).
  eexists. unfold receive. cbn [receive_loop state_ CAN]. rewrite Hq2, Hpop.
  destruct (Z.ltb_spec 0 (RxQueue.getLength
                            (RxQueue.push (mkRxFrame frame timestamp true (negb txok))
                                          (rx_queue (state_ w))))) as [_|Hbad].
  - split; [reflexivity|]. exact Hl'.
  - exfalso. unfold RxQueue.getLength in *.
    destruct (push_fields (mkRxFrame frame timestamp true (negb txok))
                (rx_queue (state_ w)) (proj1 Hwf)) as (_ & _ & Hroom & _).
    destruct Hroom as (Hl1 & _); [unfold RxQueue.Capacity; lia | lia].
Qed.

(** X18.  Reception end to end.  A frame that one controller loaded for
    transmission and that shows in a receive FIFO of another is, after
    [handleRxInterrupt] on an empty queue, what the next [receive]
    returns: the same frame, neither loopback nor failed, with the
    timestamp of the interrupt, and it is counted as received. *)
Theorem reception_end_to_end (fuel : nat) (frame : Frame)
    (fifo_index timestamp timeout_ms : Z)
    (s : State) (can : CAN_TypeDef) (rx : CAN_RxRegs) :
  bus_frame frame ->
  RxQueue.wf (rx_queue s) ->
  RxQueue.getLength (rx_queue s) = 0 ->
  Z.land (if fifo_index =? 0 then RF0R rx else RF1R rx) CAN_RFR_FMP_MASK <> 0 ->
  sFIFOMailBox rx !!! Z.to_nat fifo_index = looped_mailbox (mailbox_of_frame frame) ->
  let s1 := fst (handleRxInterrupt fifo_index timestamp s rx) in
  rx_cnt s1 = u64 (rx_cnt s + 1) /\
  had_activity s1 = true /\
  exists w3,
    receive_os (S fuel) timeout_ms (mkWorld s1 can) =
      Some (Ret 1, Some (mkRxFrame frame timestamp false false), w3, []) /\
    RxQueue.getLength (rx_queue (state_ w3)) = 0.
Proof.
  intros Hframe Hwf Hempty Hfmp Hmailbox. cbv zeta.
  unfold handleRxInterrupt.
  destruct (Z.eqb_spec (Z.land (if fifo_index =? 0 then RF0R rx else RF1R rx)
                               CAN_RFR_FMP_MASK) 0) as [E|_]; [contradiction|].
  cbn [fst]. rewrite Hmailbox, (decode_looped_mailbox frame Hframe).
  set (rxf := mkRxFrame frame timestamp false false).
  set (s0 := if negb (Z.land _ CAN_RF0R_FOVR0 =? 0) then count_rx_overflow s else s).
  assert (Hq0 : rx_queue s0 = rx_queue s) by (unfold s0; destruct (negb _); reflexivity).
  assert (Hrc0 : rx_cnt s0 = rx_cnt s) by (unfold s0; destruct (negb _); reflexivity).
  assert (Hq1 : rx_queue (pushRxFromISR rxf s0) = RxQueue.push rxf (rx_queue s))
    by (rewrite <- Hq0; reflexivity).
  split; [rewrite <- Hrc0; reflexivity|]. split; [reflexivity|].
  destruct (pop_push_empty rxf (rx_queue s) Hwf Hempty) as (q' & Hpop & Hl' & _).
  eexists. unfold receive. cbn [receive_loop state_ CAN]. rewrite Hq1, Hpop.
  destruct (Z.ltb_spec 0 (RxQueue.getLength (RxQueue.push rxf (rx_queue s))))
    as [_|Hbad].
  - split; [reflexivity|]. exact Hl'.
  - exfalso. unfold RxQueue.getLength in *.
    destruct (push_fields rxf (rx_queue s) (proj1 Hwf)) as (_ & _ & Hroom & _).
    destruct Hroom as (Hl1 & _); [unfold RxQueue.Capacity; lia | lia].
Qed.

End BlockingMore.

(** ** Start *)

Lemma poll_inak_spec (remaining : nat) (target_state : bool)
    (reads : nat -> Z) (k : nat) :
  let ok := fst (poll_inak remaining target_state reads k) in
  let k' := snd (poll_inak remaining target_state reads k) in
  if ok then
    (k < k' <= k + remaining)%nat /\
    inak (reads (k' - 1)%nat) = target_state /\
    (forall j, (k <= j < k' - 1)%nat -> inak (reads j) <> target_state)
  else
    k' = (k + remaining)%nat /\
    (forall j, (k <= j < k + remaining)%nat -> inak (reads j) <> target_state).
Proof.
  cbv zeta. revert k. induction remaining as [|n IH]; intros k; cbn [poll_inak].
  - cbn [fst snd]. split; [lia | intros j Hj; lia].
  - fold (inak (reads k)).
    destruct (eqb_spec (inak (reads k)) target_state) as [Hhit|Hmiss]; cbn [fst snd].
    + replace (S k - 1)%nat with k by lia.
      split; [lia|]. split; [assumption | intros j Hj; lia].
    + specialize (IH (S k)).
      destruct (fst (poll_inak n target_state reads (S k))).
      * destruct IH as (Hk & Hhit & Hbefore).
        split; [lia|]. split; [assumption|].
        intros j Hj. destruct (Nat.eq_dec j k) as [->|]; [assumption|].
        apply Hbefore. lia.
      * destruct IH as (Hk & Hbefore).
        split; [lia|].
        intros j Hj. destruct (Nat.eq_dec j k) as [->|]; [assumption|].
        apply Hbefore. lia.
Qed.

(** X19.  [waitMSRINAKBitStateChange] returns true at the first of at most
    1000 reads of [MSR] that shows [INAK] in the target state, and false
    after exactly 1000 reads none of which did. *)
Theorem waitMSRINAKBitStateChange_spec (target_state : bool)
    (reads : nat -> Z) (k : nat) :
  let ok := fst (waitMSRINAKBitStateChange target_state reads k) in
  let k' := snd (waitMSRINAKBitStateChange target_state reads k) in
  if ok then
    (k < k' <= k + 1000)%nat /\
    inak (reads (k' - 1)%nat) = target_state /\
    (forall j, (k <= j < k' - 1)%nat -> inak (reads j) <> target_state)
  else
    k' = (k + 1000)%nat /\
    (forall j, (k <= j < k + 1000)%nat -> inak (reads j) <> target_state).
Proof. apply poll_inak_spec. Qed.

(** The timing register as a sum of its fields. *)
Lemma BTR_word_arith (OptionSilentMode : Z) (t : Timings) (options : Z) :
  BTR_word OptionSilentMode t options =
    (sjw t mod 4) * 2 ^ 24 + (bs2 t mod 8) * 2 ^ 20 + (bs1 t mod 16) * 2 ^ 16
    + prescaler t mod 1024
    + (if Z.land options OptionSilentMode =? 0 then 0 else 2 ^ 31).
Proof.
  unfold BTR_word.
  change 3 with (2 ^ 2 - 1). change 15 with (2 ^ 4 - 1). change 7 with (2 ^ 3 - 1).
  change 1023 with (2 ^ 10 - 1).
  rewrite !land_mask_mod by lia. rewrite !Z.shiftl_mul_pow2 by lia.
  assert (Hs : 0 <= sjw t mod 2 ^ 2 < 2 ^ 2) by (apply Z.mod_pos_bound; lia).
  assert (H1 : 0 <= bs1 t mod 2 ^ 4 < 2 ^ 4) by (apply Z.mod_pos_bound; lia).
  assert (H2 : 0 <= bs2 t mod 2 ^ 3 < 2 ^ 3) by (apply Z.mod_pos_bound; lia).
  assert (Hp : 0 <= prescaler t mod 2 ^ 10 < 2 ^ 10) by (apply Z.mod_pos_bound; lia).
  set (a := sjw t mod 2 ^ 2) in *. set (b1 := bs1 t mod 2 ^ 4) in *.
  set (b2 := bs2 t mod 2 ^ 3) in *. set (c := prescaler t mod 2 ^ 10) in *.
  rewrite !u32_small by lia.
  rewrite <- (Z.lor_assoc (a * 2 ^ 24)).
  rewrite (Z.lor_comm (b1 * 2 ^ 16) (b2 * 2 ^ 20)).
  rewrite (lor_disjoint_add (b2 * 2 ^ 20) (b1 * 2 ^ 16) 20) by zlia.
  rewrite (lor_disjoint_add (a * 2 ^ 24) _ 24) by zlia.
  rewrite (lor_disjoint_add _ c 16) by zlia.
  change CAN_BTR_SILM with (2 ^ 31).
  destruct (Z.land options OptionSilentMode =? 0); cbn [negb].
  - rewrite Z.lor_0_r. subst a b1 b2 c. change (2 ^ 2) with 4. change (2 ^ 3) with 8.
    change (2 ^ 4) with 16. change (2 ^ 10) with 1024. lia.
  - rewrite Z.lor_comm. rewrite (lor_disjoint_add (2 ^ 31) _ 31) by zlia.
    subst a b1 b2 c. change (2 ^ 2) with 4. change (2 ^ 3) with 8.
    change (2 ^ 4) with 16. change (2 ^ 10) with 1024. lia.
Qed.

(** X20.  The timings [computeTimings] delivers go into [BTR] unharmed:
    the prescaler, bs1 and bs2 fields of the word [start] writes hold
    the computed values (none is cut by its mask), the sjw field is 0 and
    bit 31 is the silent-mode option. *)
Theorem BTR_word_fields (pclk OptionSilentMode bitrate options : Z) (t : Timings) :
  computeTimings bitrate pclk = inr t ->
  let btr := BTR_word OptionSilentMode t options in
  btr mod 2 ^ 10 = prescaler t /\
  (btr / 2 ^ 16) mod 2 ^ 4 = bs1 t /\
  (btr / 2 ^ 20) mod 2 ^ 3 = bs2 t /\
  (btr / 2 ^ 24) mod 2 ^ 2 = 0 /\
  (btr / 2 ^ 10) mod 2 ^ 6 = 0 /\
  (btr / 2 ^ 23) mod 2 = 0 /\
  (btr / 2 ^ 26) mod 2 ^ 5 = 0 /\
  btr / 2 ^ 31 = (if Z.land options OptionSilentMode =? 0 then 0 else 1).
Proof.
  intros Ht. cbv zeta. rewrite BTR_word_arith.
  apply computeTimings_success_inv in Ht.
  destruct Ht as (s & pv & _ & _ & _ & _ & _ & Hpv & Hvalid & _ & _ & _ & ->).
  destruct (isValid_bounds _ Hvalid) as [Hb1 Hb2].
  cbn [prescaler sjw bs1 bs2].
  set (x1 := bp_bs1 (choose_split s)) in *. set (x2 := bp_bs2 (choose_split s)) in *.
  destruct (Z.land options OptionSilentMode =? 0); repeat split; zlia.
Qed.
Section StartStopFacts.

Variable pclk : Z.
Variable OptionLoopback : Z.
Variable OptionSilentMode : Z.

Local Abbreviation start_os := (start pclk OptionLoopback OptionSilentMode).

(** [start] case by case. *)
Lemma start_cases (bitrate options : Z) (reads : nat -> Z)
    (s : State) (r : CAN_CtrlRegs) (p : Platform) :
  let w1 := waitMSRINAKBitStateChange true reads 0 in
  let w2 := waitMSRINAKBitStateChange false reads (snd w1) in
  let fresh := State_init (negb (Z.land options OptionLoopback =? 0)) in
  start_os bitrate options reads s r p =
    if negb (fst w1) then (Neg ErrMsrInakNotSet, s, silence r, enable_once p)
    else match computeTimings bitrate pclk with
         | inl e => (Neg e, fresh, silence r, enable_once p)
         | inr t =>
             if negb (fst w2)
             then (Neg ErrMsrInakNotCleared, fresh,
                   program OptionSilentMode t options (silence r), enable_once p)
             else (Ret 0, fresh,
                   default_filters (program OptionSilentMode t options (silence r)),
                   enable_once p)
         end.
Proof.
  cbv zeta. unfold start.
  destruct (waitMSRINAKBitStateChange true reads 0) as [ok1 k1]. cbn [fst snd].
  destruct ok1; cbn [negb]; [|reflexivity].
  destruct (computeTimings bitrate pclk) as [e|t]; [reflexivity|].
  destruct (waitMSRINAKBitStateChange false reads k1) as [ok2 k2]. cbn [fst snd].
  destruct ok2; reflexivity.
Qed.

(** X21.  When [start] returns 0, the peripheral acknowledged both mode
    changes, the driver state is a fresh one in the loopback mode asked
    for, the six interrupts are enabled, the controller has left the
    init and sleep modes, filter 0 is active and accepts everything, and
    the bitrate read back from the fields of [BTR] is the one requested. *)
Theorem start_success (bitrate options : Z) (reads : nat -> Z)
    (s s' : State) (r r' : CAN_CtrlRegs) (p p' : Platform) :
  start_os bitrate options reads s r p = (Ret 0, s', r', p') ->
  fst (waitMSRINAKBitStateChange true reads 0) = true /\
  s' = State_init (negb (Z.land options OptionLoopback =? 0)) /\
  IER r' = 0x8C13 /\
  MCR r' = 0x60 /\
  Z.land (FMR r') CAN_FMR_FINIT = 0 /\
  FA1R r' = 1 /\ FR1 r' = 0 /\ FR2 r' = 0 /\ FM1R r' = 0 /\ FFA1R r' = 0 /\
  pclk / ((BTR r' mod 2 ^ 10 + 1) *
          (1 + ((BTR r' / 2 ^ 16) mod 2 ^ 4 + 1) + ((BTR r' / 2 ^ 20) mod 2 ^ 3 + 1)))
    = bitrate /\
  BTR r' / 2 ^ 31 = (if Z.land options OptionSilentMode =? 0 then 0 else 1).
Proof.
  rewrite start_cases. cbv zeta.
  destruct (fst (waitMSRINAKBitStateChange true reads 0)); cbn [negb]; [|discriminate].
  destruct (computeTimings bitrate pclk) as [e|t] eqn:Ht; [discriminate|].
  destruct (fst (waitMSRINAKBitStateChange false reads _)); cbn [negb]; [|discriminate].
  intros [= <- <- <-].
  pose proof (computeTimings_success_inv _ _ _ Ht)
    as (sm & pv & _ & _ & _ & _ & _ & Hpv & Hvalid & Hsum & _ & Hrec & Et).
  destruct (isValid_bounds _ Hvalid) as [Hb1 Hb2].
  unfold default_filters, program, silence.
  cbn [MCR IER BTR FMR FFA1R FM1R FS1R FA1R FR1 FR2].
  split; [reflexivity|]. split; [reflexivity|]. split; [reflexivity|].
  split; [reflexivity|]. split.
  { rewrite <- Z.land_assoc. change (Z.land (not32 CAN_FMR_FINIT) CAN_FMR_FINIT) with 0.
    apply Z.land_0_r. }
  repeat (split; [reflexivity|]).
  rewrite BTR_word_arith. subst t. cbn [prescaler sjw bs1 bs2].
  set (x1 := bp_bs1 (choose_split sm)) in *. set (x2 := bp_bs2 (choose_split sm)) in *.
  assert (Hq : 1 + x1 + x2 = 1 + sm) by lia.
  destruct (Z.land options OptionSilentMode =? 0).
  - split; [|zlia].
    replace ((0 mod 4 * 2 ^ 24 + (x2 - 1) mod 8 * 2 ^ 20 + (x1 - 1) mod 16 * 2 ^ 16
              + (pv - 1) mod 1024 + 0) mod 2 ^ 10) with (pv - 1) by zlia.
    replace (((0 mod 4 * 2 ^ 24 + (x2 - 1) mod 8 * 2 ^ 20 + (x1 - 1) mod 16 * 2 ^ 16
               + (pv - 1) mod 1024 + 0) / 2 ^ 16) mod 2 ^ 4) with (x1 - 1) by zlia.
    replace (((0 mod 4 * 2 ^ 24 + (x2 - 1) mod 8 * 2 ^ 20 + (x1 - 1) mod 16 * 2 ^ 16
               + (pv - 1) mod 1024 + 0) / 2 ^ 20) mod 2 ^ 3) with (x2 - 1) by zlia.
    replace (pv - 1 + 1) with pv by lia.
    replace (1 + (x1 - 1 + 1) + (x2 - 1 + 1)) with (1 + sm) by lia.
    symmetry. exact Hrec.
  - split; [|zlia].
    replace ((0 mod 4 * 2 ^ 24 + (x2 - 1) mod 8 * 2 ^ 20 + (x1 - 1) mod 16 * 2 ^ 16
              + (pv - 1) mod 1024 + 2 ^ 31) mod 2 ^ 10) with (pv - 1) by zlia.
    replace (((0 mod 4 * 2 ^ 24 + (x2 - 1) mod 8 * 2 ^ 20 + (x1 - 1) mod 16 * 2 ^ 16
               + (pv - 1) mod 1024 + 2 ^ 31) / 2 ^ 16) mod 2 ^ 4) with (x1 - 1) by zlia.
    replace (((0 mod 4 * 2 ^ 24 + (x2 - 1) mod 8 * 2 ^ 20 + (x1 - 1) mod 16 * 2 ^ 16
               + (pv - 1) mod 1024 + 2 ^ 31) / 2 ^ 20) mod 2 ^ 3) with (x2 - 1) by zlia.
    replace (pv - 1 + 1) with pv by lia.
    replace (1 + (x1 - 1 + 1) + (x2 - 1 + 1)) with (1 + sm) by lia.
    symmetry. exact Hrec.
Qed.

(** X22.  When [start] fails, the seven filter registers ([FMR], [FFA1R],
    [FM1R], [FS1R], [FA1R] and the two of filter 0) are untouched and
    the error says how far it got.  [-ErrMsrInakNotSet]: the driver state is the old
    one.  An error of [computeTimings]: the state is a fresh one.  In
    both, interrupts are off, [BTR] is untouched and the init request is
    still up.  [-ErrMsrInakNotCleared]: the state is a fresh one, and
    the timings are programmed and the interrupts enabled. *)
Theorem start_failure (bitrate options : Z) (reads : nat -> Z)
    (s s' : State) (r r' : CAN_CtrlRegs) (p p' : Platform) (e : Error) :
  start_os bitrate options reads s r p = (Neg e, s', r', p') ->
  FMR r' = FMR r /\ FFA1R r' = FFA1R r /\ FM1R r' = FM1R r /\ FS1R r' = FS1R r /\
  FA1R r' = FA1R r /\ FR1 r' = FR1 r /\ FR2 r' = FR2 r /\
  ((e = ErrMsrInakNotSet /\
    fst (waitMSRINAKBitStateChange true reads 0) = false /\
    s' = s /\ IER r' = 0 /\ BTR r' = BTR r /\
    Z.land (MCR r') CAN_MCR_INRQ = CAN_MCR_INRQ) \/
   (computeTimings bitrate pclk = inl e /\
    (e = ErrInvalidBitRate \/ e = ErrLogic) /\
    s' = State_init (negb (Z.land options OptionLoopback =? 0)) /\
    IER r' = 0 /\ BTR r' = BTR r /\
    Z.land (MCR r') CAN_MCR_INRQ = CAN_MCR_INRQ) \/
   (e = ErrMsrInakNotCleared /\
    (exists t, computeTimings bitrate pclk = inr t /\
               BTR r' = BTR_word OptionSilentMode t options) /\
    s' = State_init (negb (Z.land options OptionLoopback =? 0)) /\
    IER r' = 0x8C13)).
Proof.
  rewrite start_cases. cbv zeta.
  assert (Hinrq : forall x, Z.land (Z.lor x CAN_MCR_INRQ) CAN_MCR_INRQ = CAN_MCR_INRQ).
  { intros x. apply Z.bits_inj'. intros n _.
    rewrite Z.land_spec, Z.lor_spec.
    destruct (Z.testbit x n), (Z.testbit CAN_MCR_INRQ n); reflexivity. }
  destruct (fst (waitMSRINAKBitStateChange true reads 0)); cbn [negb].
  - destruct (computeTimings bitrate pclk) as [e0|t] eqn:Ht.
    + intros [= <- <- <- <-]. cbn. repeat (split; [reflexivity|]).
      right. left. split; [reflexivity|]. split.
      { unfold computeTimings in Ht. cbv zeta in Ht.
        repeat match type of Ht with
               | (if ?c then _ else _) = _ => destruct c
               | (match ?c with _ => _ end) = _ => destruct c
               end; first [discriminate | injection Ht as <-; auto]. }
      repeat (split; [reflexivity|]). apply Hinrq.
    + destruct (fst (waitMSRINAKBitStateChange false reads _)); cbn [negb];
        [discriminate|].
      intros [= <- <- <- <-]. cbn. repeat (split; [reflexivity|]).
      right. right. split; [reflexivity|]. split; [eauto|]. split; reflexivity.
  - intros [= <- <- <- <-]. cbn. repeat (split; [reflexivity|]).
    left. repeat (split; [reflexivity|]). apply Hinrq.
Qed.

End StartStopFacts.

(** ** Instances *)

Lemma computeTimings_success_sound_witness :
  36000000 / ((3 + 1) * (1 + (6 + 1) + (0 + 1))) = 1000000.
Proof.
  assert (H : computeTimings 1000000 36000000 = inr (mkTimings 3 0 6 0))
    by (vm_compute; reflexivity).
  destruct (computeTimings_success_sound _ _ _ H) as (_ & _ & _ & _ & _ & _ & Hrec & _).
  exact Hrec.
Defined.

(** 500 kbit/s at 36 MHz: clock / bitrate is 72, whose divisors within
    the budget are 3, 4, 6, 8, 9 and 12; twelve quanta are chosen, and
    nine are passed over. *)
Lemma computeTimings_most_quanta_witness :
  3 <= 1 + (8 + 1) + (1 + 1) <= 17 /\
  (36000000 / 500000) mod (1 + (8 + 1) + (1 + 1)) = 0 /\
  9 <= 1 + (8 + 1) + (1 + 1).
Proof.
  assert (H : computeTimings 500000 36000000 = inr (mkTimings 5 0 8 1))
    by (vm_compute; reflexivity).
  destruct (computeTimings_most_quanta 500000 36000000 (mkTimings 5 0 8 1) H)
    as (Hrange & Hdiv & Hlargest).
  split; [exact Hrange|]. split; [exact Hdiv|].
  apply (Hlargest 9).
  - vm_compute. split; congruence.
  - reflexivity.
Defined.

Lemma computeTimings_no_ErrLogic_when_divisible_witness :
  computeTimings 250000 36000000 <> inl ErrLogic.
Proof.
  apply (computeTimings_no_ErrLogic_when_divisible 250000 36000000 144); [lia | reflexivity].
Defined.

Lemma computeTimings_bitrate_above_clock_witness :
  computeTimings 72000000 36000000 = inl ErrInvalidBitRate.
Proof. apply computeTimings_bitrate_above_clock. lia. Defined.

Lemma BTR_word_fields_witness :
  BTR_word 2 (mkTimings 3 0 6 0) 2 mod 2 ^ 10 = 3 /\
  BTR_word 2 (mkTimings 3 0 6 0) 2 / 2 ^ 31 = 1.
Proof.
  assert (H : computeTimings 1000000 36000000 = inr (mkTimings 3 0 6 0))
    by (vm_compute; reflexivity).
  destruct (BTR_word_fields 36000000 2 1000000 2 (mkTimings 3 0 6 0) H)
    as (Hp & _ & _ & _ & _ & _ & _ & Hs).
  split; [exact Hp | exact Hs].
Defined.

Lemma priorityHigherThan_total_witness :
  priorityHigherThan (frame_of_id 0x100) (frame_of_id 0x200) = true \/
  priorityHigherThan (frame_of_id 0x200) (frame_of_id 0x100) = true.
Proof. apply priorityHigherThan_total. vm_compute. congruence. Defined.

Lemma priorityHigherThan_rules_witness :
  priorityHigherThan (frame_of_id 0x100) (frame_of_id (Z.lor FlagEFF 0x4000000)) = true.
Proof.
  rewrite priorityHigherThan_rules; reflexivity.
Defined.

Lemma canAcceptNewTxFrame_refuses_pending_frame_witness :
  canAcceptNewTxFrame (frame_of_id 0x100) mixed_world = false.
Proof.
  apply (canAcceptNewTxFrame_refuses_pending_frame _ _ 0%nat).
  - vm_compute. congruence.
  - unfold NumTxMailboxes. lia.
  - reflexivity.
Defined.

Lemma RxQueue_init_wf : RxQueue.wf RxQueue.init.
Proof.
  unfold RxQueue.wf, RxQueue.ring_inv, RxQueue.Capacity. cbn. repeat split; lia.
Qed.

Lemma RxQueue_fifo_witness :
  RxQueue.contents (RxQueue.push RxFrame_default RxQueue.init) = [RxFrame_default].
Proof.
  destruct (RxQueue_fifo RxQueue.init RxFrame_default RxQueue_init_wf) as (_ & Hc & _).
  rewrite Hc. reflexivity.
Defined.

Lemma RxQueue_no_loss_below_capacity_witness :
  fst (RxQueue.pop_many 16
         (RxQueue.push_all [RxFrame_default; RxFrame_default]
                           (RxQueue.reset RxQueue.init)))
  = [RxFrame_default; RxFrame_default].
Proof.
  apply (RxQueue_no_loss_below_capacity RxQueue.init [RxFrame_default; RxFrame_default]).
  - reflexivity.
  - cbn. lia.
Defined.

Lemma decode_frame_mailbox_of_frame_witness :
  decode_frame (looped_mailbox (mailbox_of_frame (frame_of_id 0x123))) = frame_of_id 0x123.
Proof.
  apply decode_frame_mailbox_of_frame.
  unfold bus_frame, no_stray_bits. cbn.
  repeat split; try lia; try reflexivity. repeat constructor; lia.
Defined.


Lemma receive_returns_oldest_witness :
  exists (f : RxFrame) (q' : RxQueue.t),
    RxQueue.contents (RxQueue.push RxFrame_default RxQueue.init) = f :: RxQueue.contents q' /\
    receive MS2ST_1kHz (fun _ => 0) (fun _ _ => 0) (fun _ _ w => w) 1 0
            (mkWorld (set_rx_queue (RxQueue.push RxFrame_default RxQueue.init)
                                   (State_init false)) idle_CAN)
    = Some (Ret 1, Some f,
            mkWorld (set_rx_queue q'
                       (set_rx_queue (RxQueue.push RxFrame_default RxQueue.init)
                                     (State_init false))) idle_CAN, []).
Proof.
  apply (receive_returns_oldest MS2ST_1kHz (fun _ => 0) (fun _ _ => 0) (fun _ _ w => w)
           0%nat 0
           (mkWorld (set_rx_queue (RxQueue.push RxFrame_default RxQueue.init)
                                  (State_init false)) idle_CAN)).
  - cbn [state_ rx_queue set_rx_queue]. apply push_wf. exact RxQueue_init_wf.
  - reflexivity.
Defined.

Lemma send_on_idle_driver_witness :
  exists w',
    send MS2ST_1kHz (fun _ => 0) (fun _ _ => 0) (fun _ _ w => w) 1
         (frame_of_id 0x123) 0 idle_world = Some (Ret 1, w', []) /\
    pending_tx (state_ w') !!! 0%nat = mkTxItem (frame_of_id 0x123) true /\
    sTxMailBox (CAN w') =
      <[0%nat := mailbox_of_frame (frame_of_id 0x123)]> (sTxMailBox (CAN idle_world)).
Proof.
  apply (send_on_idle_driver MS2ST_1kHz (fun _ => 0) (fun _ _ => 0) (fun _ _ w => w)
           0%nat (frame_of_id 0x123) 0 idle_world).
  - reflexivity.
  - reflexivity.
  - cbn. lia.
  - cbn. lia.
Defined.

Lemma send_zero_is_timeout_witness :
  canAcceptNewTxFrame (frame_of_id 0x100) mixed_world = false.
Proof.
  assert (H : send MS2ST_1kHz (fun _ => 0) (fun _ _ => 0) (fun _ _ w => w) 1
                   (frame_of_id 0x100) 0 mixed_world = Some (Ret 0, mixed_world, []))
    by reflexivity.
  destruct (send_zero_is_timeout _ _ _ _ _ _ _ _ _ _ _ H)
    as [(_ & Hrefused & _) | [(Hone & _) | (Hneg & _)]];
    [exact Hrefused | discriminate | discriminate].
Defined.

Lemma loopback_echo_witness :
  exists w3,
    receive MS2ST_1kHz (fun _ => 0) (fun _ _ => 0) (fun _ _ w => w) 1 0
      (mkWorld
         (handleTxMailboxInterrupt 1 true 7
            (state_ (snd (loadTxMailbox (frame_of_id 0x123) mixed_world))))
         (CAN (snd (loadTxMailbox (frame_of_id 0x123) mixed_world))))
    = Some (Ret 1, Some (mkRxFrame (frame_of_id 0x123) 7 true false), w3, []) /\
    RxQueue.getLength (rx_queue (state_ w3)) = 0.
Proof.
  assert (Hdlc : Frame_dlc (frame_of_id 0x123) <= 8) by (cbn; lia).
  pose proof (loopback_echo MS2ST_1kHz (fun _ => 0) (fun _ _ => 0) (fun _ _ w => w)
                0%nat (frame_of_id 0x123) true 7 0 1 mixed_world
                eq_refl eq_refl RxQueue_init_wf eq_refl eq_refl Hdlc eq_refl) as H.
  cbv zeta in H. destruct H as (_ & _ & _ & _ & Hrecv). exact Hrecv.
Defined.

Lemma start_success_witness :
  IER (snd (fst (start 36000000 1 2 1000000 1 prompt_msr (State_init false)
                       reset_regs cold_platform))) = 0x8C13.
Proof.
  destruct (start 36000000 1 2 1000000 1 prompt_msr (State_init false)
                  reset_regs cold_platform) as [[[res s'] r'] p'] eqn:Hstart.
  assert (Hres : res = Ret 0).
  { apply (f_equal (fun x => fst (fst (fst x)))) in Hstart.
    vm_compute in Hstart. congruence. }
  subst res. cbn [fst snd].
  destruct (start_success _ _ _ _ _ _ _ _ _ _ _ _ Hstart) as (_ & _ & Hier & _).
  exact Hier.
Defined.

Lemma start_failure_witness :
  IER (snd (fst (start 36000000 1 2 1000000 1 (fun _ => 0) (State_init false)
                       reset_regs cold_platform))) = 0.
Proof.
  destruct (start 36000000 1 2 1000000 1 (fun _ => 0) (State_init false)
                  reset_regs cold_platform) as [[[res s'] r'] p'] eqn:Hstart.
  assert (Hres : res = Neg ErrMsrInakNotSet).
  { apply (f_equal (fun x => fst (fst (fst x)))) in Hstart.
    vm_compute in Hstart. congruence. }
  subst res. cbn [fst snd].
  destruct (start_failure _ _ _ _ _ _ _ _ _ _ _ _ _ Hstart)
    as (_ & _ & _ & _ & _ & _ & _ &
        [(_ & _ & _ & Hier & _) | [(Ht & _) | (He & _)]]).
  - exact Hier.
  - vm_compute in Ht. discriminate.
  - discriminate.
Defined.

Lemma reception_end_to_end_witness :
  exists w3,
    receive MS2ST_1kHz (fun _ => 0) (fun _ _ => 0) (fun _ _ w => w) 1 0
      (mkWorld
         (fst (handleRxInterrupt 0 7 (State_init false)
                 (mkRxRegs 1 0 [looped_mailbox (mailbox_of_frame (frame_of_id 0x123));
                                mkFIFOMailBox 0 0 0 0])))
         idle_CAN)
    = Some (Ret 1, Some (mkRxFrame (frame_of_id 0x123) 7 false false), w3, []) /\
    RxQueue.getLength (rx_queue (state_ w3)) = 0.
Proof.
  assert (Hframe : bus_frame (frame_of_id 0x123)).
  { unfold bus_frame, no_stray_bits. cbn.
    repeat split; try lia; try reflexivity. repeat constructor; lia. }
  assert (Hfmp : Z.land (if 0 =? 0 then RF0R (mkRxRegs 1 0 [looped_mailbox (mailbox_of_frame (frame_of_id 0x123)); mkFIFOMailBox 0 0 0 0])
                         else RF1R (mkRxRegs 1 0 [looped_mailbox (mailbox_of_frame (frame_of_id 0x123)); mkFIFOMailBox 0 0 0 0]))
                        CAN_RFR_FMP_MASK <> 0) by (vm_compute; congruence).
  pose proof (reception_end_to_end MS2ST_1kHz (fun _ => 0) (fun _ _ => 0) (fun _ _ w => w)
                0%nat (frame_of_id 0x123) 0 7 0 (State_init false) idle_CAN
                (mkRxRegs 1 0 [looped_mailbox (mailbox_of_frame (frame_of_id 0x123));
                               mkFIFOMailBox 0 0 0 0])
                Hframe RxQueue_init_wf eq_refl Hfmp eq_refl) as H.
  cbv zeta in H. destruct H as (_ & _ & Hrecv). exact Hrecv.
Defined.
